(** * p0f SSL fingerprinting (fp_ssl.c): a shallow embedding and its properties

    The development follows the source file function by function:
    [decode_hex_string], [match_sigs], [ssl_find_match],
    [fingerprint_ssl_v2], [fingerprint_ssl_v3], [dump_sig],
    [fingerprint_ssl] and [process_ssl].

    Conventions.
    - [u8], [u16], [u32] and [s32] values are integers in [Z]; wrap-around is
      written out where the source relies on it.
    - A byte buffer is a [list byte]; a pointer into it is an offset in [Z].
    - A NUL-terminated C string is a [list ascii]; the end of the list is the
      terminating NUL.
    - An [END_MARKER]-terminated [u32] array is a [list Z]; a pointer into it
      is a suffix of the list, and reading at the end of the list yields
      [END_MARKER].  Arrays built by the code carry their explicit
      terminator.
    - A nullable pointer field is an [option]. *)

From Stdlib Require Import Ascii String.
From Stdlib Require Import ZArith List Bool Lia.
From Stdlib.Strings Require Import Byte.
Import ListNotations.
Local Open Scope Z_scope.

(** ** Constants of fp_ssl.h, config.h *)

(** Modelled from the spec: the header fp_ssl.h (and config.h) is not among
    the sources.  The spec says that the end marker and the wildcard and
    optional markings are packed into the same 32-bit space as the 24-bit
    field values; the constants are therefore parameters of the development,
    constrained by [consts_ok] below. *)
Class ssl_consts : Type := {
  MATCH_MAYBE : Z;            (* '?' marking, or-ed onto a value *)
  MATCH_ANY : Z;              (* '*' *)
  END_MARKER : Z;             (* array terminator *)
  SSL_FLAG_COMPR : Z;
  SSL_FLAG_V2 : Z;
  SSL_FLAG_VER : Z;
  SSL_FLAG_TIME : Z;
  SSL_FLAG_STIME : Z;
  SSL3_REC_HANDSHAKE : Z;     (* record content type of a handshake *)
  SSL3_MSG_CLIENT_HELLO : Z;  (* handshake message type of ClientHello *)
  MAX_FLOW_DATA : Z           (* maximum retained size of a flow buffer *)
}.

(** What the code needs of the three sentinels: [MATCH_MAYBE] is one bit
    above the 24 value bits, [MATCH_ANY] and [END_MARKER] are distinct 32-bit
    words above the 24-bit values that do not carry the [MATCH_MAYBE] bit. *)
Record consts_ok (K : ssl_consts) : Prop := {
  maybe_bit : exists k, 24 <= k < 32 /\ MATCH_MAYBE = 2 ^ k;
  any_range : 2 ^ 24 <= MATCH_ANY < 2 ^ 32;
  any_plain : Z.land MATCH_ANY MATCH_MAYBE = 0;
  end_range : 2 ^ 24 <= END_MARKER < 2 ^ 32;
  end_plain : Z.land END_MARKER MATCH_MAYBE = 0;
  any_not_end : MATCH_ANY <> END_MARKER
}.

(** One choice of the constants that satisfies [consts_ok], used for the
    closed examples: the sentinels on the bits 28, 29 and 30, the TLS codes
    22 (handshake) and 1 (ClientHello). *)
Definition p0f_consts : ssl_consts := {|
  MATCH_MAYBE := 0x10000000;
  MATCH_ANY := 0x20000000;
  END_MARKER := 0x40000000;
  SSL_FLAG_COMPR := 0x0020;
  SSL_FLAG_V2 := 0x0001;
  SSL_FLAG_VER := 0x0002;
  SSL_FLAG_TIME := 0x0008;
  SSL_FLAG_STIME := 0x0010;
  SSL3_REC_HANDSHAKE := 22;
  SSL3_MSG_CLIENT_HELLO := 1;
  MAX_FLOW_DATA := 8192
|}.

(** ** Outcomes of code that can go wrong *)

Inductive abort : Type :=
| OutOfBounds     (* a read outside the buffer *)
| NullPointer     (* a NULL array was dereferenced *)
| Fatal           (* FATAL(): the process exits *)
| FuelExhausted.  (* a loop of the model ran out of fuel *)

Inductive outcome (A : Type) : Type :=
| Done (a : A)
| Abort (e : abort).
Arguments Done {A} a.
Arguments Abort {A} e.

Definition bind {A B : Type} (m : outcome A) (k : A -> outcome B) : outcome B :=
  match m with
  | Done a => k a
  | Abort e => Abort e
  end.

Notation "x <- m ;; k" := (bind m (fun x => k))
  (at level 61, m at next level, right associativity).
Notation "' pat <- m ;; k" := (bind m (fun x => match x with pat => k end))
  (at level 61, pat pattern, m at next level, right associativity).

(** ** Token arrays *)

Definition text : Type := list ascii.

(** The tagged view of a word of a token array (spec, data model). *)
Inductive token : Type :=
| Exact (v : Z)
| Wildcard
| Optional (v : Z).

Section WithConsts.
Context {K : ssl_consts}.

Definition encode_token (t : token) : Z :=
  match t with
  | Exact v => v
  | Wildcard => MATCH_ANY
  | Optional v => Z.lor v MATCH_MAYBE
  end.

(** How [match_sigs] and [dump_sig] read a word: [None] is the terminator. *)
Definition classify (w : Z) : option token :=
  if w =? END_MARKER then None
  else if w =? MATCH_ANY then Some Wildcard
  else if negb (Z.land w MATCH_MAYBE =? 0)
       then Some (Optional (Z.land w (Z.lnot MATCH_MAYBE)))
  else Some (Exact w).

(** [*p] for a pointer into a terminated array. *)
Definition deref (p : list Z) : Z := hd END_MARKER p.

(** A 24-bit field value. *)
Definition is_value (v : Z) : Prop := 0 <= v < 2 ^ 24.

(** ** match_sigs (fp_ssl.c:134) *)

(** Rule 3, the inner loop
    [for (tmp_sig = sig; *tmp_sig != END_MARKER; tmp_sig++)]:
    the position after the first [v], if there is one. *)
Fixpoint look_forward (v : Z) (tmp_sig : list Z) : option (list Z) :=
  match tmp_sig with
  | [] => None
  | x :: tmp_sig' =>
      if x =? END_MARKER then None
      else if v =? x then Some tmp_sig'
      else look_forward v tmp_sig'
  end.

(** Rule 4, the loop [for (; *sig != END_MARKER; sig++)]: the position after
    the first [v], or the terminator. *)
Fixpoint seek_exact (v : Z) (sig : list Z) : list Z :=
  match sig with
  | [] => []
  | x :: sig' =>
      if x =? END_MARKER then sig
      else if v =? x then sig'
      else seek_exact v sig'
  end.

(** Step 1 after the loop: roll [rec] while it has conditional matches. *)
Fixpoint roll (rec : list Z) : list Z :=
  match rec with
  | [] => []
  | r :: rec' =>
      if negb (Z.land r MATCH_MAYBE =? 0) || (r =? MATCH_ANY) then roll rec'
      else rec
  end.

(** Steps 1 to 4 after the loop. *)
Definition match_finish (rec sig : list Z) (match_any : bool) : Z :=
  let rec := roll rec in
  if (deref rec =? END_MARKER) && (deref sig =? END_MARKER) then 0
  else if (deref rec =? END_MARKER) && match_any then 0
  else 1.

(** The main loop, from a given state of the two cursors and [match_any]. *)
Fixpoint match_loop (rec sig : list Z) (match_any : bool) : Z :=
  match rec with
  | [] => match_finish rec sig match_any
  | r :: rec' =>
      if (r =? END_MARKER) || (deref sig =? END_MARKER)
      then match_finish rec sig match_any
      (* 1. Exact match, move on *)
      else if Z.land r (Z.lnot MATCH_MAYBE) =? deref sig
      then match_loop rec' (tl sig) false
      (* 2. Star, may match anything *)
      else if r =? MATCH_ANY
      then match_loop rec' sig true
      (* 3. Optional match, not yet fulfilled *)
      else if negb (Z.land r MATCH_MAYBE =? 0)
      then if match_any
           then match look_forward (Z.land r (Z.lnot MATCH_MAYBE)) sig with
                | Some sig' => match_loop rec' sig' false
                | None => match_loop rec' sig true
                end
           else match_loop rec' sig false
      (* 4. Looking for an exact match after MATCH_ANY *)
      else if match_any
      then match_loop rec' (seek_exact r sig) false
      (* 5. Nope, not matched. *)
      else 1
  end.

(** 0 is a match, 1 is none. *)
Definition match_sigs (rec sig : list Z) : Z := match_loop rec sig false.

(** ** Signatures and the signature table *)

(** Modelled from the spec: [struct ssl_sig] and [struct ssl_sig_record] are
    declared in fp_ssl.h, which is not among the sources; the fields are the
    ones the code uses and the spec's data model lists.  [matched] points
    into the table [signatures]: it is the index of the record. *)
Record ssl_sig : Type := mk_ssl_sig {
  request_version : Z;              (* u16, (maj << 8) | min *)
  remote_time : Z;                  (* u32 *)
  drift : Z;                        (* s32 *)
  cipher_suites : option (list Z);  (* u32*, END_MARKER terminated *)
  extensions : option (list Z);     (* u32*, END_MARKER terminated *)
  flags : Z;                        (* u32 *)
  matched : option nat              (* struct ssl_sig_record*, NULL = no match *)
}.

Record ssl_sig_record : Type := mk_ssl_sig_record {
  class_id : Z;
  name_id : Z;
  flavor : option text;
  label_id : Z;
  sys : list Z;
  sys_cnt : Z;
  line_no : Z;
  generic : Z;
  rec_sig : ssl_sig                 (* struct ssl_sig* sig *)
}.

Definition set_request_version (s : ssl_sig) (v : Z) : ssl_sig :=
  mk_ssl_sig v (remote_time s) (drift s) (cipher_suites s) (extensions s)
             (flags s) (matched s).
Definition set_remote_time (s : ssl_sig) (v : Z) : ssl_sig :=
  mk_ssl_sig (request_version s) v (drift s) (cipher_suites s) (extensions s)
             (flags s) (matched s).
Definition set_drift (s : ssl_sig) (v : Z) : ssl_sig :=
  mk_ssl_sig (request_version s) (remote_time s) v (cipher_suites s)
             (extensions s) (flags s) (matched s).
Definition set_cipher_suites (s : ssl_sig) (v : option (list Z)) : ssl_sig :=
  mk_ssl_sig (request_version s) (remote_time s) (drift s) v (extensions s)
             (flags s) (matched s).
Definition set_extensions (s : ssl_sig) (v : option (list Z)) : ssl_sig :=
  mk_ssl_sig (request_version s) (remote_time s) (drift s) (cipher_suites s) v
             (flags s) (matched s).
Definition set_flags (s : ssl_sig) (v : Z) : ssl_sig :=
  mk_ssl_sig (request_version s) (remote_time s) (drift s) (cipher_suites s)
             (extensions s) v (matched s).
Definition set_matched (s : ssl_sig) (v : option nat) : ssl_sig :=
  mk_ssl_sig (request_version s) (remote_time s) (drift s) (cipher_suites s)
             (extensions s) (flags s) v.

(** [memset(&sig, 0, sizeof(struct ssl_sig))] *)
Definition zero_sig : ssl_sig := mk_ssl_sig 0 0 0 None None 0 None.

(** Dereferencing an array pointer. *)
Definition array (p : option (list Z)) : outcome (list Z) :=
  match p with
  | Some a => Done a
  | None => Abort NullPointer
  end.

(** ** ssl_find_match (fp_ssl.c:210) *)

(** The loop [for (i = 0; i < signatures_cnt; i++)], at index [i] with the
    records from [i] on still to visit. *)
Fixpoint find_loop (todo : list ssl_sig_record) (i : nat) (ts : ssl_sig)
  : outcome ssl_sig :=
  match todo with
  | [] => Done ts
  | ref :: todo' =>
      let rs := rec_sig ref in
      (* SSL versions must match exactly. *)
      if negb (request_version rs =? request_version ts)
      then find_loop todo' (S i) ts
      (* Flags - exact match *)
      else if negb (flags ts =? flags rs)
      then find_loop todo' (S i) ts
      else
        (* Extensions match. *)
        re <- array (extensions rs) ;;
        te <- array (extensions ts) ;;
        if negb (match_sigs re te =? 0) then find_loop todo' (S i) ts
        else
          (* Cipher suites match. *)
          rc <- array (cipher_suites rs) ;;
          tc <- array (cipher_suites ts) ;;
          if negb (match_sigs rc tc =? 0) then find_loop todo' (S i) ts
          else Done (set_matched ts (Some i))
  end.

Definition ssl_find_match (signatures : list ssl_sig_record) (ts : ssl_sig)
  : outcome ssl_sig :=
  find_loop signatures 0%nat ts.

(** ** Reading the byte buffer *)

Definition u8_of (b : byte) : Z := Z.of_N (Byte.to_N b).

(** [buf[off]] *)
Definition rd (buf : list byte) (off : Z) : outcome Z :=
  if off <? 0 then Abort OutOfBounds
  else match nth_error buf (Z.to_nat off) with
       | Some b => Done (u8_of b)
       | None => Abort OutOfBounds
       end.

(** A big-endian 16-bit field: [ntohs] of a [u16] field, or
    [(p[0] << 8) | p[1]]. *)
Definition rd16 (buf : list byte) (off : Z) : outcome Z :=
  hi <- rd buf off ;;
  lo <- rd buf (off + 1) ;;
  Done (Z.lor (Z.shiftl hi 8) lo).

(** A big-endian 24-bit field: [(p[0] << 16) | (p[1] << 8) | p[2]]. *)
Definition rd24 (buf : list byte) (off : Z) : outcome Z :=
  b0 <- rd buf off ;;
  b1 <- rd buf (off + 1) ;;
  b2 <- rd buf (off + 2) ;;
  Done (Z.lor (Z.lor (Z.shiftl b0 16) (Z.shiftl b1 8)) b2).

(** A big-endian 32-bit field: [ntohl] of the [u32] at [p]. *)
Definition rd32 (buf : list byte) (off : Z) : outcome Z :=
  b0 <- rd buf off ;;
  b1 <- rd buf (off + 1) ;;
  b2 <- rd buf (off + 2) ;;
  b3 <- rd buf (off + 3) ;;
  Done (Z.lor (Z.lor (Z.lor (Z.shiftl b0 24) (Z.shiftl b1 16)) (Z.shiftl b2 8)) b3).

(** ** fingerprint_ssl_v2 (fp_ssl.c:242) *)

(** Modelled from the spec: the packed [struct ssl2_hdr] of fp_ssl.h.  The
    source gives its size (11 bytes, "at least 9" after the length field);
    the spec and the SSLv2 wire format give the fields:
    msg_length (2 bytes), msg_type, ver_maj, ver_min (1 byte each),
    cipher_spec_length, session_id_length, challenge_length (2 bytes each). *)
Definition sizeof_ssl2_hdr : Z := 11.
Definition ssl2_msg_length : Z := 0.
Definition ssl2_msg_type : Z := 2.
Definition ssl2_ver_maj : Z := 3.
Definition ssl2_ver_min : Z := 4.
Definition ssl2_cipher_spec_length : Z := 5.
Definition ssl2_session_id_length : Z := 7.
Definition ssl2_challenge_length : Z := 9.

(** [while (pay < tmp_end)], three bytes a cipher. *)
Fixpoint v2_cipher_loop (fuel : nat) (buf : list byte) (pay tmp_end : Z)
                        (acc : list Z) : outcome (list Z * Z) :=
  if pay <? tmp_end then
    match fuel with
    | O => Abort FuelExhausted
    | S fuel' =>
        c <- rd24 buf pay ;;
        v2_cipher_loop fuel' buf (pay + 3) tmp_end (acc ++ [c])
    end
  else Done (acc, pay).

(** The label [too_short]: both arrays are freed, the caller drops [sig]. *)
Definition too_short (sig : ssl_sig) : outcome (Z * ssl_sig) := Done (-1, sig).

(** The label [truncated] of the SSLv2 dissector. *)
Definition v2_truncated (sig : ssl_sig) : outcome (Z * ssl_sig) :=
  Done (1, set_extensions sig (Some [END_MARKER])).

Definition fingerprint_ssl_v2 (sig : ssl_sig) (buf : list byte) (pay_len : Z)
  : outcome (Z * ssl_sig) :=
  let pay := 0 in
  let pay_end := pay + pay_len in
  if pay + sizeof_ssl2_hdr >? pay_end then too_short sig
  else
    let hdr := pay in
    let pay := pay + sizeof_ssl2_hdr in
    ver_min <- rd buf (hdr + ssl2_ver_min) ;;
    ver_maj <- rd buf (hdr + ssl2_ver_maj) ;;
    let sig :=
      if (ver_min =? 2) && (ver_maj =? 0)
      then set_request_version sig 0x0200
      else set_request_version sig (Z.lor (Z.shiftl ver_maj 8) ver_min) in
    cipher_spec_len <- rd16 buf (hdr + ssl2_cipher_spec_length) ;;
    if negb (cipher_spec_len mod 3 =? 0) then Done (-1, sig)
    else if pay + cipher_spec_len >? pay_end then too_short sig
    else
      let tmp_end := pay + cipher_spec_len in
      '(cs, pay) <- v2_cipher_loop (Z.to_nat cipher_spec_len) buf pay tmp_end [] ;;
      let sig := set_cipher_suites sig (Some (cs ++ [END_MARKER])) in
      session_id_len <- rd16 buf (hdr + ssl2_session_id_length) ;;
      challenge_len <- rd16 buf (hdr + ssl2_challenge_length) ;;
      if pay + session_id_len + challenge_len >? pay_end
      then v2_truncated sig
      else v2_truncated sig.

(** ** fingerprint_ssl_v3 (fp_ssl.c:333) *)

(** Modelled from the spec: the packed [struct ssl3_message_hdr] of fp_ssl.h,
    a message type byte followed by a 24-bit length ([u8 length[3]] in the
    source), 4 bytes in all ("message is 4 + 38"). *)
Definition sizeof_ssl3_message_hdr : Z := 4.
Definition ssl3_message_type : Z := 0.
Definition ssl3_length : Z := 1.

(** Conversion of a 32-bit word to [s32], and [abs] on [int] (on two's
    complement [abs(INT_MIN)] stays [INT_MIN]). *)
Definition to_s32 (x : Z) : Z :=
  let y := x mod 2 ^ 32 in if y <? 2 ^ 31 then y else y - 2 ^ 32.
Definition c_abs (x : Z) : Z := to_s32 (Z.abs x).

(** [while (pay < tmp_end)], two bytes a cipher. *)
Fixpoint v3_cipher_loop (fuel : nat) (buf : list byte) (pay tmp_end : Z)
                        (acc : list Z) : outcome (list Z * Z) :=
  if pay <? tmp_end then
    match fuel with
    | O => Abort FuelExhausted
    | S fuel' =>
        c <- rd16 buf pay ;;
        v3_cipher_loop fuel' buf (pay + 2) tmp_end (acc ++ [c])
    end
  else Done (acc, pay).

(** [while (pay < tmp_end)] over the compression methods. *)
Fixpoint compression_loop (fuel : nat) (buf : list byte) (pay tmp_end : Z)
                          (sig : ssl_sig) : outcome (ssl_sig * Z) :=
  if pay <? tmp_end then
    match fuel with
    | O => Abort FuelExhausted
    | S fuel' =>
        m <- rd buf pay ;;
        let sig := if m =? 1
                   then set_flags sig (Z.lor (flags sig) SSL_FLAG_COMPR)
                   else sig in
        compression_loop fuel' buf (pay + 1) tmp_end sig
    end
  else Done (sig, pay).

(** [while (pay + 4 <= tmp_end)] over the extensions; the type is stored
    before the payload length is checked. *)
Fixpoint extension_loop (fuel : nat) (buf : list byte) (pay tmp_end : Z)
                        (acc : list Z) : outcome (list Z * Z) :=
  if pay + 4 <=? tmp_end then
    match fuel with
    | O => Abort FuelExhausted
    | S fuel' =>
        ext_type <- rd16 buf pay ;;
        ext_len <- rd16 buf (pay + 2) ;;
        let pay := pay + 4 in
        let pay := pay + ext_len in
        let acc := acc ++ [ext_type] in
        (* Extension payload sane? *)
        if pay >? tmp_end then Done (acc, pay)
        else extension_loop fuel' buf pay tmp_end acc
    end
  else Done (acc, pay).

(** From the label [truncated] to [return 1]. *)
Definition v3_truncated (sig : ssl_sig) : outcome (Z * ssl_sig) :=
  let sig := match extensions sig with
             | None => set_extensions sig (Some [END_MARKER])
             | Some _ => sig
             end in
  Done (1, sig).

(** The function from the compression methods on (fp_ssl.c:460-547); no path
    of this part fails. *)
Definition v3_compression_extensions (sig : ssl_sig) (buf : list byte)
                                     (pay pay_end : Z) : outcome (Z * ssl_sig) :=
  if pay + 1 >? pay_end then v3_truncated sig
  else
    compression_methods_len <- rd buf pay ;;
    let pay := pay + 1 in
    if pay + compression_methods_len >? pay_end then v3_truncated sig
    else
      let tmp_end := pay + compression_methods_len in
      '(sig, pay) <- compression_loop (Z.to_nat compression_methods_len)
                                      buf pay tmp_end sig ;;
      if pay + 2 >? pay_end then v3_truncated sig
      else
        extensions_len <- rd16 buf pay ;;
        let pay := pay + 2 in
        if pay + extensions_len >? pay_end then v3_truncated sig
        else
          let tmp_end := pay + extensions_len in
          '(es, pay) <- extension_loop (Z.to_nat extensions_len)
                                       buf pay tmp_end [] ;;
          (* the terminator is always appended *)
          let sig := set_extensions sig (Some (es ++ [END_MARKER])) in
          v3_truncated sig.

(** fp_ssl.c:384-389: the request version and the flag VER. *)
Definition v3_request_version (sig : ssl_sig) (ver record_version : Z) : ssl_sig :=
  let sig := set_request_version sig ver in
  if negb (request_version sig =? record_version)
  then set_flags sig (Z.lor (flags sig) SSL_FLAG_VER)
  else sig.

(** fp_ssl.c:391-409: the remote time, the drift and the flags STIME, TIME. *)
Definition v3_remote_time (sig : ssl_sig) (time local_time : Z) : ssl_sig :=
  let sig := set_remote_time sig time in
  let sig := set_drift sig (to_s32 (local_time - remote_time sig)) in
  if remote_time sig <? 1 * 365 * 24 * 60 * 60
  then set_flags sig (Z.lor (flags sig) SSL_FLAG_STIME)
  else if c_abs (drift sig) >? 5 * 365 * 24 * 60 * 60
  then set_flags sig (Z.lor (flags sig) SSL_FLAG_TIME)
  else sig.

Definition fingerprint_ssl_v3 (sig : ssl_sig) (fragment : list byte)
                              (frag_len record_version local_time : Z)
  : outcome (Z * ssl_sig) :=
  let frag_end := 0 + frag_len in
  let msg := 0 in
  msg_len <- rd24 fragment (msg + ssl3_length) ;;
  let pay := msg + sizeof_ssl3_message_hdr in
  let pay_end := pay + msg_len in
  (* Record size goes beyond current fragment *)
  if pay_end >? frag_end then Done (-1, sig)
  else
    message_type <- rd fragment (msg + ssl3_message_type) ;;
    if negb (message_type =? SSL3_MSG_CLIENT_HELLO) then Done (-1, sig)
    (* Header (34B) + session_id_len (1B) *)
    else if pay + 2 + 4 + 28 + 1 >? pay_end then too_short sig
    else
      ver <- rd16 fragment pay ;;
      let sig := v3_request_version sig ver record_version in
      let pay := pay + 2 in
      time <- rd32 fragment pay ;;
      let sig := v3_remote_time sig time local_time in
      let pay := pay + 4 in
      (* Random: 28 bytes, only looked at for a diagnostic *)
      let pay := pay + 28 in
      (* Skip session_id *)
      session_id_len <- rd fragment pay ;;
      let pay := pay + 1 in
      if pay + session_id_len + 2 >? pay_end then too_short sig
      else
        let pay := pay + session_id_len in
        (* Cipher suites *)
        cipher_suites_len <- rd16 fragment pay ;;
        let pay := pay + 2 in
        if negb (cipher_suites_len mod 2 =? 0) then Done (-1, sig)
        else if pay + cipher_suites_len >? pay_end then too_short sig
        else
          let tmp_end := pay + cipher_suites_len in
          '(cs, pay) <- v3_cipher_loop (Z.to_nat cipher_suites_len)
                                       fragment pay tmp_end [] ;;
          let sig := set_cipher_suites sig (Some (cs ++ [END_MARKER])) in
          v3_compression_extensions sig fragment pay pay_end.

(** *** The extension list as a list of bytes

    The reference against which the extension loop is compared: the same
    walk, told on the bytes of the message instead of on offsets. *)

(** The bytes of [buf] at the offsets [a], ..., [b - 1]. *)
Definition window (buf : list byte) (a b : Z) : list byte :=
  firstn (Z.to_nat (b - a)) (skipn (Z.to_nat a) buf).

Definition be16 (b1 b0 : byte) : Z := Z.lor (Z.shiftl (u8_of b1) 8) (u8_of b0).

(** The types of the entries of an extension list [region]: every entry
    whose four header bytes lie in the region, up to and including the first
    one whose payload runs over its end. *)
Fixpoint ext_types (fuel : nat) (region : list byte) : list Z :=
  match fuel with
  | O => []
  | S fuel' =>
      match region with
      | t1 :: t0 :: l1 :: l0 :: payload =>
          be16 t1 t0
          :: (if be16 l1 l0 <=? Z.of_nat (length payload)
              then ext_types fuel' (skipn (Z.to_nat (be16 l1 l0)) payload)
              else [])
      | _ => []
      end
  end.

Definition extension_types (region : list byte) : list Z :=
  ext_types (length region) region.

(** [rest] is what the message holds after the compression methods: the
    2-byte length of the extension list and the list.  The types the
    dissector reads: those of the declared list, and none when the declared
    list does not lie within the message. *)
Definition types_collected (rest : list byte) : list Z :=
  match rest with
  | l1 :: l0 :: body =>
      if be16 l1 l0 <=? Z.of_nat (length body)
      then extension_types (firstn (Z.to_nat (be16 l1 l0)) body)
      else []
  | _ => []
  end.

(** [tail] is what the message holds after the cipher suites: the
    compression methods, when they fit, and what follows them. *)
Definition skip_compression (tail : list byte) : option (list byte) :=
  match tail with
  | n :: methods =>
      if u8_of n <=? Z.of_nat (length methods)
      then Some (skipn (Z.to_nat (u8_of n)) methods)
      else None
  | [] => None
  end.

Definition extensions_collected (tail : list byte) : list Z :=
  match skip_compression tail with
  | Some rest => types_collected rest
  | None => []
  end.

(** A ClientHello fragment that is well-formed through the cipher-suite
    list: the buffer holds the fragment, the handshake message is a
    ClientHello that lies within the fragment, and the fixed part, the
    session id ([sid_len] bytes) and the cipher suites ([cs_len] bytes, an
    even number) lie within the message ([msg_len] bytes). *)
Record through_ciphers (fragment : list byte) (frag_len msg_len sid_len cs_len : Z)
  : Prop := {
  tc_buffer : frag_len <= Z.of_nat (length fragment);
  tc_msg_len : rd24 fragment 1 = Done msg_len;
  tc_msg_fits : 4 + msg_len <= frag_len;
  tc_hello : rd fragment 0 = Done SSL3_MSG_CLIENT_HELLO;
  tc_fixed : 35 <= msg_len;
  tc_sid_len : rd fragment 38 = Done sid_len;
  tc_sid_fits : 37 + sid_len <= msg_len;
  tc_cs_len : rd16 fragment (39 + sid_len) = Done cs_len;
  tc_cs_even : cs_len mod 2 = 0;
  tc_cs_fits : 37 + sid_len + cs_len <= msg_len
}.

(** ** dump_sig (fp_ssl.c:564) *)

Definition str (s : string) : text := list_ascii_of_string s.

Definition digit_char (d : Z) : ascii :=
  nth (Z.to_nat d) (str "0123456789abcdef") "0"%char.

(** The digits of [n] in [base], most significant first, in front of [acc];
    [fuel] bounds their number. *)
Fixpoint digits (base : Z) (fuel : nat) (n : Z) (acc : text) : text :=
  match fuel with
  | O => acc
  | S fuel' =>
      let acc' := digit_char (n mod base) :: acc in
      if n / base =? 0 then acc' else digits base fuel' (n / base) acc'
  end.

(** ["%x"] of a [u32]: at most 8 digits. *)
Definition sprintf_x (n : Z) : text := digits 16 8 n [].

(** ["%i"] of an [int]: at most 10 digits. *)
Definition sprintf_i (n : Z) : text :=
  if n <? 0 then "-"%char :: digits 10 10 (- n) [] else digits 10 10 n [].

(** [(i ? "," : "")] *)
Definition comma (i : Z) : text := if negb (i =? 0) then str "," else [].

(** [for (i=0; sig->cipher_suites[i] != END_MARKER; i++)], from index [i]. *)
Fixpoint dump_ciphers (p : list Z) (i : Z) : text :=
  match p with
  | [] => []
  | c :: p' =>
      if c =? END_MARKER then []
      else
        (if negb (c =? MATCH_ANY)
         then comma i
              ++ (if negb (Z.land c MATCH_MAYBE =? 0) then str "?" else [])
              ++ sprintf_x (Z.land c (Z.lnot MATCH_MAYBE))
         else comma i ++ str "*")
        ++ dump_ciphers p' (i + 1)
  end.

(** [for (i=0; sig->extensions[i] != END_MARKER; i++)], from index [i]. *)
Fixpoint dump_extensions (p : list Z) (i : Z) : text :=
  match p with
  | [] => []
  | ext :: p' =>
      if ext =? END_MARKER then []
      else
        (if negb (ext =? MATCH_ANY)
         then comma i
              ++ (if negb (Z.land ext MATCH_MAYBE =? 0) || (ext =? 0)
                  then str "?" else [])
              ++ sprintf_x (Z.land ext (Z.lnot MATCH_MAYBE))
         else comma i ++ str "*")
        ++ dump_extensions p' (i + 1)
  end.

(** The table [flags[]] (fp_ssl.c:43): name, name_len, value. *)
Definition flag_table : list (text * Z * Z) :=
  [ (str "compr", 4, SSL_FLAG_COMPR);
    (str "v2", 2, SSL_FLAG_V2);
    (str "ver", 3, SSL_FLAG_VER);
    (str "time", 4, SSL_FLAG_TIME);
    (str "stime", 5, SSL_FLAG_STIME) ].

Fixpoint dump_flags (tbl : list (text * Z * Z)) (fl : Z) (had_prev : bool) : text :=
  match tbl with
  | [] => []
  | (name, _, value) :: tbl' =>
      if negb (Z.land fl value =? 0)
      then (if had_prev then str "," else []) ++ name ++ dump_flags tbl' fl true
      else dump_flags tbl' fl had_prev
  end.

Definition dump_sig (sig : ssl_sig) : outcome text :=
  let ret := sprintf_i (Z.shiftr (request_version sig) 8) ++ str "."
             ++ sprintf_i (Z.land (request_version sig) 0xFF) ++ str ":" in
  cs <- array (cipher_suites sig) ;;
  let ret := ret ++ dump_ciphers cs 0 in
  let ret := ret ++ str ":" in
  es <- array (extensions sig) ;;
  let ret := ret ++ dump_extensions es 0 in
  let ret := ret ++ str ":" in
  Done (ret ++ dump_flags flag_table (flags sig) false).

(** ** decode_hex_string (fp_ssl.c:64) *)

(** [*val]: the end of the list is the terminating NUL. *)
Definition peek (val : text) : ascii := hd zero val.

Definition code (c : ascii) : Z := Z.of_nat (nat_of_ascii c).

(** The C library's [isspace] and the value of a character as a digit. *)
Definition c_isspace (c : ascii) : bool :=
  (code c =? 32) || ((9 <=? code c) && (code c <=? 13)).

Definition digit_val (c : ascii) : option Z :=
  if (48 <=? code c) && (code c <=? 57) then Some (code c - 48)
  else if (97 <=? code c) && (code c <=? 122) then Some (code c - 87)
  else if (65 <=? code c) && (code c <=? 90) then Some (code c - 55)
  else None.

Definition is_digit_in (base : Z) (c : ascii) : bool :=
  match digit_val c with
  | Some d => d <? base
  | None => false
  end.

Fixpoint skip_space (s : text) : text :=
  match s with
  | c :: s' => if c_isspace c then skip_space s' else s
  | [] => []
  end.

(** The longest run of digits of [base] at the front of [s], accumulated
    onto [acc]; the rest of the string. *)
Fixpoint strtol_digits (base : Z) (s : text) (acc : Z) : Z * text :=
  match s with
  | c :: s' =>
      match digit_val c with
      | Some d => if d <? base then strtol_digits base s' (acc * base + d)
                  else (acc, s)
      | None => (acc, s)
      end
  | [] => (acc, [])
  end.

Definition LONG_MAX : Z := 2 ^ 63 - 1.
Definition LONG_MIN : Z := - 2 ^ 63.

(** The C library's [strtol(nptr, &endptr, base)] for base 10 or 16, with a
    64-bit [long]: white space, a sign, for base 16 an optional [0x], then
    digits; the value saturates; without digits the result is 0 and [endptr]
    is [nptr]. *)
Definition strtol (nptr : text) (base : Z) : Z * text :=
  let s := skip_space nptr in
  let '(neg, s) :=
    match s with
    | c :: s' => if Ascii.eqb c "-" then (true, s')
                 else if Ascii.eqb c "+" then (false, s')
                 else (false, s)
    | [] => (false, s)
    end in
  let s :=
    match s with
    | z :: x :: d :: _ =>
        if (base =? 16) && Ascii.eqb z "0"
           && (Ascii.eqb x "x" || Ascii.eqb x "X") && is_digit_in 16 d
        then tl (tl s) else s
    | _ => s
    end in
  let '(acc, rest) := strtol_digits base s 0 in
  if Nat.eqb (length rest) (length s) then (0, nptr)
  else
    let v := if neg then - acc else acc in
    (Z.max LONG_MIN (Z.min LONG_MAX v), rest).

(** The cases ['a' ... 'f'] and ['0' ... '9'] of the first switch. *)
Definition is_value_start (c : ascii) : bool :=
  ((97 <=? code c) && (code c <=? 102)) || ((48 <=? code c) && (code c <=? 57)).

(** The numeric case of state 1: [strtol], the mask, the marking, and the
    check that the parser made progress. *)
Definition decode_number (optional : Z) (val : text) : option (Z * text) :=
  let prev_val := val in
  let '(n, val) := strtol val 16 in
  if Nat.eqb (length val) (length prev_val) then None
  else Some (Z.lor (Z.land n 0xFFFFFF) optional, val).

(** State 1: expecting a value.  [None] is [return NULL]. *)
Definition decode_value (val : text) : option (Z * text) :=
  if Ascii.eqb (peek val) "*" then Some (MATCH_ANY, tl val)
  else if Ascii.eqb (peek val) "?" then decode_number MATCH_MAYBE (tl val)
  else if is_value_start (peek val) then decode_number 0 val
  else None.

(** The loop [while (p < 128)]; [room] is [128 - p] and [rec] holds the
    [p] words decoded so far.  [Done None] is [return NULL]. *)
Fixpoint decode_loop (room : nat) (val : text) (rec : list Z)
  : outcome (option (list Z * text)) :=
  match room with
  | O => Abort Fatal  (* Too many ciphers or extensions *)
  | S room' =>
      match decode_value val with
      | None => Done None
      | Some (w, val) =>
          let rec := rec ++ [w] in
          (* State 2: comma, expecting NUL or ':' *)
          if Ascii.eqb (peek val) ":" || Ascii.eqb (peek val) zero
          then Done (Some (rec ++ [END_MARKER], val))
          else if Ascii.eqb (peek val) ","
          then decode_loop room' (tl val) rec
          else Done None
      end
  end.

(** The result is the array and the new value of [*val_ptr]; on [NULL],
    [*val_ptr] is not written. *)
Definition decode_hex_string (val : text) : outcome (option (list Z * text)) :=
  decode_loop 128 val [].

(** *** The token grammar

    The sequences of the database grammar, [token *("," token)] with
    [token = "*" / ["?"] 1*HEXDIG], against which the decoder is compared.
    The hex digits are those of [strtol]; a token without question mark
    starts with a digit or a lower-case letter, the characters the first
    switch of the decoder lets through. *)

Inductive spec_token : Type :=
| TokStar
| TokOptional (ds : text)
| TokValue (ds : text).

Definition is_xdigit (c : ascii) : bool := is_digit_in 16 c.

Definition token_ok (t : spec_token) : Prop :=
  match t with
  | TokStar => True
  | TokOptional ds => ds <> [] /\ Forall (fun c => is_xdigit c = true) ds
  | TokValue ds =>
      is_value_start (peek ds) = true /\ Forall (fun c => is_xdigit c = true) ds
  end.

(** The tokens of the grammar with hex digits of either case,
    ["*" / ["?"] 1*HEXDIG]: [token_ok] without the condition on the first
    character of a token that has no question mark. *)
Definition token_grammatical (t : spec_token) : Prop :=
  match t with
  | TokStar => True
  | TokOptional ds | TokValue ds =>
      ds <> [] /\ Forall (fun c => is_xdigit c = true) ds
  end.

Definition token_text (t : spec_token) : text :=
  match t with
  | TokStar => ["*"%char]
  | TokOptional ds => "?"%char :: ds
  | TokValue ds => ds
  end.

Fixpoint sequence_text (ts : list spec_token) : text :=
  match ts with
  | [] => []
  | [t] => token_text t
  | t :: ts' => token_text t ++ ","%char :: sequence_text ts'
  end.

(** The number a run of hex digits denotes, from the accumulator [acc]. *)
Fixpoint hex_value (ds : text) (acc : Z) : Z :=
  match ds with
  | [] => acc
  | c :: ds' =>
      hex_value ds' (acc * 16 + match digit_val c with
                                | Some d => d
                                | None => 0
                                end)
  end.

(** The word of a token: the value, saturated as a [long], masked to 24
    bits, with the marking. *)
Definition token_word (t : spec_token) : Z :=
  match t with
  | TokStar => MATCH_ANY
  | TokOptional ds =>
      Z.lor (Z.land (Z.min LONG_MAX (hex_value ds 0)) 0xFFFFFF) MATCH_MAYBE
  | TokValue ds => Z.land (Z.min LONG_MAX (hex_value ds 0)) 0xFFFFFF
  end.

(** What may follow a sequence: [':'] or the end of the string. *)
Definition terminated (rest : text) : Prop :=
  peek rest = ":"%char \/ peek rest = zero.

(** ** ssl_register_sig (fp_ssl.c:624) *)

(** [strncmp(val, name, n) == 0], for [n] within [name]. *)
Definition strncmp_eq (val name : text) (n : Z) : bool :=
  if list_eq_dec ascii_dec (firstn (Z.to_nat n) val) (firstn (Z.to_nat n) name)
  then true else false.

(** The inner [for] loop over the flag table: the value and length of the
    first flag whose name starts [val]. *)
Fixpoint find_flag (tbl : list (text * Z * Z)) (val : text) : option (Z * Z) :=
  match tbl with
  | [] => None
  | (name, name_len, value) :: tbl' =>
      if strncmp_eq val name name_len then Some (value, name_len)
      else find_flag tbl' val
  end.

(** [while ( *val )] over the flag names. *)
Fixpoint register_flags (fuel : nat) (val : text) (fl : Z) : outcome Z :=
  if Ascii.eqb (peek val) zero then Done fl
  else
    match fuel with
    | O => Abort FuelExhausted
    | S fuel' =>
        match find_flag flag_table val with
        | None => Abort Fatal  (* Unrecognized flag *)
        | Some (value, name_len) =>
            let fl := Z.lor fl value in
            let val := skipn (Z.to_nat name_len) val in
            let val := if Ascii.eqb (peek val) "," then tl val else val in
            register_flags fuel' val fl
        end
    end.

(** The table [signatures] is passed in and returned. *)
Definition ssl_register_sig (signatures : list ssl_sig_record)
    (to_srv generic sig_class sig_name : Z) (sig_flavor : option text)
    (label_id : Z) (sys : list Z) (sys_cnt : Z) (val : text) (line_no : Z)
  : outcome (list ssl_sig_record) :=
  (* Client signatures only. *)
  if negb (to_srv =? 1) then Done signatures
  else
    let ssig := zero_sig in
    let '(maj, val) := strtol val 10 in
    if negb (Ascii.eqb (peek val) ".") then Abort Fatal
    else
      let val := tl val in
      let '(min, val) := strtol val 10 in
      if negb (Ascii.eqb (peek val) ":") then Abort Fatal
      else
        let val := tl val in
        let ssig := set_request_version ssig
                      (Z.lor (Z.shiftl (to_s32 maj) 8) (to_s32 min) mod 2 ^ 16) in
        r <- decode_hex_string val ;;
        match r with
        | None => Abort Fatal
        | Some (cs, val) =>
            if negb (Ascii.eqb (peek val) ":") then Abort Fatal
            else
              let ssig := set_cipher_suites ssig (Some cs) in
              let val := tl val in
              r <- decode_hex_string val ;;
              match r with
              | None => Abort Fatal
              | Some (es, val) =>
                  if negb (Ascii.eqb (peek val) ":") then Abort Fatal
                  else
                    let ssig := set_extensions ssig (Some es) in
                    let val := tl val in
                    fl <- register_flags (length val) val (flags ssig) ;;
                    let ssig := set_flags ssig fl in
                    let srec := mk_ssl_sig_record sig_class sig_name sig_flavor
                                  label_id sys sys_cnt line_no generic ssig in
                    Done (signatures ++ [srec])
              end
        end.

(** The tables that calls of [ssl_register_sig] build from the empty one. *)
Inductive registered : list ssl_sig_record -> Prop :=
| registered_nil : registered []
| registered_sig : forall db db' to_srv generic sig_class sig_name sig_flavor
                          label_id sys sys_cnt val line_no,
    registered db ->
    ssl_register_sig db to_srv generic sig_class sig_name sig_flavor label_id
                     sys sys_cnt val line_no = Done db' ->
    registered db'.

(** ** fingerprint_ssl (fp_ssl.c:700) and process_ssl (fp_ssl.c:740) *)

(** Modelled from the spec: [struct packet_flow] is declared in process.h,
    which is not among the sources; these are the fields the code uses.
    [last_seen] is [f->client->last_seen]. *)
Record packet_flow : Type := mk_packet_flow {
  in_ssl : Z;
  req_len : Z;
  request : list byte;
  last_seen : Z
}.

Definition set_in_ssl (f : packet_flow) (v : Z) : packet_flow :=
  mk_packet_flow v (req_len f) (request f) (last_seen f).

(** What a call does that its caller can observe: the dissectors it invokes
    and the calls to the observation collaborator. *)
Inductive event : Type :=
| CallV2 (pay : list byte) (pay_len : Z)
| CallV3 (fragment : list byte) (frag_len record_version local_time : Z)
| StartObservation (keyword : text) (field_cnt : Z) (to_srv : Z)
| ObservationField (key : text) (value : option text).

Definition fingerprint_ssl (signatures : list ssl_sig_record)
    (fp_os_names : Z -> text) (to_srv : Z) (sig : ssl_sig)
  : outcome (list event) :=
  sig <- (if negb (to_srv =? 0) then ssl_find_match signatures sig
          else Done sig) ;;
  let start := StartObservation (str "ssl request") 4 to_srv in
  fields <-
    match matched sig with
    | Some i =>
        match nth_error signatures i with
        | None => Abort OutOfBounds
        | Some m =>
            match_sig <- dump_sig (rec_sig m) ;;
            Done [ ObservationField
                     (if class_id m <? 0 then str "app" else str "os")
                     (Some (fp_os_names (name_id m)
                            ++ match flavor m with
                               | Some _ => str " "
                               | None => []
                               end
                            ++ match flavor m with
                               | Some fl => fl
                               | None => []
                               end));
                   ObservationField (str "match_sig") (Some match_sig) ]
        end
    | None =>
        Done [ ObservationField (str "app") None;
               ObservationField (str "match_sig") None ]
    end ;;
  let drift_field :=
    if Z.land (flags sig) (Z.lor SSL_FLAG_TIME SSL_FLAG_STIME) =? 0
    then ObservationField (str "drift") (Some (sprintf_i (c_abs (drift sig))))
    else ObservationField (str "drift") None in
  raw_sig <- dump_sig sig ;;
  Done (start :: fields
        ++ [drift_field; ObservationField (str "raw_sig") (Some raw_sig)]).

(** Lazy [&&] and [||] over tests that read the buffer. *)
Definition mand (a b : outcome bool) : outcome bool :=
  x <- a ;; if x then b else Done false.
Definition mor (a b : outcome bool) : outcome bool :=
  x <- a ;; if x then Done true else b.
Definition test (m : outcome Z) (p : Z -> bool) : outcome bool :=
  x <- m ;; Done (p x).

(** Modelled from the spec: the packed [struct ssl3_record_hdr] of fp_ssl.h
    ("SSLv3 record is 5 bytes"): content_type, ver_maj, ver_min, length. *)
Definition sizeof_ssl3_record_hdr : Z := 5.
Definition ssl3_content_type : Z := 0.
Definition ssl3_ver_maj : Z := 1.
Definition ssl3_ver_min : Z := 2.
Definition ssl3_rec_length : Z := 3.

(** The end of [process_ssl], from [if (success != 1)] on. *)
Definition process_result (signatures : list ssl_sig_record)
    (fp_os_names : Z -> text) (to_srv : Z) (f : packet_flow)
    (success : Z) (sig : ssl_sig) (calls : list event)
  : outcome (Z * packet_flow * list event) :=
  if negb (success =? 1) then Done (0, set_in_ssl f (-1), calls)
  else
    let f := set_in_ssl f 1 in
    evs <- fingerprint_ssl signatures fp_os_names to_srv sig ;;
    Done (0, f, calls ++ evs).

(** The result is the return value, the flow and the events of the call. *)
Definition process_ssl (signatures : list ssl_sig_record)
    (fp_os_names : Z -> text) (to_srv : Z) (f : packet_flow)
  : outcome (Z * packet_flow * list event) :=
  (* Already decided this flow? *)
  if negb (in_ssl f =? 0) then Done (0, f, [])
  (* Tracking requests only. *)
  else if to_srv =? 0 then Done (0, f, [])
  else
    let can_get_more := if req_len f <? MAX_FLOW_DATA then 1 else 0 in
    if req_len f <? 6 then Done (can_get_more, f, [])
    else
      let hdr := request f in
      msg_length <- rd16 hdr ssl2_msg_length ;;
      fragment_len <- rd16 hdr ssl3_rec_length ;;
      is_v2 <-
        mand (Done (negb (Z.land msg_length 0x8000 =? 0)))
       (mand (Done (Z.land msg_length (Z.lnot 0x8000) >=? sizeof_ssl2_hdr - 2))
       (mand (test (rd hdr ssl2_msg_type) (fun t => t =? 1))
             (mor (mand (test (rd hdr ssl2_ver_maj) (fun v => v =? 3))
                        (test (rd hdr ssl2_ver_min) (fun v => v <? 4)))
                  (mand (test (rd hdr ssl2_ver_min) (fun v => v =? 2))
                        (test (rd hdr ssl2_ver_maj) (fun v => v =? 0)))))) ;;
      if is_v2 then
        (* Clear top bit. *)
        let msg_length := Z.land msg_length (Z.lnot 0x8000) in
        if req_len f <? 2 + msg_length then Done (can_get_more, f, [])
        else
          let sig := zero_sig in
          let sig := set_flags sig (Z.lor (flags sig) SSL_FLAG_V2) in
          '(success, sig) <- fingerprint_ssl_v2 sig (request f) (msg_length + 2) ;;
          process_result signatures fp_os_names to_srv f success sig
                         [CallV2 (request f) (msg_length + 2)]
      else
        is_v3 <-
          mand (test (rd hdr ssl3_content_type) (fun t => t =? SSL3_REC_HANDSHAKE))
         (mand (test (rd hdr ssl3_ver_maj) (fun v => v =? 3))
         (mand (test (rd hdr ssl3_ver_min) (fun v => v <? 4))
         (mand (Done (fragment_len >? 3))
         (mand (Done (fragment_len <? Z.shiftl 1 14))
               (test (rd hdr 5) (fun t => t =? SSL3_MSG_CLIENT_HELLO)))))) ;;
        if is_v3 then
          if req_len f <? sizeof_ssl3_record_hdr + fragment_len
          then Done (can_get_more, f, [])
          else
            let sig := zero_sig in
            ver_maj <- rd hdr ssl3_ver_maj ;;
            ver_min <- rd hdr ssl3_ver_min ;;
            let record_version := Z.lor (Z.shiftl ver_maj 8) ver_min in
            let fragment := skipn (Z.to_nat sizeof_ssl3_record_hdr) (request f) in
            '(success, sig) <- fingerprint_ssl_v3 sig fragment fragment_len
                                 record_version (last_seen f) ;;
            process_result signatures fp_os_names to_srv f success sig
                           [CallV3 fragment fragment_len record_version
                                   (last_seen f)]
        else
          process_result signatures fp_os_names to_srv f 0 zero_sig [].

(** ** Predicates of the statements *)

(** Both arrays of a signature are allocated. *)
Definition arrays_set (s : ssl_sig) : Prop :=
  cipher_suites s <> None /\ extensions s <> None.

(** The four conditions of a candidate, as the spec lists them: the version
    and the flags are equal, the extensions and the cipher suites
    pattern-match. *)
Definition pattern_match (rec sig : option (list Z)) : bool :=
  match rec, sig with
  | Some r, Some s => match_sigs r s =? 0
  | _, _ => false
  end.

Definition candidate (rs ts : ssl_sig) : bool :=
  (request_version rs =? request_version ts)
  && (flags rs =? flags ts)
  && pattern_match (extensions rs) (extensions ts)
  && pattern_match (cipher_suites rs) (cipher_suites ts).

Definition is_u16 (v : Z) : Prop := 0 <= v < 2 ^ 16.

(** A word that is a 24-bit value and that the matcher and the renderer
    read as [Exact]. *)
Definition exact_word (w : Z) : Prop :=
  is_value w /\ classify w = Some (Exact w).

(** The events of the observation collaborator. *)
Definition is_observation (e : event) : Prop :=
  match e with
  | StartObservation _ _ _ | ObservationField _ _ => True
  | CallV2 _ _ | CallV3 _ _ _ _ => False
  end.


(** What may follow a token. *)
Definition boundary (r : text) : Prop :=
  peek r = ","%char \/ peek r = ":"%char \/ peek r = zero.

End WithConsts.

(** ** Inputs of the closed examples *)

(** The 17 bytes of the spec's SSLv2 literal case:
    80 2F 01 00 02 00 00 00 00 00 06 01 00 80 07 00 C0. *)
Definition sslv2_literal : list byte :=
  [x80; x2f; x01; x00; x02; x00; x00; x00; x00; x00; x06;
   x01; x00; x80; x07; x00; xc0].

(** An SSLv2 ClientHello for version 3.1 with the two cipher specs 010080
    and 0700c0 and a challenge of 16 bytes. *)
Definition sslv2_hello : list byte :=
  [x80; x1f; x01; x03; x01; x00; x06; x00; x00; x00; x10;
   x01; x00; x80; x07; x00; xc0] ++ repeat x2a 16.

(** A ClientHello fragment: handshake header 01 00 00 2f; version 03 01;
    time 50 00 00 00; 28 random bytes; session id length 0; cipher suites
    00 02 / 00 2f; compression 01 / 00; extension list length 00 04; one
    entry 00 0a 00 00 (type 10, empty payload). *)
Definition hello_whole : list byte :=
  [x01; x00; x00; x2f; x03; x01; x50; x00; x00; x00]
  ++ repeat x2a 28
  ++ [x00; x00; x02; x00; x2f; x01; x00; x00; x04; x00; x0a; x00; x00].

(** The same ClientHello with its extension list declared as 8 bytes, while
    the message ends after the first entry. *)
Definition hello_cut : list byte :=
  [x01; x00; x00; x2f; x03; x01; x50; x00; x00; x00]
  ++ repeat x2a 28
  ++ [x00; x00; x02; x00; x2f; x01; x00; x00; x08; x00; x0a; x00; x00].


(** A ClientHello whose extension list, declared and present as 8 bytes,
    holds the entry 00 0d 00 00 (type 13, empty payload) and then the entry
    00 0a 00 05 (type 10), whose 5 payload bytes are missing: the list and
    the message end after its header. *)
Definition hello_overrun : list byte :=
  [x01; x00; x00; x33; x03; x01; x50; x00; x00; x00]
  ++ repeat x2a 28
  ++ [x00; x00; x02; x00; x2f; x01; x00; x00; x08;
      x00; x0d; x00; x00; x00; x0a; x00; x05].

(** A TLS record that carries [hello_whole]. *)
Definition tls_record : list byte := [x16; x03; x01; x00; x33] ++ hello_whole.

(** An observed signature: version 3.1, cipher 2f, extension a. *)
Definition observed_example : ssl_sig :=
  mk_ssl_sig 0x0301 0 0 (Some [0x2f; 0x40000000]) (Some [10; 0x40000000]) 0 None.

(** A table of two records that both match [observed_example]: the
    signatures 3.1:2f:*: and 3.1:*:*: in this order. *)
Definition table_example : list ssl_sig_record :=
  [ mk_ssl_sig_record 1 2 None 3 [] 0 7 0
      (mk_ssl_sig 0x0301 0 0 (Some [0x2f; 0x40000000])
                  (Some [0x20000000; 0x40000000]) 0 None);
    mk_ssl_sig_record 1 4 None 5 [] 0 8 1
      (mk_ssl_sig 0x0301 0 0 (Some [0x20000000; 0x40000000])
                  (Some [0x20000000; 0x40000000]) 0 None) ].


(** ** Reference tokens and their text *)

(** The tokens whose words fit the 24 value bits. *)
Definition token_valid (t : token) : Prop :=
  match t with
  | Exact v | Optional v => is_value v
  | Wildcard => True
  end.

(** The token of the grammar that [dump_sig] writes for a cipher word. *)
Definition rendered_token (t : token) : spec_token :=
  match t with
  | Exact v => TokValue (sprintf_x v)
  | Wildcard => TokStar
  | Optional v => TokOptional (sprintf_x v)
  end.

(** What the text that [dump_sig] writes for an extension word reads as:
    the value 0 is written with the question mark. *)
Definition reread_extension (t : token) : token :=
  match t with
  | Exact v => if v =? 0 then Optional 0 else Exact v
  | _ => t
  end.


(** ** The flag names read back *)

Section FlagNames.
Context {K : ssl_consts}.

(** The flags that the names [dump_sig] writes for [fl] stand for, the first
    entry of the table apart, added to [fl0]. *)
Definition reread_flags (fl0 fl : Z) : Z :=
  fold_left (fun acc entry =>
               if negb (Z.land fl (snd entry) =? 0) then Z.lor acc (snd entry)
               else acc)
            (tl flag_table) fl0.

End FlagNames.


(** ** The cipher lists as lists of bytes *)

Definition be24 (b2 b1 b0 : byte) : Z :=
  Z.lor (Z.lor (Z.shiftl (u8_of b2) 16) (Z.shiftl (u8_of b1) 8)) (u8_of b0).

(** The 3-byte big-endian groups of an SSLv2 cipher-spec region. *)
Fixpoint triples (region : list byte) : list Z :=
  match region with
  | b2 :: b1 :: b0 :: region' => be24 b2 b1 b0 :: triples region'
  | _ => []
  end.

(** The 2-byte big-endian groups of an SSLv3 cipher-suite region. *)
Fixpoint pairs (region : list byte) : list Z :=
  match region with
  | b1 :: b0 :: region' => be16 b1 b0 :: pairs region'
  | _ => []
  end.



(** The first six bytes of an HTTP request, [GET / ]. *)
Definition http_request : list byte := [x47; x45; x54; x20; x2f; x20].


(** ** The compression methods as a list of bytes *)

(** [tail] is what the message holds after the cipher suites.  Whether a
    list of compression methods that lies within the message offers the
    method 1. *)
Definition deflate_offered (tail : list byte) : bool :=
  match tail with
  | n :: methods =>
      (u8_of n <=? Z.of_nat (length methods))
      && existsb (fun m => u8_of m =? 1) (firstn (Z.to_nat (u8_of n)) methods)
  | [] => false
  end.




(** ** Reference signatures *)

Section ReferenceSignatures.
Context {K : ssl_consts}.

(** An array of 1 to 128 reference tokens and the terminator. *)
Definition reference_array (a : option (list Z)) : Prop :=
  exists ts,
    a = Some (map encode_token ts ++ [END_MARKER])
    /\ Forall token_valid ts /\ ts <> [] /\ (length ts <= 128)%nat.

(** A signature as a line of the database describes it. *)
Definition reference_signature (s : ssl_sig) : Prop :=
  0 <= request_version s < 2 ^ 16
  /\ reference_array (cipher_suites s)
  /\ reference_array (extensions s)
  /\ remote_time s = 0 /\ drift s = 0 /\ matched s = None.

End ReferenceSignatures.


(** * Properties *)

(** ** Facts about the sentinels *)

Section SentinelFacts.
Context {K : ssl_consts} (HK : consts_ok K).

Lemma maybe_pos : 2 ^ 24 <= MATCH_MAYBE < 2 ^ 32.
Proof.
  destruct (maybe_bit K HK) as (k & Hk & ->). split.
  - apply Z.pow_le_mono_r; lia.
  - apply Z.pow_lt_mono_r; lia.
Qed.

Lemma value_no_maybe v : is_value v -> Z.land v MATCH_MAYBE = 0.
Proof.
  intros [Hlo Hhi]. destruct (maybe_bit K HK) as (k & Hk & ->).
  apply Z.bits_inj'. intros n Hn.
  rewrite Z.land_spec, Z.bits_0, Z.pow2_bits_eqb by lia.
  destruct (Z.eqb_spec k n) as [<- | Hne]; [| apply andb_false_r].
  rewrite andb_true_r.
  destruct (Z.eq_dec v 0) as [-> | Hv0]; [apply Z.bits_0 |].
  apply Z.bits_above_log2; [lia |].
  assert (Z.log2 v < 24) by (apply Z.log2_lt_pow2; lia). lia.
Qed.

Lemma unmask_plain w : Z.land w MATCH_MAYBE = 0 -> Z.land w (Z.lnot MATCH_MAYBE) = w.
Proof.
  intros H. rewrite <- Z.ldiff_land.
  rewrite <- (Z.lor_ldiff_and w MATCH_MAYBE) at 2.
  rewrite H, Z.lor_0_r. reflexivity.
Qed.

Lemma unmask_value v : is_value v -> Z.land v (Z.lnot MATCH_MAYBE) = v.
Proof. intros H. apply unmask_plain, value_no_maybe, H. Qed.

Lemma unmask_optional v :
  is_value v -> Z.land (Z.lor v MATCH_MAYBE) (Z.lnot MATCH_MAYBE) = v.
Proof.
  intros H. rewrite <- Z.ldiff_land.
  apply Z.bits_inj'. intros n Hn.
  rewrite Z.ldiff_spec, Z.lor_spec.
  pose proof (value_no_maybe v H) as Hv.
  apply (f_equal (fun z => Z.testbit z n)) in Hv.
  rewrite Z.land_spec, Z.bits_0 in Hv.
  destruct (Z.testbit v n), (Z.testbit MATCH_MAYBE n); simpl in *; congruence.
Qed.

Lemma optional_maybe v : Z.land (Z.lor v MATCH_MAYBE) MATCH_MAYBE = MATCH_MAYBE.
Proof.
  apply Z.bits_inj'. intros n Hn.
  rewrite Z.land_spec, Z.lor_spec.
  destruct (Z.testbit v n), (Z.testbit MATCH_MAYBE n); reflexivity.
Qed.

Lemma optional_marked v : Z.land (Z.lor v MATCH_MAYBE) MATCH_MAYBE <> 0.
Proof. rewrite optional_maybe. pose proof maybe_pos. lia. Qed.

Lemma optional_not_any v : Z.lor v MATCH_MAYBE <> MATCH_ANY.
Proof.
  intros E. apply (optional_marked v). rewrite E. apply (any_plain K HK).
Qed.

Lemma optional_not_end v : Z.lor v MATCH_MAYBE <> END_MARKER.
Proof.
  intros E. apply (optional_marked v). rewrite E. apply (end_plain K HK).
Qed.

Lemma optional_not_value v w : is_value w -> Z.lor v MATCH_MAYBE <> w.
Proof.
  intros Hw E. apply (optional_marked v). rewrite E. apply value_no_maybe, Hw.
Qed.

Lemma value_not_any v : is_value v -> v <> MATCH_ANY.
Proof. intros [? ?]. pose proof (any_range K HK). lia. Qed.

Lemma value_not_end v : is_value v -> v <> END_MARKER.
Proof. intros [? ?]. pose proof (end_range K HK). lia. Qed.

Lemma unmask_any : Z.land MATCH_ANY (Z.lnot MATCH_MAYBE) = MATCH_ANY.
Proof. apply unmask_plain, (any_plain K HK). Qed.

Lemma classify_value v : is_value v -> classify v = Some (Exact v).
Proof.
  intros H. unfold classify.
  destruct (Z.eqb_spec v END_MARKER) as [E | _]; [now apply value_not_end in E |].
  destruct (Z.eqb_spec v MATCH_ANY) as [E | _]; [now apply value_not_any in E |].
  rewrite (value_no_maybe v H). reflexivity.
Qed.

End SentinelFacts.

Lemma p0f_consts_ok : consts_ok p0f_consts.
Proof.
  constructor; simpl; try lia; try reflexivity.
  exists 28. split; [lia | reflexivity].
Qed.

(** ** The pattern matcher *)

Section Matcher.
Context {K : ssl_consts} (HK : consts_ok K).

Ltac sentinel_ranges :=
  pose proof (any_range K HK); pose proof (end_range K HK);
  pose proof (any_not_end K HK); pose proof (maybe_pos HK).

Ltac unmask :=
  repeat first
    [ rewrite (unmask_any HK)
    | rewrite (unmask_optional HK) by (unfold is_value in *; lia)
    | rewrite (unmask_value HK) by (unfold is_value in *; lia)
    | rewrite optional_maybe
    | rewrite (value_no_maybe HK) by (unfold is_value in *; lia)
    | rewrite (any_plain K HK)
    | rewrite (end_plain K HK) ].

Ltac test_eqb :=
  match goal with
  | |- context [?a =? ?b] =>
      first [ rewrite (proj2 (Z.eqb_eq a b)) by (unfold is_value in *; lia)
            | rewrite (proj2 (Z.eqb_neq a b))
                by first [ unfold is_value in *; lia
                         | apply (optional_not_end HK)
                         | apply (optional_not_any HK)
                         | apply (optional_not_value HK); unfold is_value in *; lia ] ]
  end.

Ltac run_matcher :=
  sentinel_ranges;
  repeat (try unfold match_finish;
          cbn [match_loop roll look_forward seek_exact deref hd tl
               orb andb negb];
          unmask; try test_eqb).

(** With the cursor on the terminator of [sig], the loop is over. *)
Lemma match_loop_at_end rec sig match_any :
  deref sig = END_MARKER ->
  match_loop rec sig match_any = match_finish rec sig match_any.
Proof.
  intros E. destruct rec as [| r rec]; [reflexivity |].
  cbn [match_loop]. rewrite E, Z.eqb_refl, orb_true_r. reflexivity.
Qed.

(** The final roll skips an optional token. *)
Lemma match_finish_optional v rec sig match_any :
  match_finish (Z.lor v MATCH_MAYBE :: rec) sig match_any
  = match_finish rec sig match_any.
Proof.
  unfold match_finish. cbn [roll]. rewrite optional_maybe.
  pose proof (maybe_pos HK).
  rewrite (proj2 (Z.eqb_neq MATCH_MAYBE 0)) by lia. reflexivity.
Qed.

(** An optional token met without an active wildcard is skipped when the
    current observed value is another one. *)
Lemma optional_skipped v rec sig :
  is_value v -> deref sig <> v ->
  match_loop (Z.lor v MATCH_MAYBE :: rec) sig false = match_loop rec sig false.
Proof.
  intros Hv Hne.
  destruct (Z.eq_dec (deref sig) END_MARKER) as [E | E].
  - rewrite !match_loop_at_end by exact E. apply match_finish_optional.
  - cbn [match_loop].
    rewrite (proj2 (Z.eqb_neq _ _) (optional_not_end HK v)).
    rewrite (proj2 (Z.eqb_neq _ _) E). cbn [orb].
    rewrite (unmask_optional HK v Hv).
    rewrite (proj2 (Z.eqb_neq v (deref sig))) by congruence.
    rewrite (proj2 (Z.eqb_neq _ _) (optional_not_any HK v)).
    rewrite optional_maybe. pose proof (maybe_pos HK).
    rewrite (proj2 (Z.eqb_neq MATCH_MAYBE 0)) by lia. reflexivity.
Qed.

(** An optional token consumes the current observed value when it is its
    own (rule 1 strips the marking before it compares). *)
Lemma optional_consumes v rec sig :
  is_value v ->
  match_loop (Z.lor v MATCH_MAYBE :: rec) (v :: sig) false
  = match_loop rec sig false.
Proof.
  intros Hv. cbn [match_loop deref hd tl].
  rewrite (proj2 (Z.eqb_neq _ _) (optional_not_end HK v)).
  rewrite (proj2 (Z.eqb_neq _ _) (value_not_end HK v Hv)). cbn [orb].
  rewrite (unmask_optional HK v Hv), Z.eqb_refl. reflexivity.
Qed.

(** C1 (amended): the matcher applied to the reference [1,*,2] and the
    observed [1,2,3,2] returns 1, no match.  Rule 1 consumes the 2 that
    follows the 1 and clears the wildcard; the reference is then exhausted
    with 3,2 left over and no wildcard active. *)
Theorem greedy_example_fails :
  match_sigs [1; MATCH_ANY; 2; END_MARKER] [1; 2; 3; 2; END_MARKER] = 1.
Proof.
  unfold match_sigs. run_matcher. reflexivity.
Qed.

(** C2 (amended): at an optional token [?v] with no wildcard active, the
    token is skipped without consuming input when the current observed value
    is not [v], and consumes the observed value when it is [v]; so the
    reference [?v,v] does not match the observed [v], for every 24-bit [v]. *)
Theorem optional_without_wildcard v :
  is_value v ->
  (forall rec sig, deref sig <> v ->
     match_loop (Z.lor v MATCH_MAYBE :: rec) sig false
     = match_loop rec sig false)
  /\ (forall rec sig,
        match_loop (Z.lor v MATCH_MAYBE :: rec) (v :: sig) false
        = match_loop rec sig false)
  /\ match_sigs [Z.lor v MATCH_MAYBE; v; END_MARKER] [v; END_MARKER] = 1.
Proof.
  intros Hv. split; [| split].
  - intros rec sig Hne. apply optional_skipped; assumption.
  - intros rec sig. apply optional_consumes; assumption.
  - unfold match_sigs. rewrite optional_consumes by assumption.
    run_matcher. reflexivity.
Qed.

End Matcher.

(** C1, witness: the statement at the constants [p0f_consts]. *)
Lemma greedy_example_fails_witness :
  @match_sigs p0f_consts [1; 0x20000000; 2; 0x40000000]
                         [1; 2; 3; 2; 0x40000000] = 1.
Proof. exact (@greedy_example_fails p0f_consts p0f_consts_ok). Defined.

(** C1, counterexample: on the reference [1,*,2] and the observed [1,2,3,2]
    the matcher does not answer 0, which is its answer for a match. *)
Lemma greedy_example_no_match :
  @match_sigs p0f_consts
     [encode_token (K:=p0f_consts) (Exact 1); encode_token (K:=p0f_consts) Wildcard;
      encode_token (K:=p0f_consts) (Exact 2); @END_MARKER p0f_consts]
     [1; 2; 3; 2; @END_MARKER p0f_consts] <> 0.
Proof. vm_compute. discriminate. Qed.

(** C2, witness: the statement for [v = 5]. *)
Lemma optional_without_wildcard_witness :
  is_value 5 /\
  @match_sigs p0f_consts [0x10000005; 5; 0x40000000] [5; 0x40000000] = 1.
Proof.
  assert (H5 : is_value 5) by (unfold is_value; lia).
  split; [exact H5 |].
  exact (proj2 (proj2 (@optional_without_wildcard p0f_consts p0f_consts_ok 5 H5))).
Defined.

(** C2, counterexample: for [v = 5] the reference [?5,5] against the
    observed [5] is no match. *)
Lemma optional_then_exact_no_match :
  @match_sigs p0f_consts
     [encode_token (K:=p0f_consts) (Optional 5);
      encode_token (K:=p0f_consts) (Exact 5); @END_MARKER p0f_consts]
     [5; @END_MARKER p0f_consts] <> 0.
Proof. vm_compute. discriminate. Qed.

(** ** The outcome monad *)

Lemma bind_done {A B : Type} (m : outcome A) (k : A -> outcome B) (b : B) :
  bind m k = Done b -> exists a, m = Done a /\ k a = Done b.
Proof.
  destruct m as [a | e]; simpl; intros H; [| discriminate].
  exists a. split; [reflexivity | exact H].
Qed.

Lemma Done_inj {A : Type} (a b : A) : Done a = Done b -> a = b.
Proof. congruence. Qed.

Lemma bind_abort {A B : Type} (m : outcome A) (k : A -> outcome B) (e : abort) :
  bind m k = Abort e ->
  m = Abort e \/ exists a, m = Done a /\ k a = Abort e.
Proof.
  destruct m as [a | e']; simpl; intros H.
  - right. exists a. split; [reflexivity | exact H].
  - left. injection H as ->. reflexivity.
Qed.

(** ** The signature table *)

Section Database.
Context {K : ssl_consts}.

(** A registration leaves the table alone or appends one record whose two
    arrays are allocated. *)
Lemma ssl_register_sig_appends db db' to_srv generic sig_class sig_name
      sig_flavor label_id sys sys_cnt val line_no :
  ssl_register_sig db to_srv generic sig_class sig_name sig_flavor label_id
                   sys sys_cnt val line_no = Done db' ->
  db' = db \/ exists srec, db' = db ++ [srec] /\ arrays_set (rec_sig srec).
Proof.
  unfold ssl_register_sig. intros H.
  destruct (negb (to_srv =? 1)); [left; congruence |].
  destruct (strtol val 10) as [maj val1].
  destruct (negb (Ascii.eqb (peek val1) ".")); [discriminate |].
  destruct (strtol (tl val1) 10) as [min val2].
  destruct (negb (Ascii.eqb (peek val2) ":")); [discriminate |].
  apply bind_done in H. destruct H as (r1 & _ & H).
  destruct r1 as [[cs val3] |]; [| discriminate].
  destruct (negb (Ascii.eqb (peek val3) ":")); [discriminate |].
  apply bind_done in H. destruct H as (r2 & _ & H).
  destruct r2 as [[es val4] |]; [| discriminate].
  destruct (negb (Ascii.eqb (peek val4) ":")); [discriminate |].
  apply bind_done in H. destruct H as (fl & _ & H).
  right. injection H as <-. eexists. split; [reflexivity |].
  split; simpl; discriminate.
Qed.

Lemma registered_arrays db :
  registered db -> Forall (fun r => arrays_set (rec_sig r)) db.
Proof.
  induction 1 as [| db db' ? ? ? ? ? ? ? ? ? ? _ IH Hreg]; [constructor |].
  apply ssl_register_sig_appends in Hreg.
  destruct Hreg as [-> | (srec & -> & Hs)]; [exact IH |].
  apply Forall_app. split; [exact IH | constructor; [exact Hs | constructor]].
Qed.

Lemma find_loop_skip ref todo i ts :
  arrays_set (rec_sig ref) -> arrays_set ts ->
  candidate (rec_sig ref) ts = false ->
  find_loop (ref :: todo) i ts = find_loop todo (S i) ts.
Proof.
  intros [Hrc Hre] [Htc Hte] Hc. unfold candidate in Hc. cbn [find_loop].
  destruct (extensions (rec_sig ref)) as [re |]; [| congruence].
  destruct (cipher_suites (rec_sig ref)) as [rc |]; [| congruence].
  destruct (extensions ts) as [te |]; [| congruence].
  destruct (cipher_suites ts) as [tc |]; [| congruence].
  cbn [pattern_match] in Hc. cbn [array bind].
  rewrite (Z.eqb_sym (flags ts)).
  destruct (request_version (rec_sig ref) =? request_version ts); [| reflexivity].
  destruct (flags (rec_sig ref) =? flags ts); [| reflexivity].
  destruct (match_sigs re te =? 0); [| reflexivity].
  destruct (match_sigs rc tc =? 0); [discriminate | reflexivity].
Qed.

Lemma find_loop_hit ref todo i ts :
  arrays_set (rec_sig ref) -> arrays_set ts ->
  candidate (rec_sig ref) ts = true ->
  find_loop (ref :: todo) i ts = Done (set_matched ts (Some i)).
Proof.
  intros [Hrc Hre] [Htc Hte] Hc. unfold candidate in Hc. cbn [find_loop].
  destruct (extensions (rec_sig ref)) as [re |]; [| congruence].
  destruct (cipher_suites (rec_sig ref)) as [rc |]; [| congruence].
  destruct (extensions ts) as [te |]; [| congruence].
  destruct (cipher_suites ts) as [tc |]; [| congruence].
  cbn [pattern_match] in Hc. cbn [array bind].
  rewrite (Z.eqb_sym (flags ts)).
  apply andb_prop in Hc. destruct Hc as [Hc ->].
  apply andb_prop in Hc. destruct Hc as [Hc ->].
  apply andb_prop in Hc. destruct Hc as [-> ->]. reflexivity.
Qed.

Lemma find_loop_first todo : forall i ts n r,
  Forall (fun r => arrays_set (rec_sig r)) todo -> arrays_set ts ->
  nth_error todo n = Some r ->
  candidate (rec_sig r) ts = true ->
  (forall j r', (j < n)%nat -> nth_error todo j = Some r' ->
                candidate (rec_sig r') ts = false) ->
  find_loop todo i ts = Done (set_matched ts (Some (i + n)%nat)).
Proof.
  induction todo as [| ref todo IH]; intros i ts n r Hdb Hts Hn Hc Hbefore.
  - destruct n; discriminate.
  - inversion Hdb as [| ? ? Href Hdb']; subst.
    destruct n as [| n].
    + injection Hn as ->. rewrite Nat.add_0_r. apply find_loop_hit; assumption.
    + rewrite find_loop_skip; try assumption.
      * rewrite (IH (S i) ts n r); try assumption.
        -- do 3 f_equal. lia.
        -- intros j r' Hj Hj'. apply (Hbefore (S j) r'); [lia | exact Hj'].
      * apply (Hbefore 0%nat ref); [lia | reflexivity].
Qed.

Lemma find_loop_none todo : forall i ts,
  Forall (fun r => arrays_set (rec_sig r)) todo -> arrays_set ts ->
  (forall r, In r todo -> candidate (rec_sig r) ts = false) ->
  find_loop todo i ts = Done ts.
Proof.
  induction todo as [| ref todo IH]; intros i ts Hdb Hts Hnone; [reflexivity |].
  inversion Hdb as [| ? ? Href Hdb']; subst.
  rewrite find_loop_skip; try assumption.
  - apply IH; try assumption. intros r Hr. apply Hnone. right. exact Hr.
  - apply Hnone. left. reflexivity.
Qed.

(** C3: on a table built by registrations and an observed signature whose
    arrays are set, [ssl_find_match] sets [matched] to the first record, in
    registration order, whose version and flags are equal and whose
    extensions and cipher suites both pattern-match, and to nothing else;
    when no record satisfies the four conditions the signature is returned
    as it was, so [matched] stays NULL.  Of two matching records the one
    registered first is returned. *)
Theorem ssl_find_match_first db ts :
  registered db -> arrays_set ts ->
  (forall i r,
      nth_error db i = Some r ->
      candidate (rec_sig r) ts = true ->
      (forall j r', (j < i)%nat -> nth_error db j = Some r' ->
                    candidate (rec_sig r') ts = false) ->
      ssl_find_match db ts = Done (set_matched ts (Some i)))
  /\ ((forall r, In r db -> candidate (rec_sig r) ts = false) ->
      ssl_find_match db ts = Done ts)
  /\ (forall i j ri rj,
        (i < j)%nat ->
        nth_error db i = Some ri -> candidate (rec_sig ri) ts = true ->
        nth_error db j = Some rj -> candidate (rec_sig rj) ts = true ->
        ssl_find_match db ts <> Done (set_matched ts (Some j))).
Proof.
  intros Hreg Hts. pose proof (registered_arrays db Hreg) as Hdb.
  assert (Hfirst : forall i r,
      nth_error db i = Some r ->
      candidate (rec_sig r) ts = true ->
      (forall j r', (j < i)%nat -> nth_error db j = Some r' ->
                    candidate (rec_sig r') ts = false) ->
      ssl_find_match db ts = Done (set_matched ts (Some i))).
  { intros i r Hi Hc Hbefore. unfold ssl_find_match.
    rewrite (find_loop_first db 0%nat ts i r); auto. }
  split; [exact Hfirst | split].
  - intros Hnone. apply find_loop_none; assumption.
  - intros i j ri rj Hij Hi Hci Hj Hcj.
    (* the least matching index is at most [i] *)
    assert (Hleast : exists n r, (n <= i)%nat /\ nth_error db n = Some r /\
                candidate (rec_sig r) ts = true /\
                (forall m r', (m < n)%nat -> nth_error db m = Some r' ->
                              candidate (rec_sig r') ts = false)).
    { clear Hj Hcj Hij rj j. revert ri Hi Hci.
      induction i as [i IHi] using lt_wf_ind. intros ri Hi Hci.
      destruct (existsb (fun r => candidate (rec_sig r) ts) (firstn i db)) eqn:E.
      - apply existsb_exists in E. destruct E as (r & Hr & Hcr).
        apply In_nth_error in Hr. destruct Hr as (m & Hm).
        assert (Hmi : (m < i)%nat).
        { assert (Hlt : (m < length (firstn i db))%nat)
            by (apply nth_error_Some; congruence).
          rewrite length_firstn in Hlt. lia. }
        rewrite nth_error_firstn in Hm.
        destruct (Nat.ltb_spec m i) as [_ | Hge]; [| lia].
        destruct (IHi m Hmi r Hm Hcr) as (n & r0 & Hn & Hr0 & Hc0 & Hb).
        exists n, r0. repeat split; try assumption. lia.
      - exists i, ri. repeat split; try assumption; [lia |].
        intros m r' Hm Hr'.
        destruct (candidate (rec_sig r') ts) eqn:Ec; [| reflexivity].
        assert (Hin : In r' (firstn i db)).
        { apply (nth_error_In _ m). rewrite nth_error_firstn.
          destruct (Nat.ltb_spec m i); [exact Hr' | lia]. }
        assert (Hex : existsb (fun r => candidate (rec_sig r) ts) (firstn i db) = true).
        { apply existsb_exists. exists r'. split; assumption. }
        congruence. }
    destruct Hleast as (n & r & Hn & Hr & Hc & Hb).
    rewrite (Hfirst n r Hr Hc Hb). intros E.
    injection E as E. lia.
Qed.

End Database.

(** ** Reading bytes *)

Lemma lor_bound a b : 0 <= a -> 0 <= b -> 0 <= Z.lor a b <= a + b.
Proof.
  intros Ha Hb. split.
  - apply Z.lor_nonneg. split; assumption.
  - pose proof (Z.add_lor_land a b).
    assert (0 <= Z.land a b) by (apply Z.land_nonneg; left; exact Ha). lia.
Qed.

Lemma u8_of_range b : 0 <= u8_of b < 256.
Proof.
  unfold u8_of. pose proof (Byte.to_N_bounded b). lia.
Qed.

Lemma rd_done buf off v :
  rd buf off = Done v ->
  0 <= off < Z.of_nat (length buf) /\ 0 <= v < 256
  /\ exists b, nth_error buf (Z.to_nat off) = Some b /\ v = u8_of b.
Proof.
  unfold rd. destruct (Z.ltb_spec off 0) as [| Hoff]; [discriminate |].
  destruct (nth_error buf (Z.to_nat off)) as [b |] eqn:E; [| discriminate].
  intros H. injection H as <-.
  assert (Hlt : (Z.to_nat off < length buf)%nat)
    by (apply nth_error_Some; congruence).
  split; [lia |]. split; [apply u8_of_range |].
  exists b. split; reflexivity.
Qed.

Lemma rd_in_bounds buf off :
  0 <= off < Z.of_nat (length buf) ->
  exists b, nth_error buf (Z.to_nat off) = Some b /\ rd buf off = Done (u8_of b).
Proof.
  intros [Hlo Hhi]. unfold rd.
  destruct (Z.ltb_spec off 0) as [| _]; [lia |].
  destruct (nth_error buf (Z.to_nat off)) as [b |] eqn:E.
  - exists b. split; reflexivity.
  - apply nth_error_None in E. lia.
Qed.

Lemma rd_out_of_bounds buf off :
  Z.of_nat (length buf) <= off -> rd buf off = Abort OutOfBounds.
Proof.
  intros H. unfold rd.
  destruct (Z.ltb_spec off 0) as [| _]; [reflexivity |].
  destruct (nth_error buf (Z.to_nat off)) as [b |] eqn:E; [| reflexivity].
  assert ((Z.to_nat off < length buf)%nat) by (apply nth_error_Some; congruence).
  lia.
Qed.

(** A read aborts with nothing but [OutOfBounds]. *)
Lemma rd_abort buf off e : rd buf off = Abort e -> e = OutOfBounds.
Proof.
  unfold rd. destruct (off <? 0); [congruence |].
  destruct (nth_error buf (Z.to_nat off)); congruence.
Qed.

Lemma rd_skipn buf n off :
  0 <= off -> rd (skipn n buf) off = rd buf (Z.of_nat n + off).
Proof.
  intros Hoff. unfold rd.
  destruct (Z.ltb_spec off 0) as [| _]; [lia |].
  destruct (Z.ltb_spec (Z.of_nat n + off) 0) as [| _]; [lia |].
  rewrite nth_error_skipn.
  replace (Z.to_nat (Z.of_nat n + off)) with (n + Z.to_nat off)%nat by lia.
  reflexivity.
Qed.

Lemma rd16_done buf off v :
  rd16 buf off = Done v ->
  0 <= off /\ off + 1 < Z.of_nat (length buf) /\ 0 <= v < 2 ^ 16.
Proof.
  unfold rd16. intros H.
  apply bind_done in H. destruct H as (hi & Hhi & H).
  apply bind_done in H. destruct H as (lo & Hlo & H).
  apply Done_inj in H. subst v.
  apply rd_done in Hhi. destruct Hhi as (? & ? & _).
  apply rd_done in Hlo. destruct Hlo as (? & ? & _).
  split; [lia |]. split; [lia |].
  rewrite Z.shiftl_mul_pow2 by lia.
  pose proof (lor_bound (hi * 2 ^ 8) lo). lia.
Qed.

Lemma rd16_in_bounds buf off :
  0 <= off -> off + 1 < Z.of_nat (length buf) ->
  exists b1 b0,
    nth_error buf (Z.to_nat off) = Some b1
    /\ nth_error buf (S (Z.to_nat off)) = Some b0
    /\ rd16 buf off = Done (Z.lor (Z.shiftl (u8_of b1) 8) (u8_of b0)).
Proof.
  intros Hlo Hhi. unfold rd16.
  destruct (rd_in_bounds buf off) as (b1 & Hn1 & ->); [lia |].
  destruct (rd_in_bounds buf (off + 1)) as (b0 & Hn0 & ->); [lia |].
  exists b1, b0. split; [exact Hn1 |]. split; [| reflexivity].
  replace (S (Z.to_nat off)) with (Z.to_nat (off + 1)) by lia. exact Hn0.
Qed.

Lemma rd16_abort buf off e : rd16 buf off = Abort e -> e = OutOfBounds.
Proof.
  unfold rd16. intros H.
  apply bind_abort in H. destruct H as [H | (hi & _ & H)];
    [apply rd_abort in H; exact H |].
  apply bind_abort in H. destruct H as [H | (lo & _ & H)];
    [apply rd_abort in H; exact H | discriminate].
Qed.

Lemma rd24_done buf off v :
  rd24 buf off = Done v ->
  0 <= off /\ off + 2 < Z.of_nat (length buf) /\ 0 <= v < 2 ^ 24.
Proof.
  unfold rd24. intros H.
  apply bind_done in H. destruct H as (b0 & H0 & H).
  apply bind_done in H. destruct H as (b1 & H1 & H).
  apply bind_done in H. destruct H as (b2 & H2 & H).
  apply Done_inj in H. subst v.
  apply rd_done in H0. destruct H0 as (? & ? & _).
  apply rd_done in H1. destruct H1 as (? & ? & _).
  apply rd_done in H2. destruct H2 as (? & ? & _).
  split; [lia |]. split; [lia |].
  rewrite !Z.shiftl_mul_pow2 by lia.
  pose proof (lor_bound (b0 * 2 ^ 16) (b1 * 2 ^ 8)).
  pose proof (lor_bound (Z.lor (b0 * 2 ^ 16) (b1 * 2 ^ 8)) b2). lia.
Qed.

Lemma rd24_in_bounds buf off :
  0 <= off -> off + 2 < Z.of_nat (length buf) ->
  exists v, rd24 buf off = Done v.
Proof.
  intros Hlo Hhi. unfold rd24.
  destruct (rd_in_bounds buf off) as (b0 & _ & ->); [lia |].
  destruct (rd_in_bounds buf (off + 1)) as (b1 & _ & ->); [lia |].
  destruct (rd_in_bounds buf (off + 2)) as (b2 & _ & ->); [lia |].
  eexists. reflexivity.
Qed.

Lemma rd24_short buf off :
  0 <= off -> Z.of_nat (length buf) <= off + 2 ->
  rd24 buf off = Abort OutOfBounds.
Proof.
  intros Hlo Hhi. unfold rd24.
  destruct (rd buf off) as [b0 | e] eqn:E0;
    [| apply rd_abort in E0; subst; reflexivity].
  destruct (rd buf (off + 1)) as [b1 | e] eqn:E1;
    [| apply rd_abort in E1; subst; reflexivity].
  cbn [bind]. rewrite rd_out_of_bounds by lia. reflexivity.
Qed.

Lemma rd32_in_bounds buf off :
  0 <= off -> off + 3 < Z.of_nat (length buf) ->
  exists v, rd32 buf off = Done v.
Proof.
  intros Hlo Hhi. unfold rd32.
  destruct (rd_in_bounds buf off) as (b0 & _ & ->); [lia |].
  destruct (rd_in_bounds buf (off + 1)) as (b1 & _ & ->); [lia |].
  destruct (rd_in_bounds buf (off + 2)) as (b2 & _ & ->); [lia |].
  destruct (rd_in_bounds buf (off + 3)) as (b3 & _ & ->); [lia |].
  eexists. reflexivity.
Qed.

(** ** The SSLv2 dissector *)

Section DissectorV2.
Context {K : ssl_consts}.

Lemma v2_cipher_loop_values fuel buf tmp_end : forall pay acc cs pay',
  v2_cipher_loop fuel buf pay tmp_end acc = Done (cs, pay') ->
  Forall is_value acc -> Forall is_value cs.
Proof.
  induction fuel as [| fuel IH]; intros pay acc cs pay' H Hacc.
  - cbn [v2_cipher_loop] in H. destruct (pay <? tmp_end); [discriminate |].
    apply Done_inj in H. injection H as <- _. exact Hacc.
  - cbn [v2_cipher_loop] in H. destruct (pay <? tmp_end).
    + apply bind_done in H. destruct H as (c & Hc & H).
      apply (IH _ _ _ _ H). apply Forall_app. split; [exact Hacc |].
      constructor; [| constructor]. apply rd24_done in Hc. apply Hc.
    + apply Done_inj in H. injection H as <- _. exact Hacc.
Qed.

(** What a successful run has read and stored. *)
Lemma fingerprint_ssl_v2_success sig0 buf pay_len sig :
  fingerprint_ssl_v2 sig0 buf pay_len = Done (1, sig) ->
  exists ver_min ver_maj cipher_spec_len cs pay',
    rd buf 4 = Done ver_min /\ rd buf 3 = Done ver_maj
    /\ rd16 buf 5 = Done cipher_spec_len
    /\ cipher_spec_len mod 3 = 0
    /\ 11 + cipher_spec_len <= pay_len
    /\ v2_cipher_loop (Z.to_nat cipher_spec_len) buf 11 (11 + cipher_spec_len) []
       = Done (cs, pay')
    /\ sig = set_extensions
               (set_cipher_suites
                  (if (ver_min =? 2) && (ver_maj =? 0)
                   then set_request_version sig0 0x0200
                   else set_request_version sig0
                          (Z.lor (Z.shiftl ver_maj 8) ver_min))
                  (Some (cs ++ [END_MARKER])))
               (Some [END_MARKER]).
Proof.
  unfold fingerprint_ssl_v2, too_short, v2_truncated. intros H.
  change (0 + sizeof_ssl2_hdr) with 11 in H.
  change (0 + ssl2_ver_min) with 4 in H.
  change (0 + ssl2_ver_maj) with 3 in H.
  change (0 + ssl2_cipher_spec_length) with 5 in H.
  change (0 + ssl2_session_id_length) with 7 in H.
  change (0 + ssl2_challenge_length) with 9 in H.
  change (0 + pay_len) with pay_len in H.
  destruct (11 >? pay_len); [discriminate |].
  apply bind_done in H. destruct H as (ver_min & Hmin & H).
  apply bind_done in H. destruct H as (ver_maj & Hmaj & H).
  apply bind_done in H. destruct H as (csl & Hcsl & H).
  destruct (Z.eqb_spec (csl mod 3) 0) as [Hmod |]; [| discriminate].
  cbn [negb] in H.
  destruct (Z.gtb_spec (11 + csl) pay_len) as [| Hfit]; [discriminate |].
  apply bind_done in H. destruct H as ([cs pay'] & Hloop & H).
  apply bind_done in H. destruct H as (sid & _ & H).
  apply bind_done in H. destruct H as (chl & _ & H).
  exists ver_min, ver_maj, csl, cs, pay'.
  repeat (split; [assumption || lia |]).
  destruct (pay' + sid + chl >? pay_len);
    apply Done_inj in H; injection H as <-; reflexivity.
Qed.

End DissectorV2.

(** ** Windows of the buffer *)

Lemma skipn_nth_error {A : Type} (l : list A) : forall n x,
  nth_error l n = Some x -> skipn n l = x :: skipn (S n) l.
Proof.
  induction l as [| y l IH]; intros [| n] x H; try discriminate.
  - injection H as ->. reflexivity.
  - apply (IH n x H).
Qed.

Lemma window_length buf a b :
  0 <= a <= b -> b <= Z.of_nat (length buf) ->
  Z.of_nat (length (window buf a b)) = b - a.
Proof.
  intros Hab Hb. unfold window. rewrite length_firstn, length_skipn. lia.
Qed.

Lemma window_empty buf a b : b <= a -> window buf a b = [].
Proof.
  intros H. unfold window. replace (Z.to_nat (b - a)) with 0%nat by lia.
  reflexivity.
Qed.

Lemma window_cons buf a b :
  0 <= a < b -> b <= Z.of_nat (length buf) ->
  exists x, rd buf a = Done (u8_of x)
            /\ window buf a b = x :: window buf (a + 1) b.
Proof.
  intros Hab Hb.
  destruct (rd_in_bounds buf a) as (x & Hx & Hrd); [lia |].
  exists x. split; [exact Hrd |]. unfold window.
  rewrite (skipn_nth_error buf _ x Hx).
  replace (Z.to_nat (b - a)) with (S (Z.to_nat (b - (a + 1)))) by lia.
  replace (Z.to_nat (a + 1)) with (S (Z.to_nat a)) by lia.
  reflexivity.
Qed.

Lemma window_skipn buf a b k :
  0 <= a -> 0 <= k ->
  skipn (Z.to_nat k) (window buf a b) = window buf (a + k) b.
Proof.
  intros Ha Hk. unfold window. rewrite skipn_firstn_comm, skipn_skipn.
  f_equal; [lia | f_equal; lia].
Qed.

Lemma window_firstn buf a b n :
  0 <= n -> a + n <= b ->
  firstn (Z.to_nat n) (window buf a b) = window buf a (a + n).
Proof.
  intros Hn Hb. unfold window. rewrite firstn_firstn.
  f_equal. lia.
Qed.

(** Two and four bytes at the front of a window, as the code reads them. *)
Lemma window_rd16 buf a b :
  0 <= a -> a + 2 <= b -> b <= Z.of_nat (length buf) ->
  exists b1 b0, rd16 buf a = Done (be16 b1 b0)
                /\ window buf a b = b1 :: b0 :: window buf (a + 2) b.
Proof.
  intros Ha Hab Hb.
  destruct (window_cons buf a b) as (b1 & Hr1 & Hw1); [lia | lia |].
  destruct (window_cons buf (a + 1) b) as (b0 & Hr0 & Hw0); [lia | lia |].
  exists b1, b0. unfold rd16. rewrite Hr1, Hr0. split; [reflexivity |].
  rewrite Hw1, Hw0. replace (a + 1 + 1) with (a + 2) by lia. reflexivity.
Qed.

Lemma be16_range b1 b0 : 0 <= be16 b1 b0 < 2 ^ 16.
Proof.
  unfold be16. pose proof (u8_of_range b1). pose proof (u8_of_range b0).
  rewrite Z.shiftl_mul_pow2 by lia.
  pose proof (lor_bound (u8_of b1 * 2 ^ 8) (u8_of b0)). lia.
Qed.

(** ** The SSLv3 dissector *)

Section DissectorV3.
Context {K : ssl_consts}.

Lemma v3_cipher_loop_values fuel buf tmp_end : forall pay acc cs pay',
  v3_cipher_loop fuel buf pay tmp_end acc = Done (cs, pay') ->
  Forall is_u16 acc -> Forall is_u16 cs.
Proof.
  induction fuel as [| fuel IH]; intros pay acc cs pay' H Hacc.
  - cbn [v3_cipher_loop] in H. destruct (pay <? tmp_end); [discriminate |].
    apply Done_inj in H. injection H as <- _. exact Hacc.
  - cbn [v3_cipher_loop] in H. destruct (pay <? tmp_end).
    + apply bind_done in H. destruct H as (c & Hc & H).
      apply (IH _ _ _ _ H). apply Forall_app. split; [exact Hacc |].
      constructor; [| constructor]. apply rd16_done in Hc. apply Hc.
    + apply Done_inj in H. injection H as <- _. exact Hacc.
Qed.

(** Within the buffer the cipher loop runs to [tmp_end]. *)
Lemma v3_cipher_loop_done fuel buf tmp_end : forall pay acc,
  0 <= pay <= tmp_end -> tmp_end <= Z.of_nat (length buf) ->
  (tmp_end - pay) mod 2 = 0 -> tmp_end - pay <= Z.of_nat fuel ->
  exists cs, v3_cipher_loop fuel buf pay tmp_end acc = Done (cs, tmp_end).
Proof.
  induction fuel as [| fuel IH]; intros pay acc Hpay Hend Heven Hfuel.
  - cbn [v3_cipher_loop]. destruct (Z.ltb_spec pay tmp_end); [lia |].
    exists acc. do 2 f_equal. lia.
  - cbn [v3_cipher_loop]. destruct (Z.ltb_spec pay tmp_end) as [Hlt | Hge].
    + assert (pay + 2 <= tmp_end).
      { destruct (Z.eq_dec (tmp_end - pay) 1) as [E | E]; [| lia].
        rewrite E in Heven. discriminate. }
      destruct (rd16_in_bounds buf pay) as (b1 & b0 & _ & _ & ->); [lia | lia |].
      cbn [bind]. apply IH; try lia.
      replace (tmp_end - (pay + 2)) with (tmp_end - pay + (-1) * 2) by lia.
      rewrite Z.mod_add by lia. exact Heven.
    + exists acc. do 2 f_equal. lia.
Qed.

(** Within the buffer the compression loop runs to [tmp_end]; it touches
    nothing but the flags. *)
Lemma compression_loop_done fuel buf tmp_end : forall pay sig,
  0 <= pay <= tmp_end -> tmp_end <= Z.of_nat (length buf) ->
  tmp_end - pay <= Z.of_nat fuel ->
  exists sig', compression_loop fuel buf pay tmp_end sig = Done (sig', tmp_end)
               /\ extensions sig' = extensions sig
               /\ cipher_suites sig' = cipher_suites sig.
Proof.
  induction fuel as [| fuel IH]; intros pay sig Hpay Hend Hfuel.
  - cbn [compression_loop]. destruct (Z.ltb_spec pay tmp_end); [lia |].
    exists sig. split; [do 2 f_equal; lia | split; reflexivity].
  - cbn [compression_loop]. destruct (Z.ltb_spec pay tmp_end) as [Hlt | Hge].
    + destruct (rd_in_bounds buf pay) as (m & _ & ->); [lia |].
      cbn [bind].
      destruct (IH (pay + 1)
                  (if u8_of m =? 1
                   then set_flags sig (Z.lor (flags sig) SSL_FLAG_COMPR)
                   else sig)) as (sig' & -> & He & Hc); try lia.
      exists sig'. split; [reflexivity |].
      rewrite He, Hc. destruct (u8_of m =? 1); split; reflexivity.
    + exists sig. split; [do 2 f_equal; lia | split; reflexivity].
Qed.

(** The extension loop collects the types of the entries of its region. *)
Lemma extension_loop_types fuel buf tmp_end : forall pay acc,
  0 <= pay <= tmp_end -> tmp_end <= Z.of_nat (length buf) ->
  tmp_end - pay <= Z.of_nat fuel ->
  exists pay',
    extension_loop fuel buf pay tmp_end acc
    = Done (acc ++ ext_types fuel (window buf pay tmp_end), pay').
Proof.
  induction fuel as [| fuel IH]; intros pay acc Hpay Hend Hfuel.
  - cbn [extension_loop ext_types].
    destruct (Z.leb_spec (pay + 4) tmp_end); [lia |].
    exists pay. rewrite app_nil_r. reflexivity.
  - cbn [extension_loop].
    destruct (Z.leb_spec (pay + 4) tmp_end) as [Hfour | Hshort].
    + destruct (window_rd16 buf pay tmp_end) as (t1 & t0 & -> & Hw); try lia.
      destruct (window_rd16 buf (pay + 2) tmp_end) as (l1 & l0 & -> & Hw'); try lia.
      rewrite Hw, Hw'. replace (pay + 2 + 2) with (pay + 4) by lia.
      cbn [bind ext_types]. pose proof (be16_range l1 l0) as Hlen.
      rewrite window_length by lia.
      destruct (Z.gtb_spec (pay + 4 + be16 l1 l0) tmp_end) as [Hover | Hin].
      * destruct (Z.leb_spec (be16 l1 l0) (tmp_end - (pay + 4))); [lia |].
        eexists. reflexivity.
      * destruct (Z.leb_spec (be16 l1 l0) (tmp_end - (pay + 4))); [| lia].
        rewrite window_skipn by lia.
        destruct (IH (pay + 4 + be16 l1 l0) (acc ++ [be16 t1 t0]))
          as (pay' & ->); try lia.
        exists pay'. rewrite <- app_assoc. reflexivity.
    + exists pay. cbn [ext_types].
      assert (Hlen : Z.of_nat (length (window buf pay tmp_end)) < 4)
        by (rewrite window_length by lia; lia).
      destruct (window buf pay tmp_end) as [| ? [| ? [| ? [| ? ?]]]];
        try (rewrite app_nil_r; reflexivity).
      cbn [length] in Hlen. lia.
Qed.

Lemma v3_request_version_arrays sig ver rv :
  extensions (v3_request_version sig ver rv) = extensions sig
  /\ cipher_suites (v3_request_version sig ver rv) = cipher_suites sig.
Proof.
  unfold v3_request_version. cbv zeta.
  destruct (negb _); split; reflexivity.
Qed.

Lemma v3_remote_time_arrays sig time lt :
  extensions (v3_remote_time sig time lt) = extensions sig
  /\ cipher_suites (v3_remote_time sig time lt) = cipher_suites sig.
Proof.
  unfold v3_remote_time. cbv zeta.
  destruct (_ <? _); [split; reflexivity |].
  destruct (_ >? _); split; reflexivity.
Qed.

Lemma fingerprint_ssl_v3_through_ciphers sig0 fragment frag_len rv lt
      msg_len sid_len cs_len :
  through_ciphers fragment frag_len msg_len sid_len cs_len ->
  exists sig1 cs,
    fingerprint_ssl_v3 sig0 fragment frag_len rv lt
    = v3_compression_extensions sig1 fragment (41 + sid_len + cs_len) (4 + msg_len)
    /\ extensions sig1 = extensions sig0
    /\ cipher_suites sig1 = Some (cs ++ [END_MARKER])
    /\ Forall is_u16 cs.
Proof.
  intros [Hbuf Hml Hmfit Hhello Hfixed Hsid Hsfit Hcs Heven Hcfit].
  pose proof (rd_done _ _ _ Hsid) as (_ & Hsid_range & _).
  pose proof (rd16_done _ _ _ Hcs) as (_ & _ & Hcs_range).
  unfold fingerprint_ssl_v3. cbv zeta.
  change (0 + ssl3_length) with 1. change (0 + ssl3_message_type) with 0.
  change (0 + sizeof_ssl3_message_hdr) with 4. change (0 + frag_len) with frag_len.
  change (4 + 2 + 4 + 28 + 1) with 39. change (4 + 2 + 4 + 28) with 38.
  change (4 + 2) with 6.
  rewrite Hml. cbn [bind].
  destruct (Z.gtb_spec (4 + msg_len) frag_len) as [| _]; [lia |].
  rewrite Hhello. cbn [bind]. rewrite Z.eqb_refl. cbn [negb].
  destruct (Z.gtb_spec 39 (4 + msg_len)) as [| _]; [lia |].
  destruct (rd16_in_bounds fragment 4) as (v1 & v0 & _ & _ & ->); [lia | lia |].
  destruct (rd32_in_bounds fragment 6) as (time & ->); [lia | lia |].
  cbn [bind]. rewrite Hsid. cbn [bind].
  destruct (Z.gtb_spec (39 + sid_len + 2) (4 + msg_len)) as [| _]; [lia |].
  rewrite Hcs. cbn [bind].
  rewrite Heven. cbn [Z.eqb negb].
  destruct (Z.gtb_spec (39 + sid_len + 2 + cs_len) (4 + msg_len)) as [| _]; [lia |].
  destruct (v3_cipher_loop_done (Z.to_nat cs_len) fragment
              (39 + sid_len + 2 + cs_len) (39 + sid_len + 2) [])
    as (cs & Hloop); try lia.
  { replace (39 + sid_len + 2 + cs_len - (39 + sid_len + 2)) with cs_len by lia.
    exact Heven. }
  rewrite Hloop. cbn [bind].
  eexists. exists cs.
  split; [replace (41 + sid_len + cs_len) with (39 + sid_len + 2 + cs_len) by lia;
          reflexivity |].
  split; [| split].
  - cbn [extensions set_cipher_suites].
    rewrite (proj1 (v3_remote_time_arrays _ _ _)).
    apply (proj1 (v3_request_version_arrays _ _ _)).
  - reflexivity.
  - apply (v3_cipher_loop_values _ _ _ _ _ _ _ Hloop). constructor.
Qed.

Lemma v3_compression_extensions_done sig buf pay pay_end :
  0 <= pay <= pay_end -> pay_end <= Z.of_nat (length buf) ->
  exists sig',
    v3_compression_extensions sig buf pay pay_end = Done (1, sig')
    /\ cipher_suites sig' = cipher_suites sig
    /\ (extensions sig = None ->
        extensions sig'
        = Some (extensions_collected (window buf pay pay_end) ++ [END_MARKER])).
Proof.
  intros Hpay Hend.
  assert (Htrunc : forall s,
            exists sig', v3_truncated s = Done (1, sig')
                         /\ cipher_suites sig' = cipher_suites s
                         /\ (extensions s = None ->
                             extensions sig' = Some ([] ++ [END_MARKER]))).
  { intros s. unfold v3_truncated. eexists.
    split; [reflexivity |]. split.
    - destruct (extensions s); reflexivity.
    - intros ->. reflexivity. }
  unfold v3_compression_extensions, extensions_collected.
  destruct (Z.gtb_spec (pay + 1) pay_end) as [Hno | Hcl].
  { rewrite window_empty by lia. apply Htrunc. }
  destruct (window_cons buf pay pay_end) as (n & -> & ->); [lia | lia |].
  cbn [bind skip_compression]. pose proof (u8_of_range n) as Hn.
  rewrite window_length by lia.
  destruct (Z.gtb_spec (pay + 1 + u8_of n) pay_end) as [Hover | Hfit].
  { destruct (Z.leb_spec (u8_of n) (pay_end - (pay + 1))); [lia |].
    apply Htrunc. }
  destruct (Z.leb_spec (u8_of n) (pay_end - (pay + 1))); [| lia].
  destruct (compression_loop_done (Z.to_nat (u8_of n)) buf (pay + 1 + u8_of n)
              (pay + 1) sig) as (sig1 & -> & He1 & Hc1); try lia.
  cbn [bind]. rewrite window_skipn by lia.
  destruct (Z.gtb_spec (pay + 1 + u8_of n + 2) pay_end) as [Hno2 | Hlen].
  { destruct (Htrunc sig1) as (sig' & -> & Hc & He).
    exists sig'. split; [reflexivity |]. split; [congruence |].
    intros Hnone. rewrite He by congruence. do 2 f_equal.
    assert (Hl : Z.of_nat (length (window buf (pay + 1 + u8_of n) pay_end)) < 2)
      by (rewrite window_length by lia; lia).
    destruct (window buf (pay + 1 + u8_of n) pay_end) as [| ? [| ? ?]];
      try reflexivity.
    cbn [length] in Hl. lia. }
  destruct (window_rd16 buf (pay + 1 + u8_of n) pay_end)
    as (l1 & l0 & -> & ->); try lia.
  cbn [bind types_collected]. pose proof (be16_range l1 l0) as HL.
  rewrite window_length by lia.
  destruct (Z.gtb_spec (pay + 1 + u8_of n + 2 + be16 l1 l0) pay_end)
    as [Hover2 | Hfit2].
  { destruct (Z.leb_spec (be16 l1 l0) (pay_end - (pay + 1 + u8_of n + 2))); [lia |].
    destruct (Htrunc sig1) as (sig' & -> & Hc & He).
    exists sig'. split; [reflexivity |]. split; [congruence |].
    intros Hnone. apply He. congruence. }
  destruct (Z.leb_spec (be16 l1 l0) (pay_end - (pay + 1 + u8_of n + 2))); [| lia].
  destruct (extension_loop_types (Z.to_nat (be16 l1 l0)) buf
              (pay + 1 + u8_of n + 2 + be16 l1 l0) (pay + 1 + u8_of n + 2) [])
    as (pay' & ->); try lia.
  cbn [bind app]. unfold v3_truncated. cbn [extensions set_extensions].
  eexists. split; [reflexivity |]. split; [exact Hc1 |].
  intros _. cbn [extensions set_extensions]. do 2 f_equal.
  rewrite window_firstn by lia. unfold extension_types. f_equal.
  pose proof (window_length buf (pay + 1 + u8_of n + 2)
                (pay + 1 + u8_of n + 2 + be16 l1 l0)). lia.
Qed.

(** With at least four bytes of fragment in the buffer the dissector reads
    within the buffer and returns. *)
Lemma fingerprint_ssl_v3_returns sig fragment frag_len rv lt :
  4 <= frag_len -> frag_len <= Z.of_nat (length fragment) ->
  exists r, fingerprint_ssl_v3 sig fragment frag_len rv lt = Done r.
Proof.
  intros Hfour Hbuf.
  unfold fingerprint_ssl_v3, too_short. cbv zeta.
  change (0 + ssl3_length) with 1. change (0 + ssl3_message_type) with 0.
  change (0 + sizeof_ssl3_message_hdr) with 4. change (0 + frag_len) with frag_len.
  change (4 + 2 + 4 + 28 + 1) with 39. change (4 + 2 + 4 + 28) with 38.
  change (4 + 2) with 6.
  destruct (rd24_in_bounds fragment 1) as (msg_len & Hml); [lia | lia |].
  rewrite Hml. cbn [bind]. apply rd24_done in Hml. destruct Hml as (_ & _ & Hml).
  destruct (Z.gtb_spec (4 + msg_len) frag_len) as [| Hmfit];
    [eexists; reflexivity |].
  destruct (rd_in_bounds fragment 0) as (mt & _ & ->); [lia |].
  cbn [bind]. destruct (negb _); [eexists; reflexivity |].
  destruct (Z.gtb_spec 39 (4 + msg_len)) as [| Hfixed]; [eexists; reflexivity |].
  destruct (rd16_in_bounds fragment 4) as (v1 & v0 & _ & _ & ->); [lia | lia |].
  destruct (rd32_in_bounds fragment 6) as (time & ->); [lia | lia |].
  destruct (rd_in_bounds fragment 38) as (sid & _ & ->); [lia |].
  cbn [bind]. pose proof (u8_of_range sid) as Hsid.
  destruct (Z.gtb_spec (39 + u8_of sid + 2) (4 + msg_len)) as [| Hsfit];
    [eexists; reflexivity |].
  destruct (rd16_in_bounds fragment (39 + u8_of sid)) as (c1 & c0 & _ & _ & ->);
    [lia | lia |].
  cbn [bind]. fold (be16 c1 c0). pose proof (be16_range c1 c0) as Hcs.
  destruct (Z.eqb_spec (be16 c1 c0 mod 2) 0) as [Heven |];
    [| eexists; reflexivity].
  cbn [negb].
  destruct (Z.gtb_spec (39 + u8_of sid + 2 + be16 c1 c0) (4 + msg_len))
    as [| Hcfit]; [eexists; reflexivity |].
  destruct (v3_cipher_loop_done (Z.to_nat (be16 c1 c0)) fragment
              (39 + u8_of sid + 2 + be16 c1 c0) (39 + u8_of sid + 2) [])
    as (cs & ->); try lia.
  { replace (39 + u8_of sid + 2 + be16 c1 c0 - (39 + u8_of sid + 2))
      with (be16 c1 c0) by lia. exact Heven. }
  cbn [bind].
  match goal with
  | |- exists r, v3_compression_extensions ?s ?b ?p ?e = Done r =>
      destruct (v3_compression_extensions_done s b p e) as (sig' & -> & _);
        try lia
  end.
  eexists. reflexivity.
Qed.

(** The length bytes of the handshake header are read before any check: a
    buffer of fewer than four bytes is read out of bounds. *)
Lemma fingerprint_ssl_v3_unguarded sig fragment frag_len rv lt :
  (length fragment < 4)%nat ->
  fingerprint_ssl_v3 sig fragment frag_len rv lt = Abort OutOfBounds.
Proof.
  intros Hshort. unfold fingerprint_ssl_v3. cbv zeta.
  change (0 + ssl3_length) with 1.
  rewrite rd24_short by lia. reflexivity.
Qed.

Lemma compression_loop_arrays fuel buf tmp_end : forall pay sig sig' pay',
  compression_loop fuel buf pay tmp_end sig = Done (sig', pay') ->
  extensions sig' = extensions sig /\ cipher_suites sig' = cipher_suites sig.
Proof.
  induction fuel as [| fuel IH]; intros pay sig sig' pay' H.
  - cbn [compression_loop] in H. destruct (pay <? tmp_end); [discriminate |].
    apply Done_inj in H. injection H as <- _. split; reflexivity.
  - cbn [compression_loop] in H. destruct (pay <? tmp_end).
    + apply bind_done in H. destruct H as (m & _ & H).
      apply IH in H. destruct H as [-> ->].
      destruct (m =? 1); split; reflexivity.
    + apply Done_inj in H. injection H as <- _. split; reflexivity.
Qed.

Lemma extension_loop_values fuel buf tmp_end : forall pay acc es pay',
  extension_loop fuel buf pay tmp_end acc = Done (es, pay') ->
  Forall is_u16 acc -> Forall is_u16 es.
Proof.
  induction fuel as [| fuel IH]; intros pay acc es pay' H Hacc.
  - cbn [extension_loop] in H. destruct (pay + 4 <=? tmp_end); [discriminate |].
    apply Done_inj in H. injection H as <- _. exact Hacc.
  - cbn [extension_loop] in H. destruct (pay + 4 <=? tmp_end).
    + apply bind_done in H. destruct H as (ext_type & Ht & H).
      apply bind_done in H. destruct H as (ext_len & _ & H).
      assert (Hacc' : Forall is_u16 (acc ++ [ext_type])).
      { apply Forall_app. split; [exact Hacc |].
        constructor; [| constructor]. apply rd16_done in Ht. apply Ht. }
      destruct (pay + 4 + ext_len >? tmp_end).
      * apply Done_inj in H. injection H as <- _. exact Hacc'.
      * apply (IH _ _ _ _ H Hacc').
    + apply Done_inj in H. injection H as <- _. exact Hacc.
Qed.

(** From the compression methods on the dissector succeeds whenever it
    returns, and leaves a terminated array of 16-bit extension types. *)
Lemma v3_compression_extensions_success sig buf pay pay_end r sig' :
  v3_compression_extensions sig buf pay pay_end = Done (r, sig') ->
  extensions sig = None ->
  r = 1 /\ cipher_suites sig' = cipher_suites sig
  /\ exists es, extensions sig' = Some (es ++ [END_MARKER]) /\ Forall is_u16 es.
Proof.
  assert (Htrunc : forall s, extensions s = None ->
            v3_truncated s = Done (r, sig') ->
            r = 1 /\ cipher_suites sig' = cipher_suites s
            /\ exists es, extensions sig' = Some (es ++ [END_MARKER])
                          /\ Forall is_u16 es).
  { intros s Hs H. unfold v3_truncated in H. rewrite Hs in H.
    apply Done_inj in H. injection H as <- <-.
    split; [reflexivity |]. split; [reflexivity |].
    exists []. split; [reflexivity | constructor]. }
  unfold v3_compression_extensions. intros H Hnone.
  destruct (pay + 1 >? pay_end); [apply Htrunc; assumption |].
  apply bind_done in H. destruct H as (cml & _ & H).
  destruct (pay + 1 + cml >? pay_end); [apply Htrunc; assumption |].
  apply bind_done in H. destruct H as ([sig1 pay1] & Hloop & H).
  apply compression_loop_arrays in Hloop. destruct Hloop as [He1 Hc1].
  rewrite Hnone in He1. rewrite <- Hc1.
  destruct (pay1 + 2 >? pay_end); [apply Htrunc; assumption |].
  apply bind_done in H. destruct H as (el & _ & H).
  destruct (pay1 + 2 + el >? pay_end); [apply Htrunc; assumption |].
  apply bind_done in H. destruct H as ([es pay2] & Hext & H).
  apply extension_loop_values in Hext; [| constructor].
  unfold v3_truncated in H. cbn [extensions set_extensions] in H.
  apply Done_inj in H. injection H as <- <-.
  split; [reflexivity |]. split; [reflexivity |].
  exists es. split; [reflexivity | exact Hext].
Qed.

Lemma fingerprint_ssl_v3_success sig0 fragment frag_len rv lt sig :
  fingerprint_ssl_v3 sig0 fragment frag_len rv lt = Done (1, sig) ->
  extensions sig0 = None ->
  exists cs es,
    cipher_suites sig = Some (cs ++ [END_MARKER])
    /\ extensions sig = Some (es ++ [END_MARKER])
    /\ Forall is_u16 cs /\ Forall is_u16 es.
Proof.
  unfold fingerprint_ssl_v3, too_short. cbv zeta. intros H Hnone.
  apply bind_done in H. destruct H as (msg_len & _ & H).
  destruct (_ >? _); [discriminate |].
  apply bind_done in H. destruct H as (mt & _ & H).
  destruct (negb _); [discriminate |].
  destruct (_ >? _); [discriminate |].
  apply bind_done in H. destruct H as (ver & _ & H).
  apply bind_done in H. destruct H as (time & _ & H).
  apply bind_done in H. destruct H as (sid & _ & H).
  destruct (_ >? _); [discriminate |].
  apply bind_done in H. destruct H as (csl & _ & H).
  destruct (negb _); [discriminate |].
  destruct (_ >? _); [discriminate |].
  apply bind_done in H. destruct H as ([cs pay] & Hloop & H).
  apply v3_cipher_loop_values in Hloop; [| constructor].
  apply v3_compression_extensions_success in H.
  - destruct H as (_ & Hc & es & He & Hes).
    exists cs, es. repeat split; assumption.
  - cbn [extensions set_cipher_suites].
    rewrite (proj1 (v3_remote_time_arrays _ _ _)).
    rewrite (proj1 (v3_request_version_arrays _ _ _)). exact Hnone.
Qed.

Lemma ext_types_u16 fuel : forall region, Forall is_u16 (ext_types fuel region).
Proof.
  induction fuel as [| fuel IH]; intros region; [constructor |].
  cbn [ext_types].
  destruct region as [| t1 [| t0 [| l1 [| l0 payload]]]]; try constructor.
  - apply be16_range.
  - destruct (_ <=? _); [apply IH | constructor].
Qed.

Lemma extensions_collected_u16 tail : Forall is_u16 (extensions_collected tail).
Proof.
  unfold extensions_collected, types_collected, extension_types.
  destruct (skip_compression tail) as [[| l1 [| l0 body]] |]; try constructor.
  destruct (_ <=? _); [apply ext_types_u16 | constructor].
Qed.

End DissectorV3.

(** ** Observed signatures hold values only *)

Lemma u16_exact_word {K : ssl_consts} (HK : consts_ok K) w :
  is_u16 w -> exact_word w.
Proof.
  intros [Hlo Hhi].
  assert (Hv : is_value w) by (unfold is_value; lia).
  split; [exact Hv | apply classify_value; assumption].
Qed.

Lemma value_exact_word {K : ssl_consts} (HK : consts_ok K) w :
  is_value w -> exact_word w.
Proof.
  intros Hv. split; [exact Hv | apply classify_value; assumption].
Qed.

(** C5: after a successful run of the SSLv2 dissector, or of the SSLv3
    dissector on the zeroed signature the engine passes (its extension array
    is NULL), both arrays of the signature are allocated and terminated, and
    every word before the terminator is a 24-bit value, read as [Exact]:
    none is the wildcard, none carries the optional marking. *)
Theorem dissected_words_exact {K : ssl_consts} (HK : consts_ok K)
        sig0 buf len record_version local_time sig :
  fingerprint_ssl_v2 sig0 buf len = Done (1, sig)
  \/ (extensions sig0 = None
      /\ fingerprint_ssl_v3 sig0 buf len record_version local_time = Done (1, sig)) ->
  exists cs es,
    cipher_suites sig = Some (cs ++ [END_MARKER])
    /\ extensions sig = Some (es ++ [END_MARKER])
    /\ Forall exact_word cs /\ Forall exact_word es.
Proof.
  intros [H | [Hnone H]].
  - apply fingerprint_ssl_v2_success in H.
    destruct H as (ver_min & ver_maj & csl & cs & pay' & _ & _ & _ & _ & _
                   & Hloop & ->).
    apply v2_cipher_loop_values in Hloop; [| constructor].
    exists cs, []. repeat split; try constructor.
    eapply Forall_impl; [| exact Hloop]. apply value_exact_word, HK.
  - apply fingerprint_ssl_v3_success in H; [| exact Hnone].
    destruct H as (cs & es & Hc & He & Hcs & Hes).
    exists cs, es. repeat split; try assumption.
    + eapply Forall_impl; [| exact Hcs]. apply u16_exact_word, HK.
    + eapply Forall_impl; [| exact Hes]. apply u16_exact_word, HK.
Qed.

(** ** Truncation inside the extension list *)

(** C7 (amended): on every ClientHello fragment that is well-formed through
    the cipher-suite list and holds its handshake message in full, whatever
    follows the cipher suites inside the message, truncated or with
    inconsistent lengths, the SSLv3 dissector returns 1, and the extension
    array is allocated, terminated, and holds before its terminator exactly
    the extension types the dissector has read, in order: the types of the
    entries whose 4-byte header lies within the declared extension list, up
    to and including the first whose payload overruns the list; no entry is
    read when the compression methods, the 2-byte list length or the
    declared list itself overrun the message.  A fragment that ends before
    its handshake message does, as one cut off inside the extension list
    is, is not tolerated: the dissector returns -1 and leaves the signature
    as it was. *)
Theorem truncated_extensions_tolerated {K : ssl_consts} (HK : consts_ok K)
        sig0 fragment frag_len record_version local_time msg_len sid_len cs_len :
  (extensions sig0 = None ->
   through_ciphers fragment frag_len msg_len sid_len cs_len ->
   exists sig,
     fingerprint_ssl_v3 sig0 fragment frag_len record_version local_time
     = Done (1, sig)
     /\ extensions sig
        = Some (extensions_collected
                  (window fragment (41 + sid_len + cs_len) (4 + msg_len))
                ++ [END_MARKER])
     /\ ~ In END_MARKER
          (extensions_collected
             (window fragment (41 + sid_len + cs_len) (4 + msg_len))))
  /\ (rd24 fragment 1 = Done msg_len -> frag_len < 4 + msg_len ->
      fingerprint_ssl_v3 sig0 fragment frag_len record_version local_time
      = Done (-1, sig0)).
Proof.
  split.
  - intros Hnone Hwf.
    destruct (fingerprint_ssl_v3_through_ciphers sig0 fragment frag_len
                record_version local_time _ _ _ Hwf)
      as (sig1 & cs & -> & He1 & _ & _).
    destruct Hwf as [Hbuf _ Hmfit _ _ Hsid _ Hcs _ Hcfit].
    pose proof (rd_done _ _ _ Hsid) as (_ & Hsid_range & _).
    pose proof (rd16_done _ _ _ Hcs) as (_ & _ & Hcs_range).
    destruct (v3_compression_extensions_done sig1 fragment
                (41 + sid_len + cs_len) (4 + msg_len))
      as (sig & Hrun & _ & He); try lia.
    exists sig. split; [exact Hrun |]. split; [apply He; congruence |].
    intros Hin.
    pose proof (extensions_collected_u16
                  (window fragment (41 + sid_len + cs_len) (4 + msg_len)))
      as Hall.
    rewrite Forall_forall in Hall. apply Hall in Hin.
    destruct Hin as [_ Hhi]. pose proof (end_range K HK). lia.
  - intros Hml Hshort. unfold fingerprint_ssl_v3. cbv zeta.
    change (0 + ssl3_length) with 1.
    change (0 + sizeof_ssl3_message_hdr) with 4.
    change (0 + frag_len) with frag_len.
    rewrite Hml. cbn [bind].
    destruct (Z.gtb_spec (4 + msg_len) frag_len) as [_ |]; [reflexivity | lia].
Qed.

Lemma hello_whole_through_ciphers :
  @through_ciphers p0f_consts hello_whole 51 47 0 2.
Proof. constructor; try reflexivity; vm_compute; congruence. Qed.

Lemma hello_overrun_through_ciphers :
  @through_ciphers p0f_consts hello_overrun 55 51 0 2.
Proof. constructor; try reflexivity; vm_compute; congruence. Qed.

(** C7, witness: on [hello_overrun], whose last extension entry lacks its
    payload, the dissector returns 1 with the types 13 and 10; on its first
    53 bytes, a fragment cut off inside that entry, it returns -1. *)
Lemma truncated_extensions_tolerated_witness :
  (exists sig,
      @fingerprint_ssl_v3 p0f_consts zero_sig hello_overrun 55 0x0301 0
      = Done (1, sig)
      /\ extensions sig = Some [13; 10; 0x40000000])
  /\ @fingerprint_ssl_v3 p0f_consts zero_sig (firstn 53 hello_overrun) 53 0x0301 0
     = Done (-1, zero_sig).
Proof.
  split.
  - destruct (proj1 (@truncated_extensions_tolerated p0f_consts p0f_consts_ok
                       zero_sig hello_overrun 55 0x0301 0 51 0 2)
                eq_refl hello_overrun_through_ciphers)
      as (sig & Hrun & He & _).
    exists sig. split; [exact Hrun | exact He].
  - apply (proj2 (@truncated_extensions_tolerated p0f_consts p0f_consts_ok
                    zero_sig (firstn 53 hello_overrun) 53 0x0301 0 51 0 2)).
    + reflexivity.
    + lia.
Defined.

(** When the declared length of the extension list overruns the message,
    the dissector reads no entry: on [hello_cut] it succeeds with an empty
    sequence, although the message holds the entry of type 10 in full. *)
Lemma cut_extension_list_is_dropped :
  exists sig,
    @through_ciphers p0f_consts hello_cut 51 47 0 2
    /\ @fingerprint_ssl_v3 p0f_consts zero_sig hello_cut 51 0x0301 0 = Done (1, sig)
    /\ window hello_cut 45 51 = [x00; x08; x00; x0a; x00; x00]
    /\ extensions sig = Some [@END_MARKER p0f_consts].
Proof.
  eexists.
  split; [constructor; try reflexivity; vm_compute; congruence |].
  split; [vm_compute; reflexivity |].
  split; reflexivity.
Qed.

(** The first 49 bytes of [hello_whole] are a fragment cut off inside the
    extension list: the bytes through the cipher suites, the compression
    methods and the length of the extension list are those of [hello_whole],
    on which the dissector returns 1 with the extension type 10, and two of
    the four bytes of the entry are there.  On the cut fragment the
    dissector returns -1. *)
Lemma short_fragment_refused :
  firstn 47 (firstn 49 hello_whole) = firstn 47 hello_whole
  /\ window hello_whole 41 43 = [x00; x2f]
  /\ window hello_whole 45 51 = [x00; x04; x00; x0a; x00; x00]
  /\ window (firstn 49 hello_whole) 45 49 = [x00; x04; x00; x0a]
  /\ (exists sig,
         @fingerprint_ssl_v3 p0f_consts zero_sig hello_whole 51 0x0301 0
         = Done (1, sig)
         /\ extensions sig = Some [10; @END_MARKER p0f_consts])
  /\ @fingerprint_ssl_v3 p0f_consts zero_sig (firstn 49 hello_whole) 49 0x0301 0
     = Done (-1, zero_sig).
Proof.
  repeat (split; [reflexivity |]).
  split; [eexists; split; vm_compute; reflexivity |].
  vm_compute. reflexivity.
Qed.

(** ** The SSLv2 literal case *)

(** Whatever length is passed, a successful run on these bytes reads
    ver_maj = 0, ver_min = 2 and cipher_spec_length = 0. *)
Lemma sslv2_literal_any_length {K : ssl_consts} sig0 pay_len sig :
  fingerprint_ssl_v2 sig0 sslv2_literal pay_len = Done (1, sig) ->
  sig = set_extensions
          (set_cipher_suites (set_request_version sig0 0x0200)
                             (Some [END_MARKER]))
          (Some [END_MARKER]).
Proof.
  intros H. apply fingerprint_ssl_v2_success in H.
  destruct H as (ver_min & ver_maj & csl & cs & pay' & Hmin & Hmaj & Hcsl
                 & _ & _ & Hloop & ->).
  vm_compute in Hmin. apply Done_inj in Hmin. subst ver_min.
  vm_compute in Hmaj. apply Done_inj in Hmaj. subst ver_maj.
  vm_compute in Hcsl. apply Done_inj in Hcsl. subst csl.
  vm_compute in Hloop. apply Done_inj in Hloop. injection Hloop as <- _.
  reflexivity.
Qed.

(** C6 (amended): the SSLv2 dissector succeeds on the 17 bytes and yields
    an empty cipher-suite sequence, an empty extension sequence and the
    request version 0x0200: the header bytes are ver_maj = 0, ver_min = 2,
    cipher_spec_length = 0, session_id_length = 0, challenge_length = 6. *)
Theorem sslv2_literal_parse {K : ssl_consts} (sig0 : ssl_sig) :
  exists sig,
    fingerprint_ssl_v2 sig0 sslv2_literal 17 = Done (1, sig)
    /\ cipher_suites sig = Some [END_MARKER]
    /\ extensions sig = Some [END_MARKER]
    /\ request_version sig = 0x0200.
Proof.
  eexists. split; [reflexivity |]. repeat split.
Qed.

(** C6, counterexample: whatever length is passed, the dissector does not
    yield the version 3.0 with the cipher suites 010080 and 0700c0 on these
    bytes. *)
Lemma sslv2_literal_not_as_claimed :
  ~ exists pay_len sig,
      @fingerprint_ssl_v2 p0f_consts
         (set_flags zero_sig (@SSL_FLAG_V2 p0f_consts)) sslv2_literal pay_len
      = Done (1, sig)
      /\ cipher_suites sig = Some [0x010080; 0x0700C0; @END_MARKER p0f_consts]
      /\ extensions sig = Some [@END_MARKER p0f_consts]
      /\ request_version sig = 0x0300.
Proof.
  intros (pay_len & sig & H & _ & _ & Hv).
  apply sslv2_literal_any_length in H. subst sig. discriminate Hv.
Qed.

(** ** The engine on a decided flow *)

(** C9: on a flow whose [in_ssl] is set (1 after a successful dissection,
    -1 after a failed one) [process_ssl] returns 0 with the flow unchanged
    and without any event: no dissector is invoked and nothing is sent to
    the observation collaborator. *)
Theorem process_ssl_decided {K : ssl_consts} signatures fp_os_names to_srv f :
  in_ssl f <> 0 ->
  process_ssl signatures fp_os_names to_srv f = Done (0, f, []).
Proof.
  intros H. unfold process_ssl.
  rewrite (proj2 (Z.eqb_neq _ _) H). reflexivity.
Qed.

(** C9, witness: a flow confirmed as SSL and one confirmed as not SSL. *)
Lemma process_ssl_decided_witness :
  @process_ssl p0f_consts [] (fun _ => []) 1
     (mk_packet_flow 1 17 sslv2_literal 0)
  = Done (0, mk_packet_flow 1 17 sslv2_literal 0, [])
  /\ @process_ssl p0f_consts [] (fun _ => []) 1
       (mk_packet_flow (-1) 17 sslv2_literal 0)
     = Done (0, mk_packet_flow (-1) 17 sslv2_literal 0, []).
Proof.
  split.
  - apply (@process_ssl_decided p0f_consts). simpl. lia.
  - apply (@process_ssl_decided p0f_consts). simpl. lia.
Defined.

(** ** The engine *)

Section Engine.
Context {K : ssl_consts}.

Lemma CallV3_inj a b c d a' b' c' d' :
  CallV3 a b c d = CallV3 a' b' c' d' -> a = a' /\ b = b' /\ c = c' /\ d = d'.
Proof. intros H. injection H. auto. Qed.

Lemma mand_true a b : mand a b = Done true -> a = Done true /\ b = Done true.
Proof.
  unfold mand. intros H. apply bind_done in H. destruct H as ([|] & Ha & H).
  - split; assumption.
  - discriminate.
Qed.

Lemma fingerprint_ssl_events signatures fp_os_names to_srv sig evs :
  fingerprint_ssl signatures fp_os_names to_srv sig = Done evs ->
  Forall is_observation evs.
Proof.
  unfold fingerprint_ssl. intros H.
  apply bind_done in H. destruct H as (sig' & _ & H).
  apply bind_done in H. destruct H as (fields & Hf & H).
  apply bind_done in H. destruct H as (raw & _ & H).
  apply Done_inj in H. subst evs.
  constructor; [exact I |]. apply Forall_app. split.
  - destruct (matched sig') as [i |].
    + destruct (nth_error signatures i) as [m |]; [| discriminate].
      apply bind_done in Hf. destruct Hf as (ms & _ & Hf).
      apply Done_inj in Hf. subst fields. repeat constructor.
    + apply Done_inj in Hf. subst fields. repeat constructor.
  - destruct (_ =? 0); repeat constructor.
Qed.

Lemma process_result_calls signatures fp_os_names to_srv f success sig calls
      ret f' evs e :
  process_result signatures fp_os_names to_srv f success sig calls
  = Done (ret, f', evs) ->
  In e evs -> In e calls \/ is_observation e.
Proof.
  unfold process_result. intros H Hin.
  destruct (negb (success =? 1)).
  - apply Done_inj in H. injection H as _ _ <-. left. exact Hin.
  - apply bind_done in H. destruct H as (obs & Hobs & H).
    apply Done_inj in H. injection H as _ _ <-.
    apply in_app_or in Hin. destruct Hin as [Hin | Hin]; [left; exact Hin |].
    right. apply fingerprint_ssl_events in Hobs.
    rewrite Forall_forall in Hobs. apply Hobs, Hin.
Qed.

(** Every call of the SSLv3 dissector that [process_ssl] makes passes a
    fragment length above 3 and a fragment of which that many bytes are
    buffered. *)
Lemma process_ssl_dispatch_v3 signatures fp_os_names to_srv f ret f' evs
      fragment frag_len record_version local_time :
  req_len f <= Z.of_nat (length (request f)) ->
  process_ssl signatures fp_os_names to_srv f = Done (ret, f', evs) ->
  In (CallV3 fragment frag_len record_version local_time) evs ->
  3 < frag_len
  /\ sizeof_ssl3_record_hdr + frag_len <= req_len f
  /\ fragment = skipn (Z.to_nat sizeof_ssl3_record_hdr) (request f)
  /\ frag_len <= Z.of_nat (length fragment).
Proof.
  intros Hinv H Hin. unfold process_ssl in H. cbv zeta in H.
  destruct (negb (in_ssl f =? 0)).
  { apply Done_inj in H. injection H as _ _ <-. destruct Hin. }
  destruct (to_srv =? 0).
  { apply Done_inj in H. injection H as _ _ <-. destruct Hin. }
  destruct (req_len f <? 6).
  { apply Done_inj in H. injection H as _ _ <-. destruct Hin. }
  apply bind_done in H. destruct H as (msg_length & _ & H).
  apply bind_done in H. destruct H as (fragment_len & _ & H).
  apply bind_done in H. destruct H as (is_v2 & _ & H).
  destruct is_v2.
  - destruct (req_len f <? _).
    { apply Done_inj in H. injection H as _ _ <-. destruct Hin. }
    apply bind_done in H. destruct H as ([success sig] & _ & H).
    destruct (process_result_calls _ _ _ _ _ _ _ _ _ _ _ H Hin) as [Hc | Hobs].
    + destruct Hc as [Hc | []]. discriminate Hc.
    + destruct Hobs.
  - apply bind_done in H. destruct H as (is_v3 & Hv3 & H).
    destruct is_v3.
    + apply mand_true in Hv3. destruct Hv3 as (_ & Hv3).
      apply mand_true in Hv3. destruct Hv3 as (_ & Hv3).
      apply mand_true in Hv3. destruct Hv3 as (_ & Hv3).
      apply mand_true in Hv3. destruct Hv3 as (Hgt & _).
      apply Done_inj in Hgt.
      destruct (Z.gtb_spec fragment_len 3) as [Hgt3 |]; [| discriminate].
      destruct (Z.ltb_spec (req_len f) (sizeof_ssl3_record_hdr + fragment_len))
        as [| Hbuffered].
      { apply Done_inj in H. injection H as _ _ <-. destruct Hin. }
      apply bind_done in H. destruct H as (ver_maj & _ & H).
      apply bind_done in H. destruct H as (ver_min & _ & H).
      apply bind_done in H. destruct H as ([success sig] & _ & H).
      destruct (process_result_calls _ _ _ _ _ _ _ _ _ _ _ H Hin) as [Hc | Hobs].
      * destruct Hc as [Hc | []]. apply CallV3_inj in Hc.
        destruct Hc as (<- & <- & <- & <-).
        split; [lia |]. split; [lia |]. split; [reflexivity |].
        rewrite length_skipn. unfold sizeof_ssl3_record_hdr in *. lia.
      * destruct Hobs.
    + destruct (process_result_calls _ _ _ _ _ _ _ _ _ _ _ H Hin) as [[] | Hobs].
      destruct Hobs.
Qed.

(** *** The engine returns *)

(** Within the buffer the SSLv2 cipher loop runs to [tmp_end]. *)
Lemma v2_cipher_loop_done fuel buf tmp_end : forall pay acc,
  0 <= pay <= tmp_end -> tmp_end <= Z.of_nat (length buf) ->
  (tmp_end - pay) mod 3 = 0 -> tmp_end - pay <= Z.of_nat fuel ->
  exists cs, v2_cipher_loop fuel buf pay tmp_end acc = Done (cs, tmp_end).
Proof.
  induction fuel as [| fuel IH]; intros pay acc Hpay Hend Hmod Hfuel.
  - cbn [v2_cipher_loop]. destruct (Z.ltb_spec pay tmp_end); [lia |].
    exists acc. do 2 f_equal. lia.
  - cbn [v2_cipher_loop]. destruct (Z.ltb_spec pay tmp_end) as [Hlt | Hge].
    + assert (pay + 3 <= tmp_end).
      { destruct (Z.eq_dec (tmp_end - pay) 1) as [E | E1];
          [rewrite E in Hmod; discriminate |].
        destruct (Z.eq_dec (tmp_end - pay) 2) as [E | E2];
          [rewrite E in Hmod; discriminate | lia]. }
      destruct (rd24_in_bounds buf pay) as (c & ->); [lia | lia |].
      cbn [bind]. apply IH; try lia.
      replace (tmp_end - (pay + 3)) with (tmp_end - pay + (-1) * 3) by lia.
      rewrite Z.mod_add by lia. exact Hmod.
    + exists acc. do 2 f_equal. lia.
Qed.

(** With the declared bytes in the buffer the SSLv2 dissector reads within
    the buffer and returns. *)
Lemma fingerprint_ssl_v2_returns sig buf pay_len :
  pay_len <= Z.of_nat (length buf) ->
  exists r, fingerprint_ssl_v2 sig buf pay_len = Done r.
Proof.
  intros Hbuf. unfold fingerprint_ssl_v2, too_short, v2_truncated. cbv zeta.
  change (0 + sizeof_ssl2_hdr) with 11.
  change (0 + ssl2_ver_min) with 4. change (0 + ssl2_ver_maj) with 3.
  change (0 + ssl2_cipher_spec_length) with 5.
  change (0 + ssl2_session_id_length) with 7.
  change (0 + ssl2_challenge_length) with 9.
  change (0 + pay_len) with pay_len.
  destruct (Z.gtb_spec 11 pay_len) as [| Hhdr]; [eexists; reflexivity |].
  destruct (rd_in_bounds buf 4) as (ver_min & _ & ->); [lia |].
  destruct (rd_in_bounds buf 3) as (ver_maj & _ & ->); [lia |].
  destruct (rd16_in_bounds buf 5) as (c1 & c0 & _ & _ & ->); [lia | lia |].
  cbn [bind]. fold (be16 c1 c0). pose proof (be16_range c1 c0) as Hcs.
  destruct (Z.eqb_spec (be16 c1 c0 mod 3) 0) as [Hmod |];
    [| eexists; reflexivity].
  cbn [negb].
  destruct (Z.gtb_spec (11 + be16 c1 c0) pay_len) as [| Hfit];
    [eexists; reflexivity |].
  destruct (v2_cipher_loop_done (Z.to_nat (be16 c1 c0)) buf (11 + be16 c1 c0)
              11 []) as (cs & ->); try lia.
  { replace (11 + be16 c1 c0 - 11) with (be16 c1 c0) by lia. exact Hmod. }
  cbn [bind].
  destruct (rd16_in_bounds buf 7) as (s1 & s0 & _ & _ & ->); [lia | lia |].
  destruct (rd16_in_bounds buf 9) as (h1 & h0 & _ & _ & ->); [lia | lia |].
  cbn [bind]. destruct (_ >? _); eexists; reflexivity.
Qed.

Lemma ldiff_bound a b : 0 <= a -> 0 <= Z.ldiff a b <= a.
Proof.
  intros Ha. split; [apply Z.ldiff_nonneg; left; exact Ha |].
  assert (Hdisj : Z.land (Z.ldiff a b) (Z.land a b) = 0).
  { apply Z.bits_inj'. intros n Hn.
    rewrite !Z.land_spec, Z.ldiff_spec, Z.bits_0.
    destruct (Z.testbit a n), (Z.testbit b n); reflexivity. }
  pose proof (Z.add_lor_land (Z.ldiff a b) (Z.land a b)) as Hadd.
  rewrite Hdisj, Z.lor_ldiff_and in Hadd.
  assert (0 <= Z.land a b) by (apply Z.land_nonneg; left; exact Ha). lia.
Qed.

Lemma fingerprint_ssl_v2_matched sig0 buf pay_len sig :
  fingerprint_ssl_v2 sig0 buf pay_len = Done (1, sig) ->
  matched sig = matched sig0 /\ arrays_set sig.
Proof.
  intros H. apply fingerprint_ssl_v2_success in H.
  destruct H as (ver_min & ver_maj & csl & cs & pay' & _ & _ & _ & _ & _ & _ & ->).
  split; [| split; discriminate].
  destruct ((ver_min =? 2) && (ver_maj =? 0)); reflexivity.
Qed.

Lemma v3_request_version_matched sig ver rv :
  matched (v3_request_version sig ver rv) = matched sig.
Proof.
  unfold v3_request_version. cbv zeta. destruct (negb _); reflexivity.
Qed.

Lemma v3_remote_time_matched sig time lt :
  matched (v3_remote_time sig time lt) = matched sig.
Proof.
  unfold v3_remote_time. cbv zeta.
  destruct (_ <? _); [reflexivity |]. destruct (_ >? _); reflexivity.
Qed.

Lemma compression_loop_matched fuel buf tmp_end : forall pay sig sig' pay',
  compression_loop fuel buf pay tmp_end sig = Done (sig', pay') ->
  matched sig' = matched sig.
Proof.
  induction fuel as [| fuel IH]; intros pay sig sig' pay' H.
  - cbn [compression_loop] in H. destruct (pay <? tmp_end); [discriminate |].
    apply Done_inj in H. injection H as <- _. reflexivity.
  - cbn [compression_loop] in H. destruct (pay <? tmp_end).
    + apply bind_done in H. destruct H as (m & _ & H).
      apply IH in H. rewrite H. destruct (m =? 1); reflexivity.
    + apply Done_inj in H. injection H as <- _. reflexivity.
Qed.

Lemma v3_truncated_matched s r sig' :
  v3_truncated s = Done (r, sig') -> matched sig' = matched s.
Proof.
  unfold v3_truncated. intros H. apply Done_inj in H. injection H as _ <-.
  destruct (extensions s); reflexivity.
Qed.

Lemma v3_compression_extensions_matched sig buf pay pay_end r sig' :
  v3_compression_extensions sig buf pay pay_end = Done (r, sig') ->
  matched sig' = matched sig.
Proof.
  unfold v3_compression_extensions. intros H.
  destruct (pay + 1 >? pay_end); [apply (v3_truncated_matched _ _ _ H) |].
  apply bind_done in H. destruct H as (cml & _ & H).
  destruct (pay + 1 + cml >? pay_end); [apply (v3_truncated_matched _ _ _ H) |].
  apply bind_done in H. destruct H as ([sig1 pay1] & Hloop & H).
  apply compression_loop_matched in Hloop. rewrite <- Hloop.
  destruct (pay1 + 2 >? pay_end); [apply (v3_truncated_matched _ _ _ H) |].
  apply bind_done in H. destruct H as (el & _ & H).
  destruct (pay1 + 2 + el >? pay_end); [apply (v3_truncated_matched _ _ _ H) |].
  apply bind_done in H. destruct H as ([es pay2] & _ & H).
  apply v3_truncated_matched in H. exact H.
Qed.

Lemma fingerprint_ssl_v3_matched sig0 fragment frag_len rv lt sig :
  fingerprint_ssl_v3 sig0 fragment frag_len rv lt = Done (1, sig) ->
  matched sig = matched sig0.
Proof.
  unfold fingerprint_ssl_v3, too_short. cbv zeta. intros H.
  apply bind_done in H. destruct H as (msg_len & _ & H).
  destruct (_ >? _); [discriminate |].
  apply bind_done in H. destruct H as (mt & _ & H).
  destruct (negb _); [discriminate |].
  destruct (_ >? _); [discriminate |].
  apply bind_done in H. destruct H as (ver & _ & H).
  apply bind_done in H. destruct H as (time & _ & H).
  apply bind_done in H. destruct H as (sid & _ & H).
  destruct (_ >? _); [discriminate |].
  apply bind_done in H. destruct H as (csl & _ & H).
  destruct (negb _); [discriminate |].
  destruct (_ >? _); [discriminate |].
  apply bind_done in H. destruct H as ([cs pay] & _ & H).
  apply v3_compression_extensions_matched in H. rewrite H.
  cbn [matched set_cipher_suites].
  rewrite v3_remote_time_matched. apply v3_request_version_matched.
Qed.

(** The search returns, with the signature as it was or with [matched]
    pointing into the table. *)
Lemma find_loop_returns todo : forall i ts,
  Forall (fun r => arrays_set (rec_sig r)) todo -> arrays_set ts ->
  find_loop todo i ts = Done ts
  \/ exists n, (n < length todo)%nat
               /\ find_loop todo i ts = Done (set_matched ts (Some (i + n)%nat)).
Proof.
  induction todo as [| ref todo IH]; intros i ts Hdb Hts; [left; reflexivity |].
  inversion Hdb as [| ? ? Href Hdb']; subst.
  destruct (candidate (rec_sig ref) ts) eqn:Hc.
  - right. exists 0%nat. split; [cbn [length]; lia |].
    rewrite Nat.add_0_r. apply find_loop_hit; assumption.
  - rewrite find_loop_skip by assumption.
    destruct (IH (S i) ts Hdb' Hts) as [H | (n & Hn & H)]; [left; exact H |].
    right. exists (S n). split; [cbn [length]; lia |].
    rewrite H. do 3 f_equal. lia.
Qed.

Lemma dump_sig_returns s : arrays_set s -> exists txt, dump_sig s = Done txt.
Proof.
  intros [Hc He]. unfold dump_sig.
  destruct (cipher_suites s); [| congruence].
  destruct (extensions s); [| congruence].
  eexists. reflexivity.
Qed.

Lemma fingerprint_ssl_returns signatures fp_os_names to_srv sig :
  registered signatures -> arrays_set sig -> matched sig = None ->
  exists evs, fingerprint_ssl signatures fp_os_names to_srv sig = Done evs.
Proof.
  intros Hreg Hsig Hnone. pose proof (registered_arrays _ Hreg) as Hdb.
  unfold fingerprint_ssl.
  assert (Hfind : exists sig',
            (if negb (to_srv =? 0) then ssl_find_match signatures sig
             else Done sig) = Done sig'
            /\ arrays_set sig'
            /\ (matched sig' = None
                \/ exists i, (i < length signatures)%nat
                             /\ matched sig' = Some i)).
  { destruct (negb (to_srv =? 0)).
    - unfold ssl_find_match.
      destruct (find_loop_returns signatures 0%nat sig Hdb Hsig)
        as [-> | (n & Hn & ->)].
      + exists sig. repeat split; try apply Hsig. left. exact Hnone.
      + eexists. split; [reflexivity |]. split; [exact Hsig |].
        right. exists n. split; [exact Hn | reflexivity].
    - exists sig. repeat split; try apply Hsig. left. exact Hnone. }
  destruct Hfind as (sig' & -> & Hsig' & Hm). cbn [bind].
  destruct (dump_sig_returns sig' Hsig') as (raw & Hraw).
  destruct Hm as [-> | (i & Hi & ->)].
  - cbn [bind]. rewrite Hraw. eexists. reflexivity.
  - destruct (nth_error signatures i) as [m |] eqn:Em.
    + rewrite Forall_forall in Hdb.
      destruct (dump_sig_returns (rec_sig m)
                  (Hdb m (nth_error_In _ _ Em))) as (ms & ->).
      cbn [bind]. rewrite Hraw. eexists. reflexivity.
    + apply nth_error_None in Em. lia.
Qed.

Lemma process_result_returns signatures fp_os_names to_srv f success sig calls :
  registered signatures ->
  (success = 1 -> arrays_set sig /\ matched sig = None) ->
  exists r, process_result signatures fp_os_names to_srv f success sig calls
            = Done r.
Proof.
  intros Hreg Hsig. unfold process_result.
  destruct (Z.eqb_spec success 1) as [E |]; cbn [negb]; [| eexists; reflexivity].
  destruct (Hsig E) as [Ha Hm].
  destruct (fingerprint_ssl_returns signatures fp_os_names to_srv sig Hreg Ha Hm)
    as (evs & ->).
  eexists. reflexivity.
Qed.

(** On a table built by registrations and a flow whose buffer holds its
    [req_len] bytes, [process_ssl] reads within the buffer and returns. *)
Lemma process_ssl_returns signatures fp_os_names to_srv f :
  registered signatures ->
  req_len f <= Z.of_nat (length (request f)) ->
  exists r, process_ssl signatures fp_os_names to_srv f = Done r.
Proof.
  intros Hreg Hinv. unfold process_ssl. cbv zeta.
  destruct (negb (in_ssl f =? 0)); [eexists; reflexivity |].
  destruct (to_srv =? 0); [eexists; reflexivity |].
  destruct (Z.ltb_spec (req_len f) 6) as [| Hsix]; [eexists; reflexivity |].
  unfold ssl2_msg_length, ssl3_rec_length, ssl2_msg_type, ssl2_ver_maj,
    ssl2_ver_min, ssl3_content_type, ssl3_ver_maj, ssl3_ver_min.
  destruct (rd16_in_bounds (request f) 0) as (m1 & m0 & _ & _ & ->); [lia | lia |].
  destruct (rd16_in_bounds (request f) 3) as (l1 & l0 & _ & _ & ->); [lia | lia |].
  cbn [bind]. fold (be16 m1 m0). fold (be16 l1 l0).
  pose proof (be16_range m1 m0) as Hm. pose proof (be16_range l1 l0) as Hl.
  destruct (rd_in_bounds (request f) 0) as (b0 & _ & H0); [lia |].
  destruct (rd_in_bounds (request f) 1) as (b1 & _ & H1); [lia |].
  destruct (rd_in_bounds (request f) 2) as (b2 & _ & H2); [lia |].
  destruct (rd_in_bounds (request f) 3) as (b3 & _ & H3); [lia |].
  destruct (rd_in_bounds (request f) 4) as (b4 & _ & H4); [lia |].
  destruct (rd_in_bounds (request f) 5) as (b5 & _ & H5); [lia |].
  unfold test. rewrite H0, H1, H2, H3, H4, H5. cbn [bind].
  match goal with
  | |- exists r, bind ?m _ = Done r =>
      assert (Hv2 : exists b, m = Done b)
  end.
  { unfold mand, mor. cbn [bind].
    repeat match goal with
           | |- context [if ?c then _ else _] => destruct c; cbn [bind]
           end; eexists; reflexivity. }
  destruct Hv2 as (is_v2 & ->). cbn [bind]. destruct is_v2.
  - assert (Hlen : 0 <= Z.land (be16 m1 m0) (Z.lnot 32768) <= be16 m1 m0).
    { rewrite <- Z.ldiff_land. apply ldiff_bound. lia. }
    destruct (Z.ltb_spec (req_len f) (2 + Z.land (be16 m1 m0) (Z.lnot 32768)))
      as [| Hbuffered]; [eexists; reflexivity |].
    destruct (fingerprint_ssl_v2_returns
                (set_flags zero_sig (Z.lor (flags zero_sig) SSL_FLAG_V2))
                (request f) (Z.land (be16 m1 m0) (Z.lnot 32768) + 2))
      as ([success sig] & Hrun); [lia |].
    rewrite Hrun. cbn [bind].
    apply process_result_returns; [exact Hreg |].
    intros ->. apply fingerprint_ssl_v2_matched in Hrun.
    destruct Hrun as [Hm' Ha]. split; [exact Ha | rewrite Hm'; reflexivity].
  - match goal with
    | |- exists r, bind ?m _ = Done r =>
        assert (Hv3 : exists b, m = Done b
                                /\ (b = true -> (be16 l1 l0 >? 3) = true))
    end.
    { unfold mand. cbn [bind].
      repeat match goal with
             | |- context [if ?c then _ else _] =>
                 destruct c eqn:?; cbn [bind]
             end; eexists; (split; [reflexivity | congruence]). }
    destruct Hv3 as (is_v3 & -> & Hgt). cbn [bind]. destruct is_v3.
    + specialize (Hgt eq_refl).
      destruct (Z.gtb_spec (be16 l1 l0) 3) as [Hgt3 |]; [| discriminate].
      destruct (Z.ltb_spec (req_len f) (sizeof_ssl3_record_hdr + be16 l1 l0))
        as [| Hbuffered]; [eexists; reflexivity |].
      cbn [bind]. unfold sizeof_ssl3_record_hdr in *.
      destruct (fingerprint_ssl_v3_returns zero_sig
                  (skipn (Z.to_nat 5) (request f)) (be16 l1 l0)
                  (Z.lor (Z.shiftl (u8_of b1) 8) (u8_of b2)) (last_seen f))
        as ([success sig] & Hrun); [lia | rewrite length_skipn; lia |].
      rewrite Hrun. cbn [bind].
      apply process_result_returns; [exact Hreg |].
      intros ->. split.
      * apply fingerprint_ssl_v3_success in Hrun; [| reflexivity].
        destruct Hrun as (cs & es & Hc & He & _).
        split; congruence.
      * apply fingerprint_ssl_v3_matched in Hrun. rewrite Hrun. reflexivity.
    + apply process_result_returns; [exact Hreg |]. discriminate.
Qed.

(** C10: the SSLv3 dissector reads the length bytes of the handshake header
    before any check (a buffer of fewer than four bytes is read out of
    bounds).  On a table built by registrations and a flow whose buffer
    holds its [req_len] bytes the engine returns, and it has called the
    dissector only with a fragment length above 3 of which that many bytes
    are buffered; for every such call the reads of the four header bytes
    are within the buffer and the dissector returns. *)
Theorem v3_header_read_in_bounds signatures fp_os_names to_srv f :
  registered signatures ->
  req_len f <= Z.of_nat (length (request f)) ->
  (exists ret f' evs,
      process_ssl signatures fp_os_names to_srv f = Done (ret, f', evs)
      /\ forall fragment frag_len record_version local_time,
           In (CallV3 fragment frag_len record_version local_time) evs ->
           3 < frag_len
           /\ sizeof_ssl3_record_hdr + frag_len <= req_len f
           /\ fragment = skipn (Z.to_nat sizeof_ssl3_record_hdr) (request f)
           /\ frag_len <= Z.of_nat (length fragment)
           /\ (exists msg_len message_type,
                  rd24 fragment ssl3_length = Done msg_len
                  /\ rd fragment ssl3_message_type = Done message_type)
           /\ (forall sig, exists r,
                  fingerprint_ssl_v3 sig fragment frag_len record_version
                                     local_time = Done r))
  /\ (forall sig short len rv lt,
         (length short < 4)%nat ->
         fingerprint_ssl_v3 sig short len rv lt = Abort OutOfBounds).
Proof.
  intros Hreg Hinv. split.
  - destruct (process_ssl_returns signatures fp_os_names to_srv f Hreg Hinv)
      as ([[ret f'] evs] & Hrun).
    exists ret, f', evs. split; [exact Hrun |].
    intros fragment frag_len rv lt Hin.
    pose proof (process_ssl_dispatch_v3 _ _ _ _ _ _ _ _ _ _ _ Hinv Hrun Hin)
      as (Hgt & Hbuf & Hfrag & Hlen).
    repeat (split; [assumption |]). split.
    + destruct (rd24_in_bounds fragment 1) as (msg_len & Hml); [lia | lia |].
      destruct (rd_in_bounds fragment 0) as (mt & _ & Hmt); [lia |].
      exists msg_len, (u8_of mt). split; assumption.
    + intros sig. apply fingerprint_ssl_v3_returns; lia.
  - intros sig short len rv lt Hshort.
    apply fingerprint_ssl_v3_unguarded, Hshort.
Qed.

End Engine.

(** ** The rendered signature *)

Section Rendering.
Context {K : ssl_consts} (HK : consts_ok K).














End Rendering.



(** ** The decoder *)

Section Decoder.
Context {K : ssl_consts}.

Lemma xdigit_code c :
  is_xdigit c = true ->
  48 <= code c <= 57 \/ 97 <= code c <= 102 \/ 65 <= code c <= 70.
Proof.
  unfold is_xdigit, is_digit_in, digit_val.
  destruct (Z.leb_spec 48 (code c)), (Z.leb_spec (code c) 57); cbn [andb];
    try (intros _; lia);
    destruct (Z.leb_spec 97 (code c)), (Z.leb_spec (code c) 122); cbn [andb];
    try (destruct (Z.ltb_spec (code c - 87) 16); intros; try discriminate; lia);
    destruct (Z.leb_spec 65 (code c)), (Z.leb_spec (code c) 90); cbn [andb];
    try (destruct (Z.ltb_spec (code c - 55) 16); intros; try discriminate; lia);
    discriminate.
Qed.

Lemma xdigit_val c :
  is_xdigit c = true -> exists d, digit_val c = Some d /\ 0 <= d < 16.
Proof.
  unfold is_xdigit, is_digit_in. intros H.
  destruct (digit_val c) as [d |] eqn:E; [| discriminate].
  exists d. split; [reflexivity |].
  destruct (Z.ltb_spec d 16); [| discriminate]. split; [| assumption].
  unfold digit_val in E.
  destruct (Z.leb_spec 48 (code c)), (Z.leb_spec (code c) 57); cbn [andb] in E;
    try (injection E as <-; lia);
    destruct (Z.leb_spec 97 (code c)), (Z.leb_spec (code c) 122); cbn [andb] in E;
    try (injection E as <-; lia);
    destruct (Z.leb_spec 65 (code c)), (Z.leb_spec (code c) 90); cbn [andb] in E;
    try (injection E as <-; lia); discriminate.
Qed.

Lemma xdigit_not c c' :
  is_xdigit c = true -> is_xdigit c' = false -> Ascii.eqb c c' = false.
Proof.
  intros Hc Hc'. destruct (Ascii.eqb_spec c c') as [-> |]; congruence.
Qed.

Lemma xdigit_not_space c : is_xdigit c = true -> c_isspace c = false.
Proof.
  intros H. apply xdigit_code in H. unfold c_isspace.
  destruct (Z.eqb_spec (code c) 32); [lia |].
  destruct (Z.leb_spec 9 (code c)), (Z.leb_spec (code c) 13); cbn; lia || reflexivity.
Qed.

Lemma boundary_not_xdigit r : boundary r -> is_xdigit (peek r) = false.
Proof. intros [-> | [-> | ->]]; reflexivity. Qed.

Lemma strtol_digits_hex ds : forall rest acc,
  Forall (fun c => is_xdigit c = true) ds -> boundary rest ->
  strtol_digits 16 (ds ++ rest) acc = (hex_value ds acc, rest).
Proof.
  induction ds as [| c ds IH]; intros rest acc Hds Hrest.
  - cbn [app hex_value]. apply boundary_not_xdigit in Hrest.
    destruct rest as [| r rest]; [reflexivity |].
    cbn [strtol_digits]. cbn [peek hd] in Hrest.
    unfold is_xdigit, is_digit_in in Hrest.
    destruct (digit_val r) as [d |]; [| reflexivity].
    rewrite Hrest. reflexivity.
  - inversion Hds as [| ? ? Hc Hds']; subst.
    cbn [app strtol_digits hex_value].
    unfold is_xdigit, is_digit_in in Hc.
    destruct (digit_val c) as [d |]; [| discriminate].
    rewrite Hc. apply IH; assumption.
Qed.

(** [strtol] on a run of hex digits followed by a boundary. *)
Lemma strtol_hex ds rest :
  ds <> [] -> Forall (fun c => is_xdigit c = true) ds -> boundary rest ->
  strtol (ds ++ rest) 16
  = (Z.max LONG_MIN (Z.min LONG_MAX (hex_value ds 0)), rest).
Proof.
  intros Hne Hds Hrest.
  destruct ds as [| c ds]; [congruence |].
  inversion Hds as [| ? ? Hc Hds']; subst.
  unfold strtol. cbn [app skip_space].
  rewrite (xdigit_not_space c Hc).
  rewrite (xdigit_not c "-" Hc eq_refl), (xdigit_not c "+" Hc eq_refl).
  match goal with
  | |- context [strtol_digits 16 ?s 0] =>
      assert (Hprefix : s = c :: ds ++ rest)
  end.
  { destruct (ds ++ rest) as [| x [| d l]] eqn:E; try reflexivity.
    assert (Hx : Ascii.eqb x "x" || Ascii.eqb x "X" = false).
    { destruct ds as [| c2 ds].
      - cbn [app] in E. subst rest. unfold boundary in Hrest.
        cbn [peek hd] in Hrest.
        destruct Hrest as [-> | [-> | ->]]; reflexivity.
      - cbn [app] in E. injection E as <- _.
        inversion Hds' as [| ? ? Hc2 _]; subst.
        rewrite (xdigit_not c2 "x" Hc2 eq_refl), (xdigit_not c2 "X" Hc2 eq_refl).
        reflexivity. }
    rewrite Hx, andb_false_r. reflexivity. }
  rewrite Hprefix.
  change (c :: ds ++ rest) with ((c :: ds) ++ rest).
  rewrite (strtol_digits_hex (c :: ds) rest 0 Hds Hrest).
  rewrite length_app. cbn [length].
  destruct (Nat.eqb_spec (length rest) (S (length ds) + length rest)); [lia |].
  reflexivity.
Qed.

Lemma hex_value_nonneg ds : forall acc,
  Forall (fun c => is_xdigit c = true) ds -> 0 <= acc -> 0 <= hex_value ds acc.
Proof.
  induction ds as [| c ds IH]; intros acc Hds Hacc; [exact Hacc |].
  inversion Hds as [| ? ? Hc Hds']; subst. cbn [hex_value].
  destruct (xdigit_val c Hc) as (d & -> & Hd). apply IH; [assumption | lia].
Qed.

Lemma decode_number_hex optional ds rest :
  ds <> [] -> Forall (fun c => is_xdigit c = true) ds -> boundary rest ->
  decode_number optional (ds ++ rest)
  = Some (Z.lor (Z.land (Z.min LONG_MAX (hex_value ds 0)) 0xFFFFFF) optional, rest).
Proof.
  intros Hne Hds Hrest. unfold decode_number.
  rewrite (strtol_hex ds rest Hne Hds Hrest).
  rewrite length_app.
  destruct (Nat.eqb_spec (length rest) (length ds + length rest)) as [E |].
  - destruct ds; [congruence | cbn [length] in E; lia].
  - rewrite Z.max_r; [reflexivity |].
    pose proof (hex_value_nonneg ds 0 Hds (Z.le_refl 0)).
    unfold LONG_MIN, LONG_MAX. lia.
Qed.

(** State 1 of the decoder on a token of the grammar. *)
Lemma decode_value_token t rest :
  token_ok t -> boundary rest ->
  decode_value (token_text t ++ rest) = Some (token_word t, rest).
Proof.
  intros Hok Hrest. destruct t as [| ds | ds]; cbn [token_ok] in Hok.
  - reflexivity.
  - destruct Hok as [Hne Hds]. unfold decode_value.
    cbn [token_text app peek hd tl].
    change (Ascii.eqb "?" "*") with false. change (Ascii.eqb "?" "?") with true.
    cbn iota. apply decode_number_hex; assumption.
  - destruct Hok as [Hstart Hds].
    destruct ds as [| c ds]; [discriminate Hstart |].
    cbn [peek hd] in Hstart. unfold decode_value.
    cbn [token_text app peek hd].
    inversion Hds as [| ? ? Hc _]; subst.
    rewrite (xdigit_not c "*" Hc eq_refl), (xdigit_not c "?" Hc eq_refl).
    rewrite Hstart.
    change (c :: ds ++ rest) with ((c :: ds) ++ rest).
    rewrite decode_number_hex; try assumption; [| discriminate].
    rewrite Z.lor_0_r. reflexivity.
Qed.

Lemma terminated_boundary rest : terminated rest -> boundary rest.
Proof. intros [H | H]; [right; left | right; right]; exact H. Qed.

(** The loop on a sequence of the grammar: with room for all its tokens it
    returns their words, with less room it ends in the fatal error. *)
Lemma decode_loop_sequence ts : forall room rec rest,
  ts <> [] -> Forall token_ok ts -> terminated rest ->
  ((length ts <= room)%nat ->
     decode_loop room (sequence_text ts ++ rest) rec
     = Done (Some (rec ++ map token_word ts ++ [END_MARKER], rest)))
  /\ ((room < length ts)%nat ->
        decode_loop room (sequence_text ts ++ rest) rec = Abort Fatal).
Proof.
  induction ts as [| t ts IH]; intros room rec rest Hne Hok Hterm; [congruence |].
  inversion Hok as [| ? ? Ht Hok']; subst.
  destruct room as [| room].
  { split; [cbn [length]; lia | reflexivity]. }
  destruct ts as [| t' ts].
  - (* the last token *)
    cbn [sequence_text length map app]. split; [intros _ | lia].
    cbn [decode_loop].
    rewrite (decode_value_token t rest Ht (terminated_boundary rest Hterm)).
    assert (Hpeek : Ascii.eqb (peek rest) ":" || Ascii.eqb (peek rest) zero = true).
    { destruct Hterm as [-> | ->]; reflexivity. }
    rewrite Hpeek. rewrite <- app_assoc. reflexivity.
  - (* a token and a comma *)
    change (sequence_text (t :: t' :: ts))
      with (token_text t ++ ","%char :: sequence_text (t' :: ts)).
    rewrite <- app_assoc. cbn [app]. cbn [decode_loop].
    rewrite (decode_value_token t _ Ht) by (left; reflexivity).
    cbn [peek hd tl].
    change (Ascii.eqb "," ":" || Ascii.eqb "," zero) with false.
    change (Ascii.eqb "," ",") with true. cbn iota.
    destruct (IH room (rec ++ [token_word t]) rest) as [Hfit Hfatal];
      try assumption; [discriminate |].
    split; intros Hlen.
    + rewrite Hfit by (cbn [length] in *; lia).
      rewrite <- app_assoc. reflexivity.
    + apply Hfatal. cbn [length] in *. lia.
Qed.

Lemma in_firstn {A : Type} (x : A) n l : In x (firstn n l) -> In x l.
Proof.
  intros H. rewrite <- (firstn_skipn n l). apply in_or_app. left. exact H.
Qed.

Lemma token_ok_grammatical t : token_ok t -> token_grammatical t.
Proof.
  destruct t as [| ds | ds]; cbn [token_ok token_grammatical]; try tauto.
  intros [Hstart Hds]. split; [| exact Hds]. intros ->. discriminate Hstart.
Qed.

(** A token of the grammar is one that the first switch lets through, or a
    value token whose first hex digit is an upper-case letter. *)
Lemma token_grammatical_cases t :
  token_grammatical t ->
  token_ok t
  \/ exists c ds, t = TokValue (c :: ds) /\ is_xdigit c = true
                  /\ is_value_start c = false.
Proof.
  destruct t as [| ds | ds]; cbn [token_ok token_grammatical].
  - left. exact I.
  - left. assumption.
  - intros [Hne Hds]. destruct ds as [| c ds]; [congruence |].
    inversion Hds as [| ? ? Hc _]; subst.
    destruct (is_value_start c) eqn:E.
    + left. split; [exact E | exact Hds].
    + right. exists c, ds. auto.
Qed.

Lemma tokens_ok_or_not l :
  Forall token_grammatical l -> Forall token_ok l \/ ~ Forall token_ok l.
Proof.
  induction 1 as [| t l Ht _ IH]; [left; constructor |].
  destruct IH as [IH | IH].
  - destruct (token_grammatical_cases t Ht) as [Hok | (c & ds & -> & _ & Hs)].
    + left. constructor; assumption.
    + right. intros H. inversion H as [| ? ? Hh _]; subst.
      destruct Hh as [Hstart _]. cbn [peek hd] in Hstart. congruence.
  - right. intros H. inversion H; subst. contradiction.
Qed.

(** The default case of the first switch. *)
Lemma decode_value_upper c ds rest :
  is_xdigit c = true -> is_value_start c = false ->
  decode_value (c :: ds ++ rest) = None.
Proof.
  intros Hc Hs. unfold decode_value. cbn [peek hd].
  rewrite (xdigit_not c "*" Hc eq_refl), (xdigit_not c "?" Hc eq_refl), Hs.
  reflexivity.
Qed.

(** With more tokens than room, the loop ends in the fatal error once the
    tokens it has room for are decoded; it does not look at the others. *)
Lemma decode_loop_fatal ts : forall room rec rest,
  (room < length ts)%nat -> Forall token_ok (firstn room ts) ->
  decode_loop room (sequence_text ts ++ rest) rec = Abort Fatal.
Proof.
  induction ts as [| t ts IH]; intros room rec rest Hlen Hok;
    [cbn [length] in Hlen; lia |].
  destruct room as [| room]; [reflexivity |].
  cbn [firstn] in Hok. inversion Hok as [| ? ? Ht Hok']; subst.
  destruct ts as [| t' ts]; [cbn [length] in Hlen; lia |].
  change (sequence_text (t :: t' :: ts))
    with (token_text t ++ ","%char :: sequence_text (t' :: ts)).
  rewrite <- app_assoc. cbn [app]. cbn [decode_loop].
  rewrite (decode_value_token t _ Ht) by (left; reflexivity).
  cbn [peek hd tl].
  change (Ascii.eqb "," ":" || Ascii.eqb "," zero) with false.
  change (Ascii.eqb "," ",") with true. cbn iota.
  apply IH; [cbn [length] in *; lia | exact Hok'].
Qed.

(** A token that the first switch refuses, among those the loop has room
    for, makes the decoder return NULL. *)
Lemma decode_loop_refused ts : forall room rec rest,
  Forall token_grammatical ts -> ~ Forall token_ok (firstn room ts) ->
  decode_loop room (sequence_text ts ++ rest) rec = Done None.
Proof.
  induction ts as [| t ts IH]; intros room rec rest Hg Hbad.
  { exfalso. apply Hbad. rewrite firstn_nil. constructor. }
  destruct room as [| room]; [exfalso; apply Hbad; constructor |].
  inversion Hg as [| ? ? Ht Hg']; subst. cbn [firstn] in Hbad.
  destruct (token_grammatical_cases t Ht) as [Hok | (c & ds & -> & Hc & Hs)].
  - assert (Hbad' : ~ Forall token_ok (firstn room ts))
      by (intros H; apply Hbad; constructor; assumption).
    destruct ts as [| t' ts];
      [exfalso; apply Hbad'; rewrite firstn_nil; constructor |].
    change (sequence_text (t :: t' :: ts))
      with (token_text t ++ ","%char :: sequence_text (t' :: ts)).
    rewrite <- app_assoc. cbn [app]. cbn [decode_loop].
    rewrite (decode_value_token t _ Hok) by (left; reflexivity).
    cbn [peek hd tl].
    change (Ascii.eqb "," ":" || Ascii.eqb "," zero) with false.
    change (Ascii.eqb "," ",") with true. cbn iota.
    apply IH; assumption.
  - cbn [decode_loop].
    assert (E : exists tail, sequence_text (TokValue (c :: ds) :: ts) ++ rest
                             = c :: ds ++ tail).
    { destruct ts as [| t' ts].
      - exists rest. reflexivity.
      - exists (","%char :: sequence_text (t' :: ts) ++ rest).
        change (sequence_text (TokValue (c :: ds) :: t' :: ts))
          with ((c :: ds) ++ ","%char :: sequence_text (t' :: ts)).
        rewrite <- app_assoc. reflexivity. }
    destruct E as (tail & ->).
    rewrite (decode_value_upper c ds tail Hc Hs). reflexivity.
Qed.

(** C8 (amended): on a comma separated sequence of tokens of the grammar,
    followed by [':'] or the end of the string.  When every token without
    question mark starts with a digit or a lower-case a to f,
    [decode_hex_string] returns the words of the tokens and their terminator
    for at most 128 tokens, and ends in the fatal error for more; the fatal
    error needs only the first 128 tokens to be of this kind.  When one of
    the first 128 tokens starts with an upper-case hex digit the result is
    NULL, however many tokens there are.  So the fatal path is reached
    exactly when there are more than 128 tokens and the first switch lets
    the first 128 through. *)
Theorem decode_token_bound ts rest :
  ts <> [] -> terminated rest ->
  (Forall token_ok ts -> (length ts <= 128)%nat ->
     decode_hex_string (sequence_text ts ++ rest)
     = Done (Some (map token_word ts ++ [END_MARKER], rest)))
  /\ (Forall token_ok (firstn 128 ts) -> (128 < length ts)%nat ->
        decode_hex_string (sequence_text ts ++ rest) = Abort Fatal)
  /\ (Forall token_grammatical ts -> ~ Forall token_ok (firstn 128 ts) ->
        decode_hex_string (sequence_text ts ++ rest) = Done None)
  /\ (Forall token_grammatical ts ->
        (decode_hex_string (sequence_text ts ++ rest) = Abort Fatal
         <-> (128 < length ts)%nat /\ Forall token_ok (firstn 128 ts))).
Proof.
  intros Hne Hterm. unfold decode_hex_string.
  assert (Hfit : Forall token_ok ts -> (length ts <= 128)%nat ->
                 decode_loop 128 (sequence_text ts ++ rest) []
                 = Done (Some (map token_word ts ++ [END_MARKER], rest))).
  { intros Hok Hlen.
    apply (proj1 (decode_loop_sequence ts 128 [] rest Hne Hok Hterm) Hlen). }
  split; [exact Hfit |].
  split; [intros Hok Hlen; apply decode_loop_fatal; assumption |].
  split; [intros Hg Hbad; apply decode_loop_refused; assumption |].
  intros Hg. split.
  - intros H.
    destruct (tokens_ok_or_not (firstn 128 ts)) as [Hok | Hbad].
    { apply Forall_forall. intros t Hin. rewrite Forall_forall in Hg.
      apply Hg. apply (in_firstn _ _ _ Hin). }
    + split; [| exact Hok].
      destruct (Nat.lt_ge_cases 128 (length ts)) as [| Hle]; [assumption |].
      rewrite firstn_all2 in Hok by exact Hle.
      rewrite (Hfit Hok Hle) in H. discriminate.
    + rewrite (decode_loop_refused ts 128 [] rest Hg Hbad) in H. discriminate.
  - intros [Hlen Hok]. apply decode_loop_fatal; assumption.
Qed.

End Decoder.

(** C8, witness: a sequence of three tokens is decoded, one of 129 tokens
    ends in the fatal error, and one whose second token starts with an
    upper-case letter is refused. *)
Lemma decode_token_bound_witness :
  @decode_hex_string p0f_consts (str "1,*,?2f:rest")
  = Done (Some ([1; 0x20000000; 0x1000002f; 0x40000000], str ":rest"))
  /\ @decode_hex_string p0f_consts (sequence_text (repeat TokStar 129) ++ [])
     = Abort Fatal
  /\ @decode_hex_string p0f_consts (str "1,Fe:") = Done None.
Proof.
  split; [| split].
  - refine (proj1 (@decode_token_bound p0f_consts
                     [TokValue (str "1"); TokStar; TokOptional (str "2f")]
                     (str ":rest") _ _) _ _).
    + discriminate.
    + left. reflexivity.
    + repeat constructor; discriminate.
    + simpl. lia.
  - refine (proj1 (proj2 (@decode_token_bound p0f_consts
                            (repeat TokStar 129) [] _ _)) _ _).
    + discriminate.
    + right. reflexivity.
    + apply Forall_forall. intros t Ht. apply in_firstn in Ht.
      apply repeat_spec in Ht. subst t. exact I.
    + rewrite repeat_length. lia.
  - refine (proj1 (proj2 (proj2 (@decode_token_bound p0f_consts
                                   [TokValue (str "1"); TokValue (str "Fe")]
                                   (str ":") _ _))) _ _).
    + discriminate.
    + left. reflexivity.
    + repeat constructor; discriminate.
    + intros H. inversion H as [| ? ? _ H']; subst.
      inversion H' as [| ? ? Hh _]; subst.
      destruct Hh as [Hstart _]. discriminate Hstart.
Defined.

(** The tokens [FF] and [A] are tokens of the grammar, and the strings that
    consist of them are refused by the first switch of the decoder; the
    token [FF] followed by 129 stars, 130 tokens in all, gives NULL too and
    not the fatal error.  After a question mark the same digits are read;
    an empty token is refused. *)
Lemma decode_upper_case_start :
  token_grammatical (TokValue (str "FF"))
  /\ sequence_text [TokValue (str "FF")] = str "FF"
  /\ @decode_hex_string p0f_consts (str "FF") = Done None
  /\ @decode_hex_string p0f_consts (str "A") = Done None
  /\ length (TokValue (str "FF") :: repeat TokStar 129) = 130%nat
  /\ @decode_hex_string p0f_consts
       (sequence_text (TokValue (str "FF") :: repeat TokStar 129) ++ [])
     = Done None
  /\ @decode_hex_string p0f_consts (str "1,,2") = Done None
  /\ @decode_hex_string p0f_consts (str "1a,?FF:")
     = Done (Some ([0x1a; 0x100000ff; 0x40000000], str ":")).
Proof.
  split; [split; [discriminate | repeat constructor] |].
  repeat split.
Qed.

(** ** Closed examples *)

Lemma table_example_registered : @registered p0f_consts table_example.
Proof.
  apply (@registered_sig p0f_consts
           [nth 0 table_example (mk_ssl_sig_record 0 0 None 0 [] 0 0 0 zero_sig)]
           table_example 1 1 1 4 None 5 [] 0 (str "3.1:*:*:") 8).
  - apply (@registered_sig p0f_consts [] _ 1 0 1 2 None 3 [] 0
             (str "3.1:2f:*:") 7).
    + apply registered_nil.
    + vm_compute. reflexivity.
  - vm_compute. reflexivity.
Qed.

(** C3, witness: of the two matching records the first is returned. *)
Lemma ssl_find_match_first_witness :
  @ssl_find_match p0f_consts table_example observed_example
  = Done (set_matched observed_example (Some 0%nat)).
Proof.
  refine (proj1 (@ssl_find_match_first p0f_consts table_example observed_example
                   table_example_registered _)
                0%nat (nth 0 table_example
                           (mk_ssl_sig_record 0 0 None 0 [] 0 0 0 zero_sig))
                eq_refl eq_refl _).
  - split; discriminate.
  - intros j r' Hj. lia.
Defined.

(** The SSLv2 dissector on [sslv2_hello], the hello the literal case
    describes: version 3.1 and the two cipher specs. *)
Lemma sslv2_hello_parse :
  @fingerprint_ssl_v2 p0f_consts (set_flags zero_sig 1) sslv2_hello 33
  = Done (1, mk_ssl_sig 0x0301 0 0 (Some [0x010080; 0x0700C0; 0x40000000])
                        (Some [0x40000000]) 1 None).
Proof. vm_compute. reflexivity. Qed.

(** The SSLv3 dissector on [hello_whole]. *)
Lemma hello_whole_parse :
  @fingerprint_ssl_v3 p0f_consts zero_sig hello_whole 51 0x0301 0
  = Done (1, mk_ssl_sig 0x0301 0x50000000 (-0x50000000)
                        (Some [0x2f; 0x40000000]) (Some [10; 0x40000000])
                        8 None).
Proof. vm_compute. reflexivity. Qed.

(** C5, witness: the words dissected from [sslv2_hello] and [hello_whole]. *)
Lemma dissected_words_exact_witness :
  (exists cs es,
      Some [0x010080; 0x0700C0; 0x40000000] = Some (cs ++ [0x40000000])
      /\ Some [0x40000000] = Some (es ++ [0x40000000])
      /\ Forall (@exact_word p0f_consts) cs /\ Forall (@exact_word p0f_consts) es)
  /\ (exists cs es,
         Some [0x2f; 0x40000000] = Some (cs ++ [0x40000000])
         /\ Some [10; 0x40000000] = Some (es ++ [0x40000000])
         /\ Forall (@exact_word p0f_consts) cs
         /\ Forall (@exact_word p0f_consts) es).
Proof.
  split.
  - exact (@dissected_words_exact p0f_consts p0f_consts_ok
             (set_flags zero_sig 1) sslv2_hello 33 0 0 _
             (or_introl sslv2_hello_parse)).
  - exact (@dissected_words_exact p0f_consts p0f_consts_ok
             zero_sig hello_whole 51 0x0301 0 _
             (or_intror (conj eq_refl hello_whole_parse))).
Defined.

(** C10, witness: on the TLS record the engine returns, and its one call
    of the dissector passes the 51 bytes of the fragment. *)
Lemma v3_header_read_in_bounds_witness :
  exists ret f' evs,
    @process_ssl p0f_consts [] (fun _ => []) 1
       (mk_packet_flow 0 56 tls_record 0x50000000) = Done (ret, f', evs)
    /\ forall fragment frag_len record_version local_time,
         In (CallV3 fragment frag_len record_version local_time) evs ->
         3 < frag_len
         /\ 5 + frag_len <= 56
         /\ fragment = skipn 5 tls_record
         /\ frag_len <= Z.of_nat (length fragment)
         /\ (exists msg_len message_type,
                rd24 fragment 1 = Done msg_len
                /\ rd fragment 0 = Done message_type)
         /\ (forall sig, exists r,
                @fingerprint_ssl_v3 p0f_consts sig fragment frag_len
                                    record_version local_time = Done r).
Proof.
  refine (proj1 (@v3_header_read_in_bounds p0f_consts [] (fun _ => []) 1
                   (mk_packet_flow 0 56 tls_record 0x50000000) _ _)).
  - apply registered_nil.
  - vm_compute. discriminate.
Defined.

(** ** More on the pattern matcher *)

Section MatcherPatterns.
Context {K : ssl_consts} (HK : consts_ok K).

Lemma eqb_false a b : a <> b -> (a =? b) = false.
Proof. apply Z.eqb_neq. Qed.

(** Rule 1 on a value of the reference that is the current observed one. *)
Lemma match_loop_value_hit r rec sig match_any :
  is_value r ->
  match_loop (r :: rec) (r :: sig) match_any = match_loop rec sig false.
Proof.
  intros Hr. cbn [match_loop deref hd tl].
  rewrite (eqb_false _ _ (value_not_end HK r Hr)). cbn [orb].
  rewrite (unmask_value HK r Hr), Z.eqb_refl. reflexivity.
Qed.

(** Rule 5: a value of the reference that is not the current observed one,
    with no wildcard active. *)
Lemma match_loop_value_miss r s rec sig :
  is_value r -> s <> END_MARKER -> r <> s ->
  match_loop (r :: rec) (s :: sig) false = 1.
Proof.
  intros Hr Hs Hne. cbn [match_loop deref hd tl].
  rewrite (eqb_false _ _ (value_not_end HK r Hr)), (eqb_false _ _ Hs).
  cbn [orb]. rewrite (unmask_value HK r Hr), (eqb_false _ _ Hne).
  rewrite (eqb_false _ _ (value_not_any HK r Hr)).
  rewrite (value_no_maybe HK r Hr). reflexivity.
Qed.

(** Rules 1 and 4: a value of the reference with the wildcard active is
    looked for from the current observed value on. *)
Lemma match_loop_value_seek r s rec sig :
  is_value r -> s <> END_MARKER ->
  match_loop (r :: rec) (s :: sig) true
  = match_loop rec (seek_exact r (s :: sig)) false.
Proof.
  intros Hr Hs. cbn [match_loop deref hd tl seek_exact].
  rewrite (eqb_false _ _ (value_not_end HK r Hr)), (eqb_false _ _ Hs).
  cbn [orb]. rewrite (unmask_value HK r Hr).
  destruct (Z.eqb_spec r s) as [_ | _]; [reflexivity |].
  rewrite (eqb_false _ _ (value_not_any HK r Hr)).
  rewrite (value_no_maybe HK r Hr). reflexivity.
Qed.

(** Rule 2: the star in front of an observed value. *)
Lemma match_loop_star s rec sig match_any :
  is_value s ->
  match_loop (MATCH_ANY :: rec) (s :: sig) match_any
  = match_loop rec (s :: sig) true.
Proof.
  intros Hs. cbn [match_loop deref hd tl].
  rewrite (eqb_false _ _ (any_not_end K HK)).
  rewrite (eqb_false _ _ (value_not_end HK s Hs)). cbn [orb].
  rewrite (unmask_any HK).
  rewrite (eqb_false MATCH_ANY s)
    by (intros E; apply (value_not_any HK s Hs); congruence).
  rewrite Z.eqb_refl. reflexivity.
Qed.

(** The end of the reference. *)
Lemma match_loop_reference_end rec sig match_any :
  match_loop (END_MARKER :: rec) sig match_any
  = if (deref sig =? END_MARKER) || match_any then 0 else 1.
Proof.
  cbn [match_loop]. rewrite Z.eqb_refl. cbn [orb].
  unfold match_finish. cbn [roll]. rewrite (end_plain K HK).
  rewrite (eqb_false END_MARKER MATCH_ANY)
    by (intros E; apply (any_not_end K HK); congruence).
  cbn [Z.eqb negb orb deref hd]. rewrite Z.eqb_refl. cbn [andb].
  destruct (deref sig =? END_MARKER), match_any; reflexivity.
Qed.

(** The end of the observed sequence in front of a value of the reference. *)
Lemma match_loop_observed_end r rec sig match_any :
  is_value r ->
  match_loop (r :: rec) (END_MARKER :: sig) match_any = 1.
Proof.
  intros Hr. cbn [match_loop deref hd]. rewrite Z.eqb_refl, orb_true_r.
  unfold match_finish. cbn [roll]. rewrite (value_no_maybe HK r Hr).
  rewrite (eqb_false _ _ (value_not_any HK r Hr)).
  cbn [Z.eqb negb orb deref hd].
  rewrite (eqb_false _ _ (value_not_end HK r Hr)). reflexivity.
Qed.

(** A reference of values matches the observed sequence exactly when the
    two are the same. *)
Lemma match_loop_values_iff R : forall S,
  Forall is_value R -> Forall is_value S ->
  match_loop (R ++ [END_MARKER]) (S ++ [END_MARKER]) false = 0 <-> R = S.
Proof.
  induction R as [| r R IH]; intros S HR HS.
  - cbn [app]. rewrite match_loop_reference_end.
    destruct S as [| s S]; cbn [app deref hd].
    + rewrite Z.eqb_refl. cbn. tauto.
    + inversion HS as [| ? ? Hs _]; subst.
      rewrite (eqb_false _ _ (value_not_end HK s Hs)). cbn.
      split; [lia | discriminate].
  - inversion HR as [| ? ? Hr HR']; subst. cbn [app].
    destruct S as [| s S]; cbn [app].
    + rewrite match_loop_observed_end by assumption.
      split; [lia | discriminate].
    + inversion HS as [| ? ? Hs HS']; subst.
      destruct (Z.eq_dec r s) as [<- | Hne].
      * rewrite match_loop_value_hit by assumption.
        rewrite (IH S HR' HS'). split; [congruence |].
        intros E. injection E as E. exact E.
      * rewrite match_loop_value_miss;
          [| assumption | apply value_not_end; assumption | assumption].
        split; [lia | congruence].
Qed.

(** X1: a reference without star and question mark matches exactly the
    observed sequence that is equal to it; in particular every observed
    sequence matches itself. *)
Theorem exact_reference_matches_itself_only R S :
  Forall is_value R -> Forall is_value S ->
  match_sigs (R ++ [END_MARKER]) (S ++ [END_MARKER]) = 0 <-> R = S.
Proof. intros HR HS. apply match_loop_values_iff; assumption. Qed.

(** X2: a reference of values followed by a star matches exactly the
    observed sequences that begin with these values; the lone star matches
    every observed sequence, the empty one too. *)
Theorem trailing_star_matches_prefix R : forall S,
  Forall is_value R -> Forall is_value S ->
  match_sigs (R ++ [MATCH_ANY; END_MARKER]) (S ++ [END_MARKER]) = 0
  <-> exists T, S = R ++ T.
Proof.
  unfold match_sigs.
  induction R as [| r R IH]; intros S HR HS.
  - cbn [app]. split; [intros _; exists S; reflexivity | intros _].
    destruct S as [| s S]; cbn [app].
    + cbn [match_loop deref hd]. rewrite Z.eqb_refl, orb_true_r.
      unfold match_finish. cbn [roll]. rewrite Z.eqb_refl, orb_true_r.
      rewrite (end_plain K HK).
      rewrite (eqb_false END_MARKER MATCH_ANY)
        by (intros E; apply (any_not_end K HK); congruence).
      cbn [Z.eqb negb orb deref hd]. rewrite Z.eqb_refl. reflexivity.
    + inversion HS as [| ? ? Hs _]; subst.
      rewrite match_loop_star by assumption.
      rewrite match_loop_reference_end. rewrite orb_true_r. reflexivity.
  - inversion HR as [| ? ? Hr HR']; subst. cbn [app].
    destruct S as [| s S]; cbn [app].
    + rewrite match_loop_observed_end by assumption.
      split; [lia | intros (T & E); discriminate E].
    + inversion HS as [| ? ? Hs HS']; subst.
      destruct (Z.eq_dec r s) as [<- | Hne].
      * rewrite match_loop_value_hit by assumption.
        rewrite (IH S HR' HS'). split; intros (T & E); exists T.
        -- rewrite E. reflexivity.
        -- injection E as E. exact E.
      * rewrite match_loop_value_miss;
          [| assumption | apply value_not_end; assumption | assumption].
        split; [lia | intros (T & E); injection E as E _; congruence].
Qed.

(** Where the scan of rule 4 ends on a sequence of values: on the
    terminator exactly when [v] occurs at no place but the last. *)
Lemma seek_exact_end v S :
  Forall is_value S ->
  deref (seek_exact v (S ++ [END_MARKER])) = END_MARKER
  <-> ~ In v (removelast S).
Proof.
  induction S as [| s S IH]; intros HS.
  - cbn. rewrite Z.eqb_refl. cbn. tauto.
  - inversion HS as [| ? ? Hs HS']; subst. cbn [app seek_exact].
    rewrite (eqb_false _ _ (value_not_end HK s Hs)).
    destruct (Z.eqb_spec v s) as [<- | Hne].
    + destruct S as [| s' S]; cbn [app deref hd removelast].
      * cbn. tauto.
      * inversion HS' as [| ? ? Hs' _]; subst.
        split; [intros E; destruct (value_not_end HK s' Hs' E) |].
        intros Hn. exfalso. apply Hn. left. reflexivity.
    + rewrite (IH HS'). destruct S as [| s' S]; cbn [removelast].
      * cbn. tauto.
      * cbn [In]. split; [intros Hn [E | Hin]; [congruence | tauto] | tauto].
Qed.

(** X3: the reference [*,v] matches an observed sequence exactly when the
    sequence is not empty and [v] occurs in it at no place but the last: the
    first [v] found ends the wildcard for good, and a [v] that is not
    found at all is not missed. *)
Theorem star_then_value v S :
  is_value v -> Forall is_value S ->
  match_sigs [MATCH_ANY; v; END_MARKER] (S ++ [END_MARKER]) = 0
  <-> S <> [] /\ ~ In v (removelast S).
Proof.
  intros Hv HS. unfold match_sigs. destruct S as [| s S].
  - cbn [app]. cbn [match_loop deref hd]. rewrite Z.eqb_refl, orb_true_r.
    unfold match_finish. cbn [roll]. rewrite Z.eqb_refl, orb_true_r.
    rewrite (value_no_maybe HK v Hv).
    rewrite (eqb_false _ _ (value_not_any HK v Hv)).
    cbn [Z.eqb negb orb deref hd].
    rewrite (eqb_false _ _ (value_not_end HK v Hv)). cbn.
    split; [lia | intros [Hn _]; congruence].
  - inversion HS as [| ? ? Hs HS']; subst. cbn [app].
    rewrite match_loop_star by assumption.
    rewrite match_loop_value_seek;
      [| assumption | apply value_not_end; assumption].
    rewrite match_loop_reference_end. rewrite orb_false_r.
    change (s :: S ++ [END_MARKER]) with ((s :: S) ++ [END_MARKER]).
    rewrite <- (seek_exact_end v (s :: S) HS).
    destruct (Z.eqb_spec (deref (seek_exact v ((s :: S) ++ [END_MARKER])))
                         END_MARKER) as [E | E].
    + split; [intros _; split; [discriminate | exact E] | reflexivity].
    + split; [lia | intros [_ E']; congruence].
Qed.

(** X4: the reference [?v] followed by values [R] matches the observed
    [v,R], and the observed [R] unless [R] itself begins with [v]; it
    matches nothing else. *)
Theorem optional_then_values v R S :
  is_value v -> Forall is_value R -> Forall is_value S ->
  match_sigs (Z.lor v MATCH_MAYBE :: R ++ [END_MARKER]) (S ++ [END_MARKER]) = 0
  <-> S = v :: R \/ (S = R /\ hd_error R <> Some v).
Proof.
  intros Hv HR HS. unfold match_sigs.
  destruct S as [| s S].
  - cbn [app]. rewrite (optional_skipped HK)
      by (try assumption; cbn; apply not_eq_sym, value_not_end; assumption).
    change [END_MARKER] with (@nil Z ++ [END_MARKER]) at 2.
    rewrite (match_loop_values_iff R []) by (try assumption; constructor).
    split.
    + intros ->. right. split; [reflexivity | discriminate].
    + intros [E | [E _]]; [discriminate | congruence].
  - inversion HS as [| ? ? Hs HS']; subst. cbn [app].
    destruct (Z.eq_dec s v) as [-> | Hne].
    + rewrite (optional_consumes HK) by assumption.
      rewrite (match_loop_values_iff R S) by assumption.
      split.
      * intros ->. left. reflexivity.
      * intros [E | [E Hhd]]; [congruence |].
        subst R. cbn in Hhd. congruence.
    + rewrite (optional_skipped HK) by (try assumption; cbn; exact Hne).
      change (s :: S ++ [END_MARKER]) with ((s :: S) ++ [END_MARKER]).
      rewrite (match_loop_values_iff R (s :: S)) by assumption.
      split.
      * intros ->. right. split; [reflexivity | cbn; congruence].
      * intros [E | [E _]]; [congruence | congruence].
Qed.

End MatcherPatterns.

(** X1, witness. *)
Lemma exact_reference_matches_itself_only_witness :
  @match_sigs p0f_consts ([0x2f; 0x35] ++ [0x40000000])
                         ([0x2f; 0x35] ++ [0x40000000]) = 0.
Proof.
  apply (@exact_reference_matches_itself_only p0f_consts p0f_consts_ok
           [0x2f; 0x35] [0x2f; 0x35]).
  - repeat constructor; unfold is_value; lia.
  - repeat constructor; unfold is_value; lia.
  - reflexivity.
Defined.

(** X2, witness. *)
Lemma trailing_star_matches_prefix_witness :
  @match_sigs p0f_consts ([0x2f] ++ [0x20000000; 0x40000000])
                         ([0x2f; 0x35; 0x0a] ++ [0x40000000]) = 0.
Proof.
  apply (@trailing_star_matches_prefix p0f_consts p0f_consts_ok
           [0x2f] [0x2f; 0x35; 0x0a]).
  - repeat constructor; unfold is_value; lia.
  - repeat constructor; unfold is_value; lia.
  - exists [0x35; 0x0a]. reflexivity.
Defined.

(** X3, witness: [*,5] matches [1,2,3], which holds no 5, and does not match
    [5,5]. *)
Lemma star_then_value_witness :
  @match_sigs p0f_consts [0x20000000; 5; 0x40000000] ([1; 2; 3] ++ [0x40000000]) = 0
  /\ @match_sigs p0f_consts [0x20000000; 5; 0x40000000] ([5; 5] ++ [0x40000000]) <> 0.
Proof.
  assert (H5 : is_value 5) by (unfold is_value; lia).
  split.
  - apply (@star_then_value p0f_consts p0f_consts_ok 5 [1; 2; 3] H5).
    + repeat constructor; unfold is_value; lia.
    + split; [discriminate |]. cbn. intros [E | [E | []]]; discriminate.
  - intros E.
    apply (@star_then_value p0f_consts p0f_consts_ok 5 [5; 5] H5) in E.
    + destruct E as [_ E]. apply E. left. reflexivity.
    + repeat constructor; unfold is_value; lia.
Defined.

(** X4, witness. *)
Lemma optional_then_values_witness :
  @match_sigs p0f_consts (0x10000000 :: [0xff01] ++ [0x40000000])
                         ([0; 0xff01] ++ [0x40000000]) = 0.
Proof.
  apply (@optional_then_values p0f_consts p0f_consts_ok 0 [0xff01] [0; 0xff01]).
  - unfold is_value; lia.
  - repeat constructor; unfold is_value; lia.
  - repeat constructor; unfold is_value; lia.
  - left. reflexivity.
Defined.

(** ** Rendering and decoding compose *)

Section Codec.
Context {K : ssl_consts} (HK : consts_ok K).

Lemma digit_char_val d :
  0 <= d < 16 ->
  digit_val (digit_char d) = Some d /\ is_value_start (digit_char d) = true.
Proof.
  intros Hd.
  assert (E : d = 0 \/ d = 1 \/ d = 2 \/ d = 3 \/ d = 4 \/ d = 5 \/ d = 6
              \/ d = 7 \/ d = 8 \/ d = 9 \/ d = 10 \/ d = 11 \/ d = 12
              \/ d = 13 \/ d = 14 \/ d = 15) by lia.
  repeat (destruct E as [-> | E]; [split; reflexivity |]).
  subst d. split; reflexivity.
Qed.

Lemma value_start_xdigit c : is_value_start c = true -> is_xdigit c = true.
Proof.
  unfold is_value_start, is_xdigit, is_digit_in, digit_val.
  destruct (Z.leb_spec 48 (code c)), (Z.leb_spec (code c) 57); cbn [andb orb];
    try (intros _; apply Z.ltb_lt; lia);
    destruct (Z.leb_spec 97 (code c)), (Z.leb_spec (code c) 102); cbn [andb orb];
    try discriminate;
    destruct (Z.leb_spec (code c) 122); cbn [andb]; try lia;
    intros _; apply Z.ltb_lt; lia.
Qed.

Lemma digits_hex_start fuel : forall n acc,
  Forall (fun c => is_value_start c = true) acc ->
  Forall (fun c => is_value_start c = true) (digits 16 fuel n acc).
Proof.
  induction fuel as [| fuel IH]; intros n acc Hacc; [exact Hacc |].
  cbn [digits].
  assert (Forall (fun c => is_value_start c = true)
                 (digit_char (n mod 16) :: acc)).
  { constructor; [| exact Hacc].
    apply digit_char_val, Z.mod_pos_bound. lia. }
  destruct (n / 16 =? 0); [assumption | apply IH; assumption].
Qed.

Lemma digits_length base fuel : forall n acc,
  (length acc <= length (digits base fuel n acc))%nat.
Proof.
  induction fuel as [| fuel IH]; intros n acc; [apply Nat.le_refl |].
  cbn [digits]. destruct (n / base =? 0); [cbn [length]; lia |].
  etransitivity; [| apply IH]. cbn [length]. lia.
Qed.

(** [strtol] reads back what ["%x"] wrote. *)
Lemma hex_value_digits fuel : forall n acc,
  0 <= n < 16 ^ Z.of_nat fuel ->
  hex_value (digits 16 fuel n acc) 0 = hex_value acc n.
Proof.
  induction fuel as [| fuel IH]; intros n acc Hn.
  - cbn [digits]. change (16 ^ Z.of_nat 0) with 1 in Hn.
    replace n with 0 by lia. reflexivity.
  - cbn [digits].
    assert (Hmod : 0 <= n mod 16 < 16) by (apply Z.mod_pos_bound; lia).
    destruct (digit_char_val (n mod 16) Hmod) as [Hval _].
    destruct (Z.eqb_spec (n / 16) 0) as [E | E].
    + cbn [hex_value]. rewrite Hval. f_equal.
      pose proof (Z.div_mod n 16). lia.
    + rewrite IH.
      * cbn [hex_value]. rewrite Hval. f_equal.
        pose proof (Z.div_mod n 16). lia.
      * rewrite Nat2Z.inj_succ, Z.pow_succ_r in Hn by lia.
        split; [apply Z.div_pos; lia |].
        apply Z.div_lt_upper_bound; lia.
Qed.

Lemma sprintf_x_value v : 0 <= v < 2 ^ 32 -> hex_value (sprintf_x v) 0 = v.
Proof.
  intros Hv. unfold sprintf_x. rewrite hex_value_digits; [reflexivity |].
  change (16 ^ Z.of_nat 8) with (2 ^ 32). exact Hv.
Qed.

Lemma digits_not_nil base fuel n acc : digits base (S fuel) n acc <> [].
Proof.
  cbn [digits]. destruct (n / base =? 0); [discriminate |].
  intros E.
  pose proof (digits_length base fuel (n / base) (digit_char (n mod base) :: acc))
    as Hlen.
  rewrite E in Hlen. cbn [length] in Hlen. lia.
Qed.

Lemma sprintf_x_not_nil v : sprintf_x v <> [].
Proof. apply (digits_not_nil 16 7). Qed.

Lemma sprintf_x_start v : is_value_start (peek (sprintf_x v)) = true.
Proof.
  pose proof (digits_hex_start 8 v [] (Forall_nil _)) as Hall.
  pose proof (sprintf_x_not_nil v) as Hne.
  unfold sprintf_x in *.
  destruct (digits 16 8 v []) as [| c l]; [congruence |].
  inversion Hall; assumption.
Qed.

Lemma sprintf_x_xdigits v : Forall (fun c => is_xdigit c = true) (sprintf_x v).
Proof.
  eapply Forall_impl; [| apply (digits_hex_start 8 v [] (Forall_nil _))].
  intros c. apply value_start_xdigit.
Qed.

Lemma rendered_token_ok t : token_ok (rendered_token t).
Proof.
  destruct t as [v | | v]; cbn [rendered_token token_ok].
  - split; [apply sprintf_x_start | apply sprintf_x_xdigits].
  - exact I.
  - split; [apply sprintf_x_not_nil | apply sprintf_x_xdigits].
Qed.

Lemma value_masked v :
  is_value v -> Z.land (Z.min LONG_MAX (hex_value (sprintf_x v) 0)) 0xFFFFFF = v.
Proof.
  intros [Hlo Hhi]. rewrite sprintf_x_value by lia.
  rewrite Z.min_r by (unfold LONG_MAX; lia).
  change 0xFFFFFF with (Z.ones 24). rewrite Z.land_ones by lia.
  apply Z.mod_small. lia.
Qed.

Lemma rendered_token_word t :
  token_valid t -> token_word (rendered_token t) = encode_token t.
Proof.
  destruct t as [v | | v]; cbn [token_valid rendered_token token_word encode_token];
    intros Hv; [| reflexivity |]; rewrite value_masked by assumption; reflexivity.
Qed.

(** One turn of the cipher loop of [dump_sig]. *)
Lemma dump_ciphers_token t p i :
  token_valid t ->
  dump_ciphers (encode_token t :: p) i
  = comma i ++ token_text (rendered_token t) ++ dump_ciphers p (i + 1).
Proof.
  intros Hv. cbn [dump_ciphers].
  destruct t as [v | | v]; cbn [token_valid encode_token rendered_token token_text] in *.
  - rewrite (proj2 (Z.eqb_neq _ _) (value_not_end HK v Hv)).
    rewrite (proj2 (Z.eqb_neq _ _) (value_not_any HK v Hv)).
    rewrite (value_no_maybe HK v Hv), (unmask_value HK v Hv).
    cbn [Z.eqb negb app]. rewrite <- app_assoc. reflexivity.
  - rewrite (proj2 (Z.eqb_neq _ _) (any_not_end K HK)), Z.eqb_refl.
    cbn [negb]. rewrite <- app_assoc. reflexivity.
  - rewrite (proj2 (Z.eqb_neq _ _) (optional_not_end HK v)).
    rewrite (proj2 (Z.eqb_neq _ _) (optional_not_any HK v)).
    rewrite (proj2 (Z.eqb_neq _ _) (optional_marked HK v)).
    rewrite (unmask_optional HK v Hv).
    cbn [negb]. rewrite <- !app_assoc. reflexivity.
Qed.

(** The cipher field that [dump_sig] writes is the text of the grammar. *)
Lemma dump_ciphers_sequence ts : forall i,
  0 <= i -> Forall token_valid ts -> ts <> [] ->
  dump_ciphers (map encode_token ts ++ [END_MARKER]) i
  = comma i ++ sequence_text (map rendered_token ts).
Proof.
  induction ts as [| t ts IH]; intros i Hi Hts Hne; [congruence |].
  inversion Hts as [| ? ? Ht Hts']; subst. cbn [map app].
  rewrite (dump_ciphers_token t _ i Ht).
  destruct ts as [| t' ts].
  - cbn [map app dump_ciphers sequence_text]. rewrite Z.eqb_refl.
    rewrite app_nil_r. reflexivity.
  - rewrite (IH (i + 1)) by (lia || assumption || discriminate).
    unfold comma at 2.
    destruct (Z.eqb_spec (i + 1) 0) as [E | _]; [lia |].
    reflexivity.
Qed.

Lemma reread_extension_valid t : token_valid t -> token_valid (reread_extension t).
Proof.
  destruct t as [v | | v]; cbn [reread_extension]; try exact (fun H => H).
  intros Hv. destruct (v =? 0); [| exact Hv].
  cbn [token_valid]. unfold is_value. lia.
Qed.

(** The extension loop of [dump_sig] writes what the cipher loop writes for
    the array in which the value 0 carries the optional marking. *)
Lemma dump_extensions_as_ciphers ts : forall i,
  Forall token_valid ts ->
  dump_extensions (map encode_token ts ++ [END_MARKER]) i
  = dump_ciphers (map encode_token (map reread_extension ts) ++ [END_MARKER]) i.
Proof.
  induction ts as [| t ts IH]; intros i Hts.
  { cbn [map app dump_extensions dump_ciphers]. rewrite Z.eqb_refl. reflexivity. }
  inversion Hts as [| ? ? Ht Hts']; subst.
  cbn [map app dump_extensions dump_ciphers]. rewrite (IH (i + 1) Hts').
  destruct t as [v | | v]; cbn [token_valid encode_token reread_extension] in *.
  - rewrite (proj2 (Z.eqb_neq _ _) (value_not_end HK v Ht)).
    rewrite (proj2 (Z.eqb_neq _ _) (value_not_any HK v Ht)).
    rewrite (value_no_maybe HK v Ht), (unmask_value HK v Ht).
    cbn [Z.eqb negb orb].
    destruct (Z.eqb_spec v 0) as [-> | Hv]; cbn [encode_token].
    + rewrite (proj2 (Z.eqb_neq _ _) (optional_not_end HK 0)).
      rewrite (proj2 (Z.eqb_neq _ _) (optional_not_any HK 0)).
      rewrite (proj2 (Z.eqb_neq _ _) (optional_marked HK 0)).
      rewrite (unmask_optional HK 0 Ht). reflexivity.
    + rewrite (proj2 (Z.eqb_neq _ _) (value_not_end HK v Ht)).
      rewrite (proj2 (Z.eqb_neq _ _) (value_not_any HK v Ht)).
      rewrite (value_no_maybe HK v Ht), (unmask_value HK v Ht). reflexivity.
  - rewrite Z.eqb_refl. reflexivity.
  - rewrite (proj2 (Z.eqb_neq _ _) (optional_marked HK v)). reflexivity.
Qed.

Lemma decode_rendered ts rest :
  Forall token_valid ts -> ts <> [] -> (length ts <= 128)%nat ->
  terminated rest ->
  decode_hex_string (dump_ciphers (map encode_token ts ++ [END_MARKER]) 0 ++ rest)
  = Done (Some (map encode_token ts ++ [END_MARKER], rest)).
Proof.
  intros Hts Hne Hlen Hrest.
  rewrite (dump_ciphers_sequence ts 0) by (lia || assumption).
  cbn [comma Z.eqb negb app]. unfold decode_hex_string.
  destruct (decode_loop_sequence (map rendered_token ts) 128 [] rest)
    as [Hfit _].
  - destruct ts; [congruence | discriminate].
  - apply Forall_forall. intros t Hin. apply in_map_iff in Hin.
    destruct Hin as (t0 & <- & _). apply rendered_token_ok.
  - exact Hrest.
  - rewrite Hfit by (rewrite length_map; exact Hlen).
    cbn [app]. rewrite map_map.
    rewrite (map_ext_in _ encode_token); [reflexivity |].
    intros t Hin. apply rendered_token_word.
    rewrite Forall_forall in Hts. apply Hts, Hin.
Qed.

(** X5: the cipher field that [dump_sig] writes for an array of 1 to 128
    reference tokens is decoded by [decode_hex_string] to the same array,
    and the decoder stops at what follows the field. *)
Theorem rendered_ciphers_decode_back ts rest :
  Forall token_valid ts -> ts <> [] -> (length ts <= 128)%nat ->
  terminated rest ->
  decode_hex_string (dump_ciphers (map encode_token ts ++ [END_MARKER]) 0 ++ rest)
  = Done (Some (map encode_token ts ++ [END_MARKER], rest)).
Proof. apply decode_rendered. Qed.

(** X6: the extension field that [dump_sig] writes is decoded to the same
    array but for the value 0, which comes back as the optional 0: it is
    written [?0]. *)
Theorem rendered_extensions_decode_back ts rest :
  Forall token_valid ts -> ts <> [] -> (length ts <= 128)%nat ->
  terminated rest ->
  decode_hex_string (dump_extensions (map encode_token ts ++ [END_MARKER]) 0 ++ rest)
  = Done (Some (map encode_token (map reread_extension ts) ++ [END_MARKER], rest)).
Proof.
  intros Hts Hne Hlen Hrest.
  rewrite (dump_extensions_as_ciphers ts 0 Hts).
  apply decode_rendered.
  - apply Forall_forall. intros t Hin. apply in_map_iff in Hin.
    destruct Hin as (t0 & <- & Hin). apply reread_extension_valid.
    rewrite Forall_forall in Hts. apply Hts, Hin.
  - destruct ts; [congruence | discriminate].
  - rewrite length_map. exact Hlen.
  - exact Hrest.
Qed.

End Codec.

(** X5, witness: the cipher array of [2f,?5,*]. *)
Lemma rendered_ciphers_decode_back_witness :
  @decode_hex_string p0f_consts
    (@dump_ciphers p0f_consts [0x2f; 0x10000005; 0x20000000; 0x40000000] 0
     ++ str ":")
  = Done (Some ([0x2f; 0x10000005; 0x20000000; 0x40000000], str ":")).
Proof.
  apply (@rendered_ciphers_decode_back p0f_consts p0f_consts_ok
           [Exact 0x2f; Optional 5; Wildcard] (str ":")).
  - repeat constructor; unfold is_value; lia.
  - discriminate.
  - simpl; lia.
  - left. reflexivity.
Defined.

(** X6, witness: the extension array of [0,ff01] comes back as [?0,ff01]. *)
Lemma rendered_extensions_decode_back_witness :
  @decode_hex_string p0f_consts
    (@dump_extensions p0f_consts [0; 0xff01; 0x40000000] 0 ++ str ":")
  = Done (Some ([0x10000000; 0xff01; 0x40000000], str ":")).
Proof.
  apply (@rendered_extensions_decode_back p0f_consts p0f_consts_ok
           [Exact 0; Exact 0xff01] (str ":")).
  - repeat constructor; unfold is_value; lia.
  - discriminate.
  - simpl; lia.
  - left. reflexivity.
Defined.

(** ** What the decoder returns on any text *)

Section DecoderResult.
Context {K : ssl_consts}.

Lemma skip_space_suffix s : exists pre, s = pre ++ skip_space s.
Proof.
  induction s as [| c s IH]; [exists []; reflexivity |].
  cbn [skip_space]. destruct (c_isspace c); [| exists []; reflexivity].
  destruct IH as (pre & E). exists (c :: pre). cbn [app]. rewrite <- E.
  reflexivity.
Qed.

Lemma strtol_digits_suffix base s : forall acc,
  exists pre, s = pre ++ snd (strtol_digits base s acc).
Proof.
  induction s as [| c s IH]; intros acc; [exists []; reflexivity |].
  cbn [strtol_digits]. destruct (digit_val c) as [d |];
    [| exists []; reflexivity].
  destruct (d <? base); [| exists []; reflexivity].
  destruct (IH (acc * base + d)) as (pre & E). exists (c :: pre).
  cbn [app]. rewrite <- E. reflexivity.
Qed.

(** [endptr] of [strtol] points into the string. *)
Lemma strtol_suffix nptr base : exists pre, nptr = pre ++ snd (strtol nptr base).
Proof.
  unfold strtol.
  destruct (skip_space_suffix nptr) as (p1 & E1).
  set (s1 := skip_space nptr) in *.
  assert (Hsign : exists p2, s1 = p2 ++ snd
            (match s1 with
             | c :: s' => if Ascii.eqb c "-" then (true, s')
                          else if Ascii.eqb c "+" then (false, s')
                          else (false, s1)
             | [] => (false, s1)
             end)).
  { destruct s1 as [| c s']; [exists []; reflexivity |].
    destruct (Ascii.eqb c "-"); [exists [c]; reflexivity |].
    destruct (Ascii.eqb c "+"); [exists [c]; reflexivity |].
    exists []; reflexivity. }
  destruct (match s1 with
            | c :: s' => if Ascii.eqb c "-" then (true, s')
                         else if Ascii.eqb c "+" then (false, s')
                         else (false, s1)
            | [] => (false, s1)
            end) as [neg s2].
  destruct Hsign as (p2 & E2). cbn [snd] in E2.
  set (s3 := match s2 with
             | z :: x :: d :: _ =>
                 if (base =? 16) && Ascii.eqb z "0"
                    && (Ascii.eqb x "x" || Ascii.eqb x "X") && is_digit_in 16 d
                 then tl (tl s2) else s2
             | _ => s2
             end).
  assert (Hpre : exists p3, s2 = p3 ++ s3).
  { subst s3. destruct s2 as [| z [| x [| d s2]]]; try (exists []; reflexivity).
    destruct (_ && _); [exists [z; x] | exists []]; reflexivity. }
  destruct Hpre as (p3 & E3).
  destruct (strtol_digits_suffix base s3 0) as (p4 & E4).
  destruct (strtol_digits base s3 0) as [acc rest]. cbn [snd] in E4.
  destruct (Nat.eqb (length rest) (length s3)); cbn [snd].
  - exists []. reflexivity.
  - exists (p1 ++ p2 ++ p3 ++ p4).
    rewrite <- !app_assoc, <- E4, <- E3, <- E2. exact E1.
Qed.

(** What state 1 of the decoder stores is the word of a token with a
    24-bit value, and it moves the cursor forward inside the string. *)
Lemma decode_value_result val w val' :
  decode_value val = Some (w, val') ->
  exists t pre,
    w = encode_token t /\ token_valid t /\ val = pre ++ val' /\ pre <> [].
Proof.
  assert (Hmask : forall n, is_value (Z.land n 0xFFFFFF)).
  { intros n. change 0xFFFFFF with (Z.ones 24). rewrite Z.land_ones by lia.
    apply Z.mod_pos_bound. lia. }
  assert (Hnum : forall optional s w' s',
             decode_number optional s = Some (w', s') ->
             w' = Z.lor (Z.land (fst (strtol s 16)) 0xFFFFFF) optional
             /\ exists pre, s = pre ++ s' /\ pre <> []).
  { intros optional s w' s'. unfold decode_number.
    destruct (strtol_suffix s 16) as (pre & E).
    destruct (strtol s 16) as [n rest]. cbn [fst snd] in *.
    destruct (Nat.eqb_spec (length rest) (length s)) as [El | El];
      [discriminate |].
    intros H. injection H as <- <-. split; [reflexivity |].
    exists pre. split; [exact E |].
    intros ->. apply El. rewrite E. reflexivity. }
  unfold decode_value.
  destruct val as [| c val]; [discriminate |]. cbn [peek hd tl].
  destruct (Ascii.eqb c "*").
  - intros H. injection H as <- <-. exists Wildcard, [c].
    split; [reflexivity |]. split; [exact I |].
    split; [reflexivity | discriminate].
  - destruct (Ascii.eqb c "?").
    + intros H. apply Hnum in H. destruct H as (-> & pre & -> & _).
      exists (Optional (Z.land (fst (strtol (pre ++ val') 16)) 0xFFFFFF)),
             (c :: pre).
      split; [reflexivity |]. split; [apply Hmask |].
      split; [reflexivity | discriminate].
    + destruct (is_value_start c); [| discriminate].
      intros H. apply Hnum in H. destruct H as (-> & pre & E & Hne).
      exists (Exact (Z.land (fst (strtol (c :: val) 16)) 0xFFFFFF)), pre.
      cbn [encode_token]. rewrite Z.lor_0_r.
      split; [reflexivity |]. split; [apply Hmask |].
      split; [exact E | exact Hne].
Qed.

Lemma decode_loop_result room : forall val rec ret val',
  decode_loop room val rec = Done (Some (ret, val')) ->
  exists ts pre,
    ret = rec ++ map encode_token ts ++ [END_MARKER]
    /\ Forall token_valid ts /\ ts <> [] /\ (length ts <= room)%nat
    /\ terminated val' /\ val = pre ++ val' /\ pre <> [].
Proof.
  induction room as [| room IH]; intros val rec ret val' H; [discriminate |].
  cbn [decode_loop] in H.
  destruct (decode_value val) as [[w val1] |] eqn:Ev; [| discriminate].
  apply decode_value_result in Ev.
  destruct Ev as (t & pre & -> & Ht & -> & Hpre).
  destruct (Ascii.eqb (peek val1) ":" || Ascii.eqb (peek val1) zero) eqn:Eend.
  - apply Done_inj in H. injection H as <- <-.
    exists [t], pre. cbn [map app length].
    rewrite <- app_assoc.
    repeat split; try assumption; try lia; try discriminate.
    + constructor; [exact Ht | constructor].
    + apply orb_true_iff in Eend.
      destruct Eend as [E | E]; apply Ascii.eqb_eq in E; [left | right]; exact E.
  - destruct (Ascii.eqb (peek val1) ",") eqn:Ecomma; [| discriminate].
    destruct val1 as [| c val1]; [discriminate |].
    cbn [tl] in H. apply IH in H.
    destruct H as (ts & pre' & -> & Hts & Hne & Hlen & Hterm & -> & _).
    exists (t :: ts), (pre ++ c :: pre'). cbn [map length].
    rewrite <- !app_assoc. cbn [app].
    repeat split; try assumption; try lia; try discriminate.
    + constructor; assumption.
    + destruct pre; [congruence | discriminate].
Qed.

(** X7: whatever the text, an array that [decode_hex_string] returns holds
    between 1 and 128 words, each the star or a 24-bit value with or without
    the optional marking, then the terminator; the cursor is left inside the
    string, past at least one character, on [':'] or on the final NUL. *)
Theorem decode_hex_string_result val ret val' :
  decode_hex_string val = Done (Some (ret, val')) ->
  exists ts pre,
    ret = map encode_token ts ++ [END_MARKER]
    /\ Forall token_valid ts /\ ts <> [] /\ (length ts <= 128)%nat
    /\ terminated val' /\ val = pre ++ val' /\ pre <> [].
Proof. intros H. apply (decode_loop_result 128 val [] ret val' H). Qed.

End DecoderResult.

(** X7, witness: white space and a sign after the question mark are within
    what [strtol] reads, and the value is masked. *)
Lemma decode_hex_string_result_witness :
  exists ts pre,
    [31; 0x10fffffb; 0x10000007; 0x40000000]
    = map (@encode_token p0f_consts) ts ++ [0x40000000]
    /\ Forall token_valid ts /\ ts <> [] /\ (length ts <= 128)%nat
    /\ terminated (str ":x") /\ str "0x1f,?-5,? 7:x" = pre ++ str ":x"
    /\ pre <> [].
Proof.
  apply (@decode_hex_string_result p0f_consts (str "0x1f,?-5,? 7:x")).
  vm_compute. reflexivity.
Defined.

(** ** The flag field *)

Section Flags.
Context {K : ssl_consts}.

Lemma strncmp_eq_head c c' val name n :
  c <> c' -> 0 < n -> strncmp_eq (c :: val) (c' :: name) n = false.
Proof.
  intros Hne Hn. unfold strncmp_eq.
  destruct (Z.to_nat n) as [| k] eqn:E; [lia |]. cbn [firstn].
  destruct (list_eq_dec ascii_dec _ _) as [Heq | _]; [| reflexivity].
  injection Heq as Heq _. congruence.
Qed.

(** The name [compr] is compared on its first four characters, and the
    fifth starts no flag. *)
Lemma register_flags_compr fuel rest fl :
  register_flags (S (S fuel)) (str "compr" ++ rest) fl = Abort Fatal.
Proof.
  cbn [register_flags str list_ascii_of_string string_of_list_ascii app peek hd].
  change (Ascii.eqb "c" zero) with false. cbn iota.
  unfold flag_table at 1. cbn [find_flag].
  change (strncmp_eq ("c" :: "o" :: "m" :: "p" :: "r" :: rest)%char
                     (str "compr") 4) with true.
  cbn iota. change (Z.to_nat 4) with 4%nat. cbn [skipn peek hd].
  change (Ascii.eqb "r" ",") with false. change (Ascii.eqb "r" zero) with false.
  cbn iota. unfold flag_table. cbn [find_flag str list_ascii_of_string].
  rewrite !strncmp_eq_head by (discriminate || lia). reflexivity.
Qed.

(** X8: the flag names that [dump_sig] writes for flags with the
    compression flag are refused by the flag loop of [ssl_register_sig]:
    the table gives the name [compr] the length 4, and the [r] left over is
    no flag. *)
Theorem compr_flag_text_refused fl fl0 :
  Z.land fl SSL_FLAG_COMPR <> 0 ->
  register_flags (length (dump_flags flag_table fl false))
                 (dump_flags flag_table fl false) fl0 = Abort Fatal.
Proof.
  intros Hc. unfold flag_table. cbn [dump_flags].
  rewrite (proj2 (Z.eqb_neq _ _) Hc). cbn [negb app].
  change (str "compr" ++ ?r) with (str "compr" ++ r).
  rewrite length_app. change (length (str "compr")) with 5%nat.
  cbn [Nat.add]. apply register_flags_compr.
Qed.

Lemma register_flags_text fl fl0 :
  Z.land fl SSL_FLAG_COMPR = 0 ->
  register_flags (length (dump_flags flag_table fl false))
                 (dump_flags flag_table fl false) fl0
  = Done (reread_flags fl0 fl).
Proof.
  intros Hc. unfold reread_flags, flag_table. cbn [dump_flags tl fold_left snd].
  rewrite Hc. cbn [Z.eqb negb].
  destruct (Z.land fl SSL_FLAG_V2 =? 0), (Z.land fl SSL_FLAG_VER =? 0),
           (Z.land fl SSL_FLAG_TIME =? 0), (Z.land fl SSL_FLAG_STIME =? 0);
    reflexivity.
Qed.

(** X9: for flags without the compression flag, the flag loop of
    [ssl_register_sig] reads the names that [dump_sig] writes back to the
    flags of the table that they name. *)
Theorem flag_text_read_back fl fl0 :
  Z.land fl SSL_FLAG_COMPR = 0 ->
  register_flags (length (dump_flags flag_table fl false))
                 (dump_flags flag_table fl false) fl0
  = Done (reread_flags fl0 fl).
Proof. apply register_flags_text. Qed.

End Flags.

(** X8, witness. *)
Lemma compr_flag_text_refused_witness :
  @register_flags p0f_consts
    (length (dump_flags (@flag_table p0f_consts) 0x22 false))
    (dump_flags (@flag_table p0f_consts) 0x22 false) 0
  = Abort Fatal.
Proof. apply (@compr_flag_text_refused p0f_consts 0x22 0). discriminate. Defined.

(** X9, witness: the flags [v2,ver,stime]. *)
Lemma flag_text_read_back_witness :
  @register_flags p0f_consts
    (length (dump_flags (@flag_table p0f_consts) 0x13 false))
    (dump_flags (@flag_table p0f_consts) 0x13 false) 0
  = Done 0x13.
Proof. apply (@flag_text_read_back p0f_consts 0x13 0). reflexivity. Defined.

(** ** Registering a rendered signature *)

Section RegisterRendered.
Context {K : ssl_consts} (HK : consts_ok K).

Lemma digits_value_start base fuel : forall n acc,
  0 < base <= 16 ->
  Forall (fun c => is_value_start c = true) acc ->
  Forall (fun c => is_value_start c = true) (digits base fuel n acc).
Proof.
  induction fuel as [| fuel IH]; intros n acc Hb Hacc; [exact Hacc |].
  cbn [digits].
  assert (Forall (fun c => is_value_start c = true)
                 (digit_char (n mod base) :: acc)).
  { constructor; [| exact Hacc].
    apply digit_char_val. pose proof (Z.mod_pos_bound n base). lia. }
  destruct (n / base =? 0); [assumption | apply IH; assumption].
Qed.

Lemma strtol_digits_stop base rest acc :
  is_digit_in base (peek rest) = false ->
  strtol_digits base rest acc = (acc, rest).
Proof.
  destruct rest as [| c rest]; [reflexivity |].
  cbn [peek hd strtol_digits]. unfold is_digit_in.
  destruct (digit_val c) as [d |]; [| reflexivity].
  intros ->. reflexivity.
Qed.

(** [strtol] in the base of the digits reads back what [digits] wrote. *)
Lemma strtol_digits_digits base fuel : forall n acc rest,
  2 <= base <= 16 -> 0 <= n < base ^ Z.of_nat fuel ->
  strtol_digits base (digits base fuel n acc ++ rest) 0
  = strtol_digits base (acc ++ rest) n.
Proof.
  induction fuel as [| fuel IH]; intros n acc rest Hb Hn.
  - cbn [digits]. change (base ^ Z.of_nat 0) with 1 in Hn.
    replace n with 0 by lia. reflexivity.
  - cbn [digits].
    assert (Hmod : 0 <= n mod base < base) by (apply Z.mod_pos_bound; lia).
    assert (Hmod16 : 0 <= n mod base < 16) by lia.
    destruct (digit_char_val (n mod base) Hmod16) as [Hval _].
    assert (Hlt : (n mod base <? base) = true) by (apply Z.ltb_lt; lia).
    pose proof (Z.div_mod n base) as Hdm.
    destruct (Z.eqb_spec (n / base) 0) as [E | E].
    + cbn [app strtol_digits]. rewrite Hval, Hlt. f_equal. nia.
    + rewrite IH.
      * cbn [app strtol_digits]. rewrite Hval, Hlt. f_equal. nia.
      * exact Hb.
      * rewrite Nat2Z.inj_succ, Z.pow_succ_r in Hn by lia.
        split; [apply Z.div_pos; lia |].
        apply Z.div_lt_upper_bound; lia.
Qed.

(** [strtol] in base 10 reads back what ["%i"] wrote for a number that is
    not negative. *)
Lemma strtol_sprintf_i n rest :
  0 <= n < 2 ^ 31 -> is_digit_in 10 (peek rest) = false ->
  strtol (sprintf_i n ++ rest) 10 = (n, rest).
Proof.
  intros Hn Hrest. unfold sprintf_i.
  destruct (Z.ltb_spec n 0) as [| _]; [lia |].
  pose proof (digits_value_start 10 10 n [] ltac:(lia) (Forall_nil _)) as Hall.
  pose proof (digits_not_nil 10 9 n []) as Hne.
  pose proof (strtol_digits_digits 10 10 n [] rest ltac:(lia)) as Hrd.
  destruct (digits 10 10 n []) as [| c ds]; [congruence |].
  inversion Hall as [| ? ? Hc _]; subst.
  apply value_start_xdigit in Hc.
  unfold strtol. cbn [app skip_space].
  rewrite (xdigit_not_space c Hc).
  rewrite (xdigit_not c "-" Hc eq_refl), (xdigit_not c "+" Hc eq_refl).
  match goal with
  | |- context [strtol_digits 10 ?s 0] =>
      assert (Hprefix : s = (c :: ds) ++ rest)
  end.
  { cbn [app]. destruct (ds ++ rest) as [| x [| d l]]; reflexivity. }
  rewrite Hprefix, Hrd by (change (10 ^ Z.of_nat 10) with 10000000000; lia).
  cbn [app]. rewrite (strtol_digits_stop 10 rest n Hrest).
  cbn [app length].
  rewrite length_app.
  destruct (Nat.eqb_spec (length rest) (S (length ds + length rest))); [lia |].
  rewrite Z.min_r, Z.max_r by (unfold LONG_MAX, LONG_MIN; lia).
  reflexivity.
Qed.

(** The two bytes of a version, split by [>> 8] and [& 0xFF] and joined by
    [(maj << 8) | min]. *)
Lemma version_rejoined v :
  0 <= v < 2 ^ 16 ->
  Z.lor (Z.shiftl (to_s32 (Z.shiftr v 8)) 8) (to_s32 (Z.land v 0xFF)) mod 2 ^ 16
  = v.
Proof.
  intros Hv.
  assert (Hhi : 0 <= Z.shiftr v 8 < 2 ^ 8).
  { rewrite Z.shiftr_div_pow2 by lia. split; [apply Z.div_pos; lia |].
    apply Z.div_lt_upper_bound; lia. }
  assert (Hlo : 0 <= Z.land v 0xFF < 2 ^ 8).
  { change 0xFF with (Z.ones 8). rewrite Z.land_ones by lia.
    apply Z.mod_pos_bound. lia. }
  assert (Hs : forall x, 0 <= x < 2 ^ 8 -> to_s32 x = x).
  { intros x Hx. unfold to_s32. rewrite Z.mod_small by lia.
    destruct (Z.ltb_spec x (2 ^ 31)); [reflexivity | lia]. }
  rewrite (Hs _ Hhi), (Hs _ Hlo).
  assert (E : Z.lor (Z.shiftl (Z.shiftr v 8) 8) (Z.land v 0xFF) = v).
  { change 0xFF with (Z.ones 8). rewrite Z.land_ones by lia.
    apply Z.bits_inj'. intros n Hn. rewrite Z.lor_spec.
    destruct (Z.lt_ge_cases n 8) as [Hlt | Hge].
    - rewrite Z.shiftl_spec_low by lia.
      rewrite Z.mod_pow2_bits_low by lia. reflexivity.
    - rewrite Z.shiftl_spec_high by lia.
      rewrite Z.shiftr_spec by lia.
      rewrite Z.mod_pow2_bits_high by lia.
      rewrite orb_false_r. f_equal. lia. }
  rewrite E. apply Z.mod_small. exact Hv.
Qed.

(** The text of [dump_sig], field by field. *)
Lemma dump_sig_text sig cs es :
  cipher_suites sig = Some cs -> extensions sig = Some es ->
  dump_sig sig
  = Done (sprintf_i (Z.shiftr (request_version sig) 8)
          ++ "."%char :: sprintf_i (Z.land (request_version sig) 0xFF)
          ++ ":"%char :: dump_ciphers cs 0
          ++ ":"%char :: dump_extensions es 0
          ++ ":"%char :: dump_flags flag_table (flags sig) false).
Proof.
  intros Hc He. unfold dump_sig. rewrite Hc, He. cbn [array bind].
  cbn [str list_ascii_of_string]. rewrite <- !app_assoc. reflexivity.
Qed.

Lemma version_parts v :
  0 <= v < 2 ^ 16 ->
  0 <= Z.shiftr v 8 < 2 ^ 31 /\ 0 <= Z.land v 0xFF < 2 ^ 31.
Proof.
  intros Hv. split.
  - rewrite Z.shiftr_div_pow2 by lia. split; [apply Z.div_pos; lia |].
    apply Z.div_lt_upper_bound; lia.
  - change 0xFF with (Z.ones 8). rewrite Z.land_ones by lia.
    pose proof (Z.mod_pos_bound v (2 ^ 8)). lia.
Qed.

(** [ssl_register_sig] on a line whose version is written by ["%i.%i:"]:
    the two calls of [strtol] and the two checks. *)
Ltac read_version Hv :=
  unfold ssl_register_sig; change (negb (1 =? 1)) with false; cbv iota;
  rewrite strtol_sprintf_i by (apply (version_parts _ Hv) || reflexivity);
  cbv iota beta; cbn [peek hd tl];
  change (Ascii.eqb "." ".") with true; cbn [negb]; cbv iota;
  rewrite strtol_sprintf_i by (apply (version_parts _ Hv) || reflexivity);
  cbv iota beta; cbn [peek hd tl];
  change (Ascii.eqb ":" ":") with true; cbn [negb]; cbv iota;
  rewrite (version_rejoined _ Hv).

(** [ssl_register_sig] on the text of [dump_sig]. *)
Lemma register_rendered sig cs es db generic sig_class sig_name
    sig_flavor label_id sys sys_cnt line_no :
  0 <= request_version sig < 2 ^ 16 ->
  cipher_suites sig = Some (map encode_token cs ++ [END_MARKER]) ->
  extensions sig = Some (map encode_token es ++ [END_MARKER]) ->
  Forall token_valid cs -> cs <> [] -> (length cs <= 128)%nat ->
  Forall token_valid es -> es <> [] -> (length es <= 128)%nat ->
  Z.land (flags sig) SSL_FLAG_COMPR = 0 ->
  exists line,
    dump_sig sig = Done line
    /\ ssl_register_sig db 1 generic sig_class sig_name sig_flavor label_id
                        sys sys_cnt line line_no
       = Done (db ++ [mk_ssl_sig_record sig_class sig_name sig_flavor label_id
                        sys sys_cnt line_no generic
                        (mk_ssl_sig (request_version sig) 0 0
                           (Some (map encode_token cs ++ [END_MARKER]))
                           (Some (map encode_token (map reread_extension es)
                                  ++ [END_MARKER]))
                           (reread_flags 0 (flags sig)) None)]).
Proof.
  intros Hv Hc He Hcs Hcne Hclen Hes Hene Helen Hfl.
  eexists. split; [apply (dump_sig_text sig _ _ Hc He) |].
  read_version Hv.
  rewrite (decode_rendered HK cs) by (assumption || (left; reflexivity)).
  cbn [bind peek hd tl]. cbv iota beta.
  change (Ascii.eqb ":" ":") with true. cbn [negb]. cbv iota.
  rewrite (dump_extensions_as_ciphers HK es 0 Hes).
  rewrite (decode_rendered HK (map reread_extension es)).
  - cbn [bind peek hd tl]. cbv iota beta.
    change (Ascii.eqb ":" ":") with true. cbn [negb]. cbv iota.
    cbn [set_extensions set_cipher_suites set_request_version zero_sig flags].
    rewrite (register_flags_text (flags sig) 0 Hfl). reflexivity.
  - apply Forall_forall. intros t Hin. apply in_map_iff in Hin.
    destruct Hin as (t0 & <- & Hin). apply reread_extension_valid.
    rewrite Forall_forall in Hes. apply Hes, Hin.
  - destruct es; [congruence | discriminate].
  - rewrite length_map. exact Helen.
  - left. reflexivity.
Qed.

(** X10: a signature with a 16-bit version, 1 to 128 reference tokens in
    each array and flags without the compression flag, rendered by
    [dump_sig], is accepted by [ssl_register_sig], which appends a record
    with the same version and cipher suites, the extensions with the value 0
    turned into the optional 0, and the flags that the table names. *)
Theorem rendered_signature_registers sig cs es db generic sig_class sig_name
    sig_flavor label_id sys sys_cnt line_no :
  0 <= request_version sig < 2 ^ 16 ->
  cipher_suites sig = Some (map encode_token cs ++ [END_MARKER]) ->
  extensions sig = Some (map encode_token es ++ [END_MARKER]) ->
  Forall token_valid cs -> cs <> [] -> (length cs <= 128)%nat ->
  Forall token_valid es -> es <> [] -> (length es <= 128)%nat ->
  Z.land (flags sig) SSL_FLAG_COMPR = 0 ->
  exists line,
    dump_sig sig = Done line
    /\ ssl_register_sig db 1 generic sig_class sig_name sig_flavor label_id
                        sys sys_cnt line line_no
       = Done (db ++ [mk_ssl_sig_record sig_class sig_name sig_flavor label_id
                        sys sys_cnt line_no generic
                        (mk_ssl_sig (request_version sig) 0 0
                           (Some (map encode_token cs ++ [END_MARKER]))
                           (Some (map encode_token (map reread_extension es)
                                  ++ [END_MARKER]))
                           (reread_flags 0 (flags sig)) None)]).
Proof. apply register_rendered. Qed.

(** The decoder on an empty field. *)
Lemma decode_hex_string_empty rest :
  terminated rest -> decode_hex_string rest = Done None.
Proof.
  intros Hrest. unfold decode_hex_string. cbn [decode_loop].
  unfold decode_value. destruct Hrest as [-> | ->]; reflexivity.
Qed.

(** The decoder on the cipher field of any array of reference tokens. *)
Lemma decode_rendered_any ts rest :
  Forall token_valid ts -> terminated rest ->
  decode_hex_string (dump_ciphers (map encode_token ts ++ [END_MARKER]) 0 ++ rest)
  = (if (128 <? length ts)%nat then Abort Fatal
     else if Nat.eqb (length ts) 0 then Done None
     else Done (Some (map encode_token ts ++ [END_MARKER], rest))).
Proof.
  intros Hts Hrest. destruct ts as [| t ts].
  - cbn [map app dump_ciphers length]. rewrite Z.eqb_refl. cbn [app].
    apply decode_hex_string_empty, Hrest.
  - destruct (Nat.ltb_spec 128 (length (t :: ts))) as [Hlong | Hfit].
    + rewrite (dump_ciphers_sequence HK (t :: ts) 0)
        by (lia || assumption || discriminate).
      cbn [comma Z.eqb negb app]. unfold decode_hex_string.
      destruct (decode_loop_sequence (map rendered_token (t :: ts)) 128 [] rest)
        as [_ Hfatal].
      * discriminate.
      * apply Forall_forall. intros t' Hin. apply in_map_iff in Hin.
        destruct Hin as (t0 & <- & _). apply rendered_token_ok.
      * exact Hrest.
      * apply Hfatal. rewrite length_map. exact Hlong.
    + cbn [length Nat.eqb].
      apply decode_rendered; try assumption; discriminate.
Qed.

(** X11: a signature with an empty extension array, such as the SSLv2
    dissector fills in, is rendered with an empty extension field, and
    [ssl_register_sig] ends in the fatal error on that text. *)
Theorem empty_extensions_not_registered sig cs db generic sig_class sig_name
    sig_flavor label_id sys sys_cnt line_no :
  0 <= request_version sig < 2 ^ 16 ->
  cipher_suites sig = Some (map encode_token cs ++ [END_MARKER]) ->
  Forall token_valid cs ->
  extensions sig = Some [END_MARKER] ->
  exists line,
    dump_sig sig = Done line
    /\ ssl_register_sig db 1 generic sig_class sig_name sig_flavor label_id
                        sys sys_cnt line line_no
       = Abort Fatal.
Proof.
  intros Hv Hc Hcs He.
  eexists. split; [apply (dump_sig_text sig _ _ Hc He) |].
  read_version Hv.
  rewrite (decode_rendered_any cs) by (assumption || (left; reflexivity)).
  destruct (128 <? length cs)%nat; [reflexivity |].
  destruct (Nat.eqb (length cs) 0); [reflexivity |].
  cbn [bind peek hd tl]. cbv iota beta.
  change (Ascii.eqb ":" ":") with true. cbn [negb]. cbv iota.
  cbn [dump_extensions]. rewrite Z.eqb_refl. cbn [app].
  rewrite decode_hex_string_empty by (left; reflexivity). reflexivity.
Qed.

End RegisterRendered.

(** X10, witness: the signature 3.1:2f,*:?0,ff01:ver,v2 of a table. *)
Lemma rendered_signature_registers_witness :
  exists line,
    @dump_sig p0f_consts
      (mk_ssl_sig 0x0301 0 0 (Some [0x2f; 0x20000000; 0x40000000])
                  (Some [0; 0xff01; 0x40000000]) 3 None) = Done line
    /\ @ssl_register_sig p0f_consts [] 1 0 1 7 None 0 [] 0 line 12
       = Done [mk_ssl_sig_record 1 7 None 0 [] 0 12 0
                 (mk_ssl_sig 0x0301 0 0 (Some [0x2f; 0x20000000; 0x40000000])
                    (Some [0x10000000; 0xff01; 0x40000000]) 3 None)].
Proof.
  apply (@rendered_signature_registers p0f_consts p0f_consts_ok
           (mk_ssl_sig 0x0301 0 0 (Some [0x2f; 0x20000000; 0x40000000])
                       (Some [0; 0xff01; 0x40000000]) 3 None)
           [Exact 0x2f; Wildcard] [Exact 0; Exact 0xff01] [] 0 1 7 None 0 [] 0 12).
  - simpl; lia.
  - reflexivity.
  - reflexivity.
  - repeat constructor; unfold is_value; lia.
  - discriminate.
  - simpl; lia.
  - repeat constructor; unfold is_value; lia.
  - discriminate.
  - simpl; lia.
  - reflexivity.
Defined.

(** X11, witness: the signature that the SSLv2 dissector fills in for
    [sslv2_hello]. *)
Lemma empty_extensions_not_registered_witness :
  exists sig line,
    @fingerprint_ssl_v2 p0f_consts zero_sig sslv2_hello 33 = Done (1, sig)
    /\ @dump_sig p0f_consts sig = Done line
    /\ @ssl_register_sig p0f_consts [] 1 0 1 7 None 0 [] 0 line 12 = Abort Fatal.
Proof.
  exists (mk_ssl_sig 0x0301 0 0 (Some [0x010080; 0x0700c0; 0x40000000])
                     (Some [0x40000000]) 0 None).
  destruct (@empty_extensions_not_registered p0f_consts p0f_consts_ok
              (mk_ssl_sig 0x0301 0 0 (Some [0x010080; 0x0700c0; 0x40000000])
                          (Some [0x40000000]) 0 None)
              [Exact 0x010080; Exact 0x0700c0] [] 0 1 7 None 0 [] 0 12)
    as (line & Hdump & Hreg).
  - simpl; lia.
  - reflexivity.
  - repeat constructor; unfold is_value; lia.
  - reflexivity.
  - exists line. split; [vm_compute; reflexivity |].
    split; [exact Hdump | exact Hreg].
Defined.

(** ** What the SSLv2 dissector accepts and stores *)

Section DissectedV2.
Context {K : ssl_consts}.

Lemma mod_step a b k : 0 < k -> (b - a) mod k = 0 -> (b - (a + k)) mod k = 0.
Proof.
  intros Hk H. replace (b - (a + k)) with (b - a + (-1) * k) by lia.
  rewrite Z.mod_add by lia. exact H.
Qed.

Lemma mod_step_fits a b k : 0 < k -> (b - a) mod k = 0 -> a < b -> a + k <= b.
Proof.
  intros Hk H Hlt. pose proof (Z.div_mod (b - a) k ltac:(lia)) as E.
  rewrite H in E. assert (0 < (b - a) / k) by nia. nia.
Qed.

(** The cipher loop stores the 3-byte groups of the region it walks. *)
Lemma v2_cipher_loop_triples fuel buf tmp_end : forall pay acc cs pay',
  v2_cipher_loop fuel buf pay tmp_end acc = Done (cs, pay') ->
  0 <= pay -> tmp_end <= Z.of_nat (length buf) ->
  (tmp_end - pay) mod 3 = 0 ->
  cs = acc ++ triples (window buf pay tmp_end).
Proof.
  induction fuel as [| fuel IH]; intros pay acc cs pay' H Hpay Hend Hmod;
    cbn [v2_cipher_loop] in H;
    destruct (Z.ltb_spec pay tmp_end) as [Hlt | Hge];
    try discriminate;
    try (apply Done_inj in H; injection H as <- _;
         rewrite window_empty by lia; cbn [triples]; rewrite app_nil_r;
         reflexivity).
  pose proof (mod_step_fits pay tmp_end 3 ltac:(lia) Hmod Hlt) as Hfit.
  destruct (window_cons buf pay tmp_end) as (x0 & Hr0 & ->); [lia | lia |].
  destruct (window_cons buf (pay + 1) tmp_end) as (x1 & Hr1 & ->); [lia | lia |].
  destruct (window_cons buf (pay + 1 + 1) tmp_end) as (x2 & Hr2 & ->);
    [lia | lia |].
  replace (pay + 1 + 1) with (pay + 2) in * by lia.
  replace (pay + 2 + 1) with (pay + 3) in * by lia.
  unfold rd24 in H. rewrite Hr0, Hr1, Hr2 in H. cbn [bind] in H.
  apply IH in H; [| lia | lia | apply mod_step; [lia | exact Hmod]].
  rewrite H, <- app_assoc. reflexivity.
Qed.

(** The verdict of the SSLv2 dissector. *)
Lemma fingerprint_ssl_v2_verdict sig0 buf pay_len :
  pay_len <= Z.of_nat (length buf) ->
  exists r sig,
    fingerprint_ssl_v2 sig0 buf pay_len = Done (r, sig)
    /\ (r = 1 \/ r = -1)
    /\ (r = 1 <-> 11 <= pay_len
                  /\ exists n, rd16 buf 5 = Done n /\ n mod 3 = 0
                               /\ 11 + n <= pay_len).
Proof.
  intros Hbuf. unfold fingerprint_ssl_v2, too_short, v2_truncated. cbv zeta.
  change (0 + sizeof_ssl2_hdr) with 11.
  change (0 + ssl2_ver_min) with 4. change (0 + ssl2_ver_maj) with 3.
  change (0 + ssl2_cipher_spec_length) with 5.
  change (0 + ssl2_session_id_length) with 7.
  change (0 + ssl2_challenge_length) with 9.
  change (0 + pay_len) with pay_len.
  destruct (Z.gtb_spec 11 pay_len) as [| Hhdr].
  { eexists; eexists. split; [reflexivity |]. split; [right; reflexivity |].
    split; [discriminate | lia]. }
  destruct (rd_in_bounds buf 4) as (ver_min & _ & ->); [lia |].
  destruct (rd_in_bounds buf 3) as (ver_maj & _ & ->); [lia |].
  destruct (rd16_in_bounds buf 5) as (c1 & c0 & _ & _ & Hcsl); [lia | lia |].
  rewrite Hcsl. cbn [bind]. fold (be16 c1 c0) in *.
  pose proof (be16_range c1 c0) as Hcs.
  destruct (Z.eqb_spec (be16 c1 c0 mod 3) 0) as [Hmod | Hmod]; cbn [negb].
  2: { eexists; eexists. split; [reflexivity |]. split; [right; reflexivity |].
       split; [discriminate |]. intros (_ & n & Hn & Hn3 & _).
       apply Done_inj in Hn. subst n. contradiction. }
  destruct (Z.gtb_spec (11 + be16 c1 c0) pay_len) as [Hover | Hfit].
  { eexists; eexists. split; [reflexivity |]. split; [right; reflexivity |].
    split; [discriminate |]. intros (_ & n & Hn & _ & Hnfit).
    apply Done_inj in Hn. subst n. lia. }
  destruct (v2_cipher_loop_done (Z.to_nat (be16 c1 c0)) buf (11 + be16 c1 c0)
              11 []) as (cs & ->); try lia.
  { replace (11 + be16 c1 c0 - 11) with (be16 c1 c0) by lia. exact Hmod. }
  cbn [bind].
  destruct (rd16_in_bounds buf 7) as (s1 & s0 & _ & _ & ->); [lia | lia |].
  destruct (rd16_in_bounds buf 9) as (h1 & h0 & _ & _ & ->); [lia | lia |].
  cbn [bind].
  assert (Hsame : forall (b : bool) (x : outcome (Z * ssl_sig)),
             (if b then x else x) = x) by (intros []; reflexivity).
  rewrite Hsame. eexists; eexists. split; [reflexivity |].
  split; [left; reflexivity |]. split; [| reflexivity].
  intros _. split; [lia |]. exists (be16 c1 c0). repeat split; assumption.
Qed.

(** X12: on a buffer that holds [pay_len] bytes the SSLv2 dissector
    returns 1 or -1, and 1 exactly when the 11 header bytes are there, the
    cipher-spec length is a multiple of 3, and the cipher specs lie within
    the [pay_len] bytes; the session id and the challenge may be cut off. *)
Theorem fingerprint_ssl_v2_accepts sig0 buf pay_len :
  pay_len <= Z.of_nat (length buf) ->
  exists r sig,
    fingerprint_ssl_v2 sig0 buf pay_len = Done (r, sig)
    /\ (r = 1 \/ r = -1)
    /\ (r = 1 <-> 11 <= pay_len
                  /\ exists n, rd16 buf 5 = Done n /\ n mod 3 = 0
                               /\ 11 + n <= pay_len).
Proof. apply fingerprint_ssl_v2_verdict. Qed.

(** X13: what an accepted SSLv2 hello leaves in the signature: the
    version of the bytes 3 and 4 (2.0 for the bytes 0, 2), the 3-byte
    big-endian groups of the cipher specs in their order, no extension, and
    the flags it had. *)
Theorem sslv2_signature_fields sig0 buf pay_len sig :
  pay_len <= Z.of_nat (length buf) ->
  fingerprint_ssl_v2 sig0 buf pay_len = Done (1, sig) ->
  exists n maj min,
    rd16 buf 5 = Done n /\ rd buf 3 = Done maj /\ rd buf 4 = Done min
    /\ request_version sig
       = (if (min =? 2) && (maj =? 0) then 0x0200
          else Z.lor (Z.shiftl maj 8) min)
    /\ cipher_suites sig
       = Some (triples (window buf 11 (11 + n)) ++ [END_MARKER])
    /\ extensions sig = Some [END_MARKER]
    /\ flags sig = flags sig0.
Proof.
  intros Hbuf H. apply fingerprint_ssl_v2_success in H.
  destruct H as (min & maj & n & cs & pay' & Hmin & Hmaj & Hn & Hmod & Hfit
                 & Hloop & ->).
  exists n, maj, min. repeat (split; [assumption |]).
  apply v2_cipher_loop_triples in Hloop;
    [| lia | lia | replace (11 + n - 11) with n by lia; exact Hmod].
  cbn [app] in Hloop. subst cs.
  destruct ((min =? 2) && (maj =? 0)); repeat split; reflexivity.
Qed.

End DissectedV2.

(** X12, witness: the hello [sslv2_hello] of 33 bytes is accepted. *)
Lemma fingerprint_ssl_v2_accepts_witness :
  exists r sig,
    @fingerprint_ssl_v2 p0f_consts zero_sig sslv2_hello 33 = Done (r, sig)
    /\ (r = 1 \/ r = -1)
    /\ (r = 1 <-> 11 <= 33
                  /\ exists n, rd16 sslv2_hello 5 = Done n /\ n mod 3 = 0
                               /\ 11 + n <= 33).
Proof.
  apply (@fingerprint_ssl_v2_accepts p0f_consts zero_sig sslv2_hello 33).
  simpl; lia.
Defined.

(** X13, witness: the two cipher specs of [sslv2_hello]. *)
Lemma sslv2_signature_fields_witness :
  exists n maj min,
    rd16 sslv2_hello 5 = Done n /\ rd sslv2_hello 3 = Done maj
    /\ rd sslv2_hello 4 = Done min
    /\ request_version
         (mk_ssl_sig 0x0301 0 0 (Some [0x010080; 0x0700c0; 0x40000000])
                     (Some [0x40000000]) 0 None)
       = (if (min =? 2) && (maj =? 0) then 0x0200
          else Z.lor (Z.shiftl maj 8) min)
    /\ cipher_suites
         (mk_ssl_sig 0x0301 0 0 (Some [0x010080; 0x0700c0; 0x40000000])
                     (Some [0x40000000]) 0 None)
       = Some (triples (window sslv2_hello 11 (11 + n)) ++ [@END_MARKER p0f_consts])
    /\ extensions
         (mk_ssl_sig 0x0301 0 0 (Some [0x010080; 0x0700c0; 0x40000000])
                     (Some [0x40000000]) 0 None)
       = Some [@END_MARKER p0f_consts]
    /\ flags
         (mk_ssl_sig 0x0301 0 0 (Some [0x010080; 0x0700c0; 0x40000000])
                     (Some [0x40000000]) 0 None)
       = flags zero_sig.
Proof.
  apply (@sslv2_signature_fields p0f_consts zero_sig sslv2_hello 33).
  - simpl; lia.
  - vm_compute. reflexivity.
Defined.

(** ** What the SSLv3 dissector accepts and stores *)

Section DissectedV3.
Context {K : ssl_consts}.

(** The cipher loop stores the 2-byte groups of the region it walks. *)
Lemma v3_cipher_loop_pairs fuel buf tmp_end : forall pay acc cs pay',
  v3_cipher_loop fuel buf pay tmp_end acc = Done (cs, pay') ->
  0 <= pay -> tmp_end <= Z.of_nat (length buf) ->
  (tmp_end - pay) mod 2 = 0 ->
  cs = acc ++ pairs (window buf pay tmp_end).
Proof.
  induction fuel as [| fuel IH]; intros pay acc cs pay' H Hpay Hend Hmod;
    cbn [v3_cipher_loop] in H;
    destruct (Z.ltb_spec pay tmp_end) as [Hlt | Hge];
    try discriminate;
    try (apply Done_inj in H; injection H as <- _;
         rewrite window_empty by lia; cbn [pairs]; rewrite app_nil_r;
         reflexivity).
  pose proof (mod_step_fits pay tmp_end 2 ltac:(lia) Hmod Hlt) as Hfit.
  destruct (window_rd16 buf pay tmp_end) as (b1 & b0 & Hr & ->);
    [lia | lia | lia |].
  rewrite Hr in H. cbn [bind] in H.
  apply IH in H; [| lia | lia | apply mod_step; [lia | exact Hmod]].
  rewrite H, <- app_assoc. reflexivity.
Qed.

(** Past the cipher suites no path of the dissector fails. *)
Lemma v3_compression_extensions_status sig buf pay pay_end r sig' :
  v3_compression_extensions sig buf pay pay_end = Done (r, sig') -> r = 1.
Proof.
  unfold v3_compression_extensions, v3_truncated. intros H.
  repeat match type of H with
         | (if ?c then _ else _) = _ => destruct c
         | bind _ _ = Done _ =>
             let x := fresh "x" in
             apply bind_done in H; destruct H as (x & _ & H);
             try destruct x
         | Done _ = Done _ => apply Done_inj in H; injection H as <- _
         | _ => progress cbv beta iota zeta in H
         end; reflexivity.
Qed.

(** What a run that does not end in -1 has read. *)
Lemma fingerprint_ssl_v3_inv sig0 fragment frag_len rv lt r sig :
  fingerprint_ssl_v3 sig0 fragment frag_len rv lt = Done (r, sig) ->
  r = -1
  \/ exists msg_len ver time sid_len cs_len cs pay',
       rd24 fragment 1 = Done msg_len /\ 4 + msg_len <= frag_len
       /\ rd fragment 0 = Done SSL3_MSG_CLIENT_HELLO /\ 35 <= msg_len
       /\ rd16 fragment 4 = Done ver /\ rd32 fragment 6 = Done time
       /\ rd fragment 38 = Done sid_len /\ 37 + sid_len <= msg_len
       /\ rd16 fragment (39 + sid_len) = Done cs_len /\ cs_len mod 2 = 0
       /\ 37 + sid_len + cs_len <= msg_len
       /\ v3_cipher_loop (Z.to_nat cs_len) fragment (41 + sid_len)
                         (41 + sid_len + cs_len) [] = Done (cs, pay')
       /\ v3_compression_extensions
            (set_cipher_suites
               (v3_remote_time (v3_request_version sig0 ver rv) time lt)
               (Some (cs ++ [END_MARKER])))
            fragment pay' (4 + msg_len) = Done (r, sig).
Proof.
  unfold fingerprint_ssl_v3, too_short. cbv zeta. intros H.
  change (0 + ssl3_length) with 1 in H.
  change (0 + ssl3_message_type) with 0 in H.
  change (0 + sizeof_ssl3_message_hdr) with 4 in H.
  change (0 + frag_len) with frag_len in H.
  change (4 + 2 + 4 + 28 + 1) with 39 in H.
  change (4 + 2 + 4 + 28) with 38 in H. change (4 + 2) with 6 in H.
  apply bind_done in H. destruct H as (msg_len & Hml & H).
  destruct (Z.gtb_spec (4 + msg_len) frag_len) as [| Hmfit].
  { left. apply Done_inj in H. congruence. }
  apply bind_done in H. destruct H as (mt & Hmt & H).
  destruct (Z.eqb_spec mt SSL3_MSG_CLIENT_HELLO) as [-> |]; cbn [negb] in H.
  2: { left. apply Done_inj in H. congruence. }
  destruct (Z.gtb_spec 39 (4 + msg_len)) as [| Hfixed].
  { left. apply Done_inj in H. congruence. }
  apply bind_done in H. destruct H as (ver & Hver & H).
  apply bind_done in H. destruct H as (time & Htime & H).
  apply bind_done in H. destruct H as (sid & Hsid & H).
  destruct (Z.gtb_spec (39 + sid + 2) (4 + msg_len)) as [| Hsfit].
  { left. apply Done_inj in H. congruence. }
  apply bind_done in H. destruct H as (csl & Hcsl & H).
  destruct (Z.eqb_spec (csl mod 2) 0) as [Heven |]; cbn [negb] in H.
  2: { left. apply Done_inj in H. congruence. }
  destruct (Z.gtb_spec (39 + sid + 2 + csl) (4 + msg_len)) as [| Hcfit].
  { left. apply Done_inj in H. congruence. }
  apply bind_done in H. destruct H as ([cs pay'] & Hloop & H).
  right. exists msg_len, ver, time, sid, csl, cs, pay'.
  replace (39 + sid + 2) with (41 + sid) in * by lia.
  repeat (split; [assumption || lia |]). exact H.
Qed.

(** The fields that neither the compression loop nor the extension loop
    write. *)
Lemma compression_loop_keeps {A : Type} (f : ssl_sig -> A) :
  (forall s v, f (set_flags s v) = f s) ->
  forall fuel buf pay tmp_end sig sig' pay',
    compression_loop fuel buf pay tmp_end sig = Done (sig', pay') ->
    f sig' = f sig.
Proof.
  intros Hf. induction fuel as [| fuel IH]; intros buf pay tmp_end sig sig' pay' H;
    cbn [compression_loop] in H; destruct (pay <? tmp_end); try discriminate;
    try (apply Done_inj in H; injection H as <- _; reflexivity).
  apply bind_done in H. destruct H as (m & _ & H). apply IH in H.
  rewrite H. destruct (m =? 1); [apply Hf | reflexivity].
Qed.

Lemma v3_compression_extensions_keeps {A : Type} (f : ssl_sig -> A)
      sig buf pay pay_end r sig' :
  (forall s v, f (set_flags s v) = f s) ->
  (forall s v, f (set_extensions s v) = f s) ->
  v3_compression_extensions sig buf pay pay_end = Done (r, sig') ->
  f sig' = f sig.
Proof.
  intros Hfl Hex.
  assert (Htr : forall s r' s', v3_truncated s = Done (r', s') -> f s' = f s).
  { unfold v3_truncated. intros s r' s' H. apply Done_inj in H.
    injection H as _ <-. destruct (extensions s); [reflexivity | apply Hex]. }
  unfold v3_compression_extensions. intros H.
  destruct (_ >? _); [apply (Htr _ _ _ H) |].
  apply bind_done in H. destruct H as (n & _ & H).
  destruct (_ >? _); [apply (Htr _ _ _ H) |].
  apply bind_done in H. destruct H as ([sig1 pay1] & Hloop & H).
  apply (compression_loop_keeps f Hfl) in Hloop. rewrite <- Hloop.
  destruct (_ >? _); [apply (Htr _ _ _ H) |].
  apply bind_done in H. destruct H as (el & _ & H).
  destruct (_ >? _); [apply (Htr _ _ _ H) |].
  apply bind_done in H. destruct H as ([es pay2] & _ & H).
  apply Htr in H. rewrite H. apply Hex.
Qed.

(** A hello that is well-formed through the cipher suites is accepted. *)
Lemma through_ciphers_accepted sig0 fragment frag_len rv lt
      msg_len sid_len cs_len r sig :
  through_ciphers fragment frag_len msg_len sid_len cs_len ->
  fingerprint_ssl_v3 sig0 fragment frag_len rv lt = Done (r, sig) -> r = 1.
Proof.
  intros Htc H.
  destruct (fingerprint_ssl_v3_through_ciphers sig0 fragment frag_len rv lt
              _ _ _ Htc) as (sig1 & cs & E & _).
  rewrite E in H. apply (v3_compression_extensions_status _ _ _ _ _ _ H).
Qed.

(** X14: on a fragment of at least 4 bytes that the buffer holds, the
    SSLv3 dissector returns 1 or -1, and 1 exactly when the fragment is
    well-formed through the cipher-suite list: the message lies within the
    fragment, is a ClientHello, and holds the fixed part, the session id
    and an even number of cipher-suite bytes; whatever follows the cipher
    suites does not change the answer. *)
Theorem fingerprint_ssl_v3_accepts sig0 fragment frag_len rv lt :
  4 <= frag_len <= Z.of_nat (length fragment) ->
  exists r sig,
    fingerprint_ssl_v3 sig0 fragment frag_len rv lt = Done (r, sig)
    /\ (r = 1 \/ r = -1)
    /\ (r = 1 <-> exists msg_len sid_len cs_len,
                    through_ciphers fragment frag_len msg_len sid_len cs_len).
Proof.
  intros [Hfour Hbuf].
  destruct (fingerprint_ssl_v3_returns sig0 fragment frag_len rv lt Hfour Hbuf)
    as ([r sig] & Hrun).
  exists r, sig. split; [exact Hrun |].
  pose proof (fingerprint_ssl_v3_inv _ _ _ _ _ _ _ Hrun) as Hinv.
  split; [| split].
  - destruct Hinv as [-> | Hinv]; [right; reflexivity |].
    destruct Hinv as (? & ? & ? & ? & ? & ? & ? & Hinv).
    left. decompose [and] Hinv.
    eapply v3_compression_extensions_status; eassumption.
  - intros ->. destruct Hinv as [Hinv | Hinv]; [discriminate |].
    destruct Hinv as (msg_len & ver & time & sid & csl & cs & pay' & Hinv).
    decompose [and] Hinv. exists msg_len, sid, csl.
    constructor; assumption.
  - intros (msg_len & sid & csl & Htc).
    apply (through_ciphers_accepted _ _ _ _ _ _ _ _ _ _ Htc Hrun).
Qed.

(** X15: what an accepted ClientHello leaves in the signature: the
    version of the bytes 4 and 5, the time of the bytes 6 to 9 and its
    distance from the local time, and the 2-byte big-endian groups of the
    cipher-suite bytes in their order. *)
Theorem client_hello_fields sig0 fragment frag_len rv lt msg_len sid_len cs_len :
  through_ciphers fragment frag_len msg_len sid_len cs_len ->
  exists sig ver time,
    fingerprint_ssl_v3 sig0 fragment frag_len rv lt = Done (1, sig)
    /\ rd16 fragment 4 = Done ver /\ rd32 fragment 6 = Done time
    /\ request_version sig = ver
    /\ remote_time sig = time
    /\ drift sig = to_s32 (lt - time)
    /\ cipher_suites sig
       = Some (pairs (window fragment (41 + sid_len) (41 + sid_len + cs_len))
               ++ [END_MARKER])
    /\ matched sig = matched sig0.
Proof.
  intros Htc. pose proof Htc as [Hbuf Hml Hmfit Hhello Hfixed Hsid Hsfit Hcs
                                 Heven Hcfit].
  destruct (fingerprint_ssl_v3_returns sig0 fragment frag_len rv lt)
    as ([r sig] & Hrun); [lia | lia |].
  pose proof (through_ciphers_accepted _ _ _ _ _ _ _ _ _ _ Htc Hrun) as ->.
  destruct (fingerprint_ssl_v3_inv _ _ _ _ _ _ _ Hrun) as [| Hinv];
    [discriminate |].
  destruct Hinv as (msg_len' & ver & time & sid' & csl' & cs & pay' & Hml'
                    & _ & _ & _ & Hver & Htime & Hsid' & _ & Hcs' & _ & _
                    & Hloop & Hrest).
  rewrite Hml in Hml'. apply Done_inj in Hml'. subst msg_len'.
  rewrite Hsid in Hsid'. apply Done_inj in Hsid'. subst sid'.
  rewrite Hcs in Hcs'. apply Done_inj in Hcs'. subst csl'.
  pose proof (rd_done _ _ _ Hsid) as (_ & Hsid_range & _).
  apply v3_cipher_loop_pairs in Hloop;
    [| lia | lia
     | replace (41 + sid_len + cs_len - (41 + sid_len)) with cs_len by lia;
       exact Heven].
  cbn [app] in Hloop. subst cs.
  exists sig, ver, time. repeat (split; [assumption |]).
  assert (Hrt : forall s, request_version (v3_remote_time s time lt)
                          = request_version s
                          /\ remote_time (v3_remote_time s time lt) = time
                          /\ drift (v3_remote_time s time lt) = to_s32 (lt - time)).
  { intros s. unfold v3_remote_time. cbv zeta.
    destruct (_ <? _); [repeat split |]. destruct (_ >? _); repeat split. }
  assert (Hrv : request_version (v3_request_version sig0 ver rv) = ver).
  { unfold v3_request_version. cbv zeta. destruct (negb _); reflexivity. }
  split; [| split; [| split; [| split]]].
  - rewrite (v3_compression_extensions_keeps request_version _ _ _ _ _ _
               (fun _ _ => eq_refl) (fun _ _ => eq_refl) Hrest).
    cbn [request_version set_cipher_suites].
    rewrite (proj1 (Hrt _)). exact Hrv.
  - rewrite (v3_compression_extensions_keeps remote_time _ _ _ _ _ _
               (fun _ _ => eq_refl) (fun _ _ => eq_refl) Hrest).
    cbn [remote_time set_cipher_suites]. apply Hrt.
  - rewrite (v3_compression_extensions_keeps drift _ _ _ _ _ _
               (fun _ _ => eq_refl) (fun _ _ => eq_refl) Hrest).
    cbn [drift set_cipher_suites]. apply Hrt.
  - rewrite (v3_compression_extensions_keeps cipher_suites _ _ _ _ _ _
               (fun _ _ => eq_refl) (fun _ _ => eq_refl) Hrest).
    reflexivity.
  - apply (fingerprint_ssl_v3_matched _ _ _ _ _ _ Hrun).
Qed.

End DissectedV3.

(** X14, witness: the ClientHello [hello_whole] of 51 bytes. *)
Lemma fingerprint_ssl_v3_accepts_witness :
  exists r sig,
    @fingerprint_ssl_v3 p0f_consts zero_sig hello_whole 51 0x0301 0 = Done (r, sig)
    /\ (r = 1 \/ r = -1)
    /\ (r = 1 <-> exists msg_len sid_len cs_len,
                    @through_ciphers p0f_consts hello_whole 51 msg_len sid_len cs_len).
Proof.
  apply (@fingerprint_ssl_v3_accepts p0f_consts zero_sig hello_whole 51 0x0301 0).
  split; [lia | vm_compute; discriminate].
Defined.

(** X15, witness: the one cipher suite 002f of [hello_whole]. *)
Lemma client_hello_fields_witness :
  exists sig ver time,
    @fingerprint_ssl_v3 p0f_consts zero_sig hello_whole 51 0x0301 0 = Done (1, sig)
    /\ rd16 hello_whole 4 = Done ver /\ rd32 hello_whole 6 = Done time
    /\ request_version sig = ver
    /\ remote_time sig = time
    /\ drift sig = to_s32 (0 - time)
    /\ cipher_suites sig
       = Some (pairs (window hello_whole (41 + 0) (41 + 0 + 2))
               ++ [@END_MARKER p0f_consts])
    /\ matched sig = matched zero_sig.
Proof.
  apply (@client_hello_fields p0f_consts zero_sig hello_whole 51 0x0301 0 47 0 2).
  exact hello_whole_through_ciphers.
Defined.

(** ** The flow state and the observation *)

Section FlowState.
Context {K : ssl_consts}.

Lemma set_in_ssl_same f : set_in_ssl f (in_ssl f) = f.
Proof. destruct f. reflexivity. Qed.

(** The observation that [fingerprint_ssl] writes: the start and four
    fields in a fixed order. *)
Lemma fingerprint_ssl_shape signatures fp_os_names to_srv sig evs :
  fingerprint_ssl signatures fp_os_names to_srv sig = Done evs ->
  exists who name ms d raw,
    evs = [ StartObservation (str "ssl request") 4 to_srv;
            ObservationField who name;
            ObservationField (str "match_sig") ms;
            ObservationField (str "drift") d;
            ObservationField (str "raw_sig") (Some raw) ]
    /\ (who = str "app" \/ who = str "os")
    /\ (name = None <-> ms = None).
Proof.
  unfold fingerprint_ssl. intros H.
  apply bind_done in H. destruct H as (sig' & _ & H).
  apply bind_done in H. destruct H as (fields & Hf & H).
  apply bind_done in H. destruct H as (raw & _ & H).
  apply Done_inj in H. subst evs.
  assert (Hd : exists d,
             (if Z.land (flags sig') (Z.lor SSL_FLAG_TIME SSL_FLAG_STIME) =? 0
              then ObservationField (str "drift")
                     (Some (sprintf_i (c_abs (drift sig'))))
              else ObservationField (str "drift") None)
             = ObservationField (str "drift") d).
  { destruct (_ =? 0); eexists; reflexivity. }
  destruct Hd as (d & ->).
  destruct (matched sig') as [i |].
  - destruct (nth_error signatures i) as [m |]; [| discriminate].
    apply bind_done in Hf. destruct Hf as (ms & _ & Hf).
    apply Done_inj in Hf. subst fields. cbn [app].
    do 5 eexists. split; [reflexivity |]. split.
    + destruct (class_id m <? 0); [left | right]; reflexivity.
    + split; discriminate.
  - apply Done_inj in Hf. subst fields. cbn [app].
    do 5 eexists. split; [reflexivity |]. split; [left; reflexivity |].
    split; reflexivity.
Qed.

(** The three ways in which [process_ssl] ends: without a decision, on
    [process_result] without a dissector call, or on [process_result] after
    one dissector call. *)
Lemma process_ssl_cases signatures fp_os_names to_srv f ret f' evs :
  process_ssl signatures fp_os_names to_srv f = Done (ret, f', evs) ->
  (f' = f /\ evs = []
   /\ (ret = 0 \/ (ret = 1 /\ req_len f < MAX_FLOW_DATA)))
  \/ (in_ssl f = 0 /\ to_srv <> 0 /\ 6 <= req_len f
      /\ exists success sig calls,
           process_result signatures fp_os_names to_srv f success sig calls
           = Done (ret, f', evs)
           /\ ((calls = [] /\ success = 0)
               \/ exists call, calls = [call] /\ ~ is_observation call)).
Proof.
  unfold process_ssl. cbv zeta. intros H.
  destruct (Z.eqb_spec (in_ssl f) 0) as [Hin |]; cbn [negb] in H.
  2: { apply Done_inj in H. injection H as <- <- <-. left. auto. }
  destruct (Z.eqb_spec to_srv 0) as [| Hsrv].
  { apply Done_inj in H. injection H as <- <- <-. left. auto. }
  assert (Hmore : forall r f1 (e1 : list event),
             Done ((if req_len f <? MAX_FLOW_DATA then 1 else 0), f, @nil event)
             = Done (r, f1, e1) ->
             f1 = f /\ e1 = []
             /\ (r = 0 \/ (r = 1 /\ req_len f < MAX_FLOW_DATA))).
  { intros r f1 e1 E. apply Done_inj in E. injection E as <- <- <-.
    destruct (Z.ltb_spec (req_len f) MAX_FLOW_DATA); auto. }
  destruct (Z.ltb_spec (req_len f) 6) as [| Hsix].
  { left. apply Hmore, H. }
  apply bind_done in H. destruct H as (msg_length & _ & H).
  apply bind_done in H. destruct H as (fragment_len & _ & H).
  apply bind_done in H. destruct H as (is_v2 & _ & H).
  destruct is_v2.
  - destruct (req_len f <? _); [left; apply Hmore, H |].
    apply bind_done in H. destruct H as ([success sig] & _ & H).
    right. repeat (split; [assumption |]).
    do 3 eexists. split; [exact H |]. right. eexists. split; [reflexivity |].
    exact (fun x => x).
  - apply bind_done in H. destruct H as (is_v3 & _ & H).
    destruct is_v3.
    + destruct (req_len f <? _); [left; apply Hmore, H |].
      apply bind_done in H. destruct H as (ver_maj & _ & H).
      apply bind_done in H. destruct H as (ver_min & _ & H).
      apply bind_done in H. destruct H as ([success sig] & _ & H).
      right. repeat (split; [assumption |]).
      do 3 eexists. split; [exact H |]. right. eexists.
      split; [reflexivity |]. exact (fun x => x).
    + right. repeat (split; [assumption |]).
      do 3 eexists. split; [exact H |]. left. split; reflexivity.
Qed.

(** X16: [process_ssl] writes nothing of the flow but [in_ssl], and that
    only from 0 to 1 or to -1, on a client packet, with the result 0.  The
    result is 0 or 1, and 1 ("more data needed") only with the flow and the
    observations untouched and the buffer below [MAX_FLOW_DATA]. *)
Theorem process_ssl_transitions signatures fp_os_names to_srv f ret f' evs :
  process_ssl signatures fp_os_names to_srv f = Done (ret, f', evs) ->
  req_len f' = req_len f /\ request f' = request f
  /\ last_seen f' = last_seen f
  /\ (ret = 0 \/ ret = 1)
  /\ (ret = 1 -> f' = f /\ evs = [] /\ req_len f < MAX_FLOW_DATA)
  /\ (in_ssl f' = in_ssl f -> f' = f /\ evs = [])
  /\ (in_ssl f' <> in_ssl f ->
      in_ssl f = 0 /\ to_srv <> 0 /\ ret = 0
      /\ (in_ssl f' = 1 \/ in_ssl f' = -1)).
Proof.
  intros H. apply process_ssl_cases in H.
  destruct H as [(-> & -> & Hret) | (Hin & Hsrv & _ & success & sig & calls & H & _)].
  - split; [reflexivity |]. split; [reflexivity |]. split; [reflexivity |].
    split; [destruct Hret as [-> | [-> _]]; auto |].
    split; [intros ->; destruct Hret as [E | [_ Hlt]]; [discriminate | auto] |].
    split; [auto | intros E; congruence].
  - unfold process_result in H.
    assert (Hf' : ret = 0 /\ exists v, (v = 1 \/ v = -1) /\ f' = set_in_ssl f v).
    { destruct (negb (success =? 1)).
      - apply Done_inj in H. injection H as <- <- _.
        split; [reflexivity |]. exists (-1). auto.
      - apply bind_done in H. destruct H as (obs & _ & H).
        apply Done_inj in H. injection H as <- <- _.
        split; [reflexivity |]. exists 1. auto. }
    destruct Hf' as (-> & v & Hv & ->). cbn [in_ssl req_len request last_seen set_in_ssl].
    split; [reflexivity |]. split; [reflexivity |]. split; [reflexivity |].
    split; [left; reflexivity |].
    split; [discriminate |].
    split; [intros E; lia |].
    intros _. repeat (split; [assumption || reflexivity |]). exact Hv.
Qed.

(** X17: when [process_ssl] decides a flow, the observation is written
    exactly when the flow becomes SSL: then the events are one dissector
    call, the start of an observation of 4 fields and the four fields app or
    os, match_sig, drift and raw_sig in this order, with match_sig absent
    exactly when the first field is; otherwise there is at most the
    dissector call. *)
Theorem observation_on_confirmation signatures fp_os_names to_srv f ret f' evs :
  process_ssl signatures fp_os_names to_srv f = Done (ret, f', evs) ->
  in_ssl f = 0 ->
  (in_ssl f' = 1
   /\ exists call who name ms d raw,
        evs = [ call;
                StartObservation (str "ssl request") 4 to_srv;
                ObservationField who name;
                ObservationField (str "match_sig") ms;
                ObservationField (str "drift") d;
                ObservationField (str "raw_sig") (Some raw) ]
        /\ ~ is_observation call
        /\ (who = str "app" \/ who = str "os")
        /\ (name = None <-> ms = None))
  \/ (in_ssl f' <> 1
      /\ Forall (fun e => ~ is_observation e) evs
      /\ (length evs <= 1)%nat).
Proof.
  intros H Hin. apply process_ssl_cases in H.
  destruct H as [(-> & -> & _) | (_ & _ & _ & success & sig & calls & H & Hcalls)].
  { right. split; [lia |]. split; [constructor | cbn; lia]. }
  unfold process_result in H.
  destruct (Z.eqb_spec success 1) as [-> | Hfail]; cbn [negb] in H.
  - apply bind_done in H. destruct H as (obs & Hobs & H).
    apply Done_inj in H. injection H as _ <- <-.
    destruct Hcalls as [[_ E] | (call & -> & Hcall)]; [discriminate |].
    apply fingerprint_ssl_shape in Hobs.
    destruct Hobs as (who & name & ms & d & raw & -> & Hwho & Hname).
    left. split; [reflexivity |].
    exists call, who, name, ms, d, raw. cbn [app]. auto.
  - apply Done_inj in H. injection H as _ <- <-.
    right. split; [cbn; lia |].
    destruct Hcalls as [[-> _] | (call & -> & Hcall)].
    + split; [constructor | cbn; lia].
    + split; [repeat constructor; exact Hcall | cbn; lia].
Qed.

Lemma top_bit_clear b0 b1 :
  0 <= b0 < 0x80 -> 0 <= b1 < 256 ->
  Z.land (Z.lor (Z.shiftl b0 8) b1) 0x8000 = 0.
Proof.
  intros H0 H1. change 0x8000 with (2 ^ 15).
  apply Z.bits_inj'. intros n Hn.
  rewrite Z.land_spec, Z.bits_0, Z.pow2_bits_eqb by lia.
  destruct (Z.eqb_spec 15 n) as [<- |]; [| apply andb_false_r].
  rewrite andb_true_r, Z.lor_spec, Z.shiftl_spec by lia.
  assert (Hb : forall x k, 0 <= x < 2 ^ k -> 0 <= k -> Z.testbit x k = false).
  { intros x k Hx Hk. destruct (Z.eq_dec x 0) as [-> | Hx0]; [apply Z.bits_0 |].
    apply Z.bits_above_log2; [lia |]. apply Z.log2_lt_pow2; lia. }
  change (15 - 8) with 7. rewrite (Hb b0 7) by lia. cbn [orb].
  destruct (Z.eq_dec b1 0) as [-> | Hb1]; [apply Z.bits_0 |].
  apply Z.bits_above_log2; [lia |].
  assert (Z.log2 b1 < 8) by (apply Z.log2_lt_pow2; lia). lia.
Qed.

(** X18: a client flow of at least 6 buffered bytes whose first byte is
    below 0x80 and is not the handshake record type is decided as not SSL at
    once: no dissector is called and nothing is observed. *)
Theorem plain_text_flow_rejected signatures fp_os_names to_srv f b0 :
  in_ssl f = 0 -> to_srv <> 0 ->
  6 <= req_len f -> 6 <= Z.of_nat (length (request f)) ->
  rd (request f) 0 = Done b0 -> b0 < 0x80 -> b0 <> SSL3_REC_HANDSHAKE ->
  process_ssl signatures fp_os_names to_srv f
  = Done (0, set_in_ssl f (-1), []).
Proof.
  intros Hin Hsrv Hreq Hbuf Hb0 Hlow Hrec.
  unfold process_ssl. cbv zeta.
  rewrite Hin. cbn [Z.eqb negb].
  destruct (Z.eqb_spec to_srv 0) as [| _]; [contradiction |].
  destruct (Z.ltb_spec (req_len f) 6) as [| _]; [lia |].
  change ssl2_msg_length with 0. change ssl3_rec_length with 3.
  change ssl3_content_type with 0.
  destruct (rd_in_bounds (request f) 1) as (x1 & _ & Hb1); [lia |].
  destruct (rd16_in_bounds (request f) 3) as (l1 & l0 & _ & _ & ->);
    [lia | lia |].
  unfold rd16 at 1. change (0 + 1) with 1. rewrite Hb0, Hb1. cbn [bind].
  pose proof (rd_done _ _ _ Hb0) as (_ & Hr0 & _).
  rewrite (top_bit_clear b0 (u8_of x1)) by (lia || apply u8_of_range).
  cbn [Z.eqb negb mand bind].
  unfold mand at 1, test at 1. cbn [bind].
  destruct (Z.eqb_spec b0 SSL3_REC_HANDSHAKE) as [| _]; [contradiction |].
  cbn [bind]. reflexivity.
Qed.

End FlowState.

(** X16, witness: the six bytes of an HTTP request move the flow from
    undecided to not SSL. *)
Lemma process_ssl_transitions_witness :
  @process_ssl p0f_consts [] (fun _ => []) 1 (mk_packet_flow 0 6 http_request 0)
  = Done (0, mk_packet_flow (-1) 6 http_request 0, [])
  /\ request (mk_packet_flow (-1) 6 http_request 0) = http_request
  /\ (in_ssl (mk_packet_flow (-1) 6 http_request 0) = 1
      \/ in_ssl (mk_packet_flow (-1) 6 http_request 0) = -1).
Proof.
  assert (H : @process_ssl p0f_consts [] (fun _ => []) 1
                (mk_packet_flow 0 6 http_request 0)
              = Done (0, mk_packet_flow (-1) 6 http_request 0, []))
    by (vm_compute; reflexivity).
  split; [exact H |].
  destruct (@process_ssl_transitions p0f_consts _ _ _ _ _ _ _ H)
    as (_ & Hreq & _ & _ & _ & _ & Hchg).
  split; [exact Hreq |]. apply Hchg. discriminate.
Defined.

(** X17, witness: the TLS record [tls_record] on the table
    [table_example]. *)
Lemma observation_on_confirmation_witness :
  exists ret f' evs,
    @process_ssl p0f_consts table_example (fun _ => str "Firefox") 1
      (mk_packet_flow 0 56 tls_record 0x50000000) = Done (ret, f', evs)
    /\ ((in_ssl f' = 1
         /\ exists call who name ms d raw,
              evs = [ call;
                      StartObservation (str "ssl request") 4 1;
                      ObservationField who name;
                      ObservationField (str "match_sig") ms;
                      ObservationField (str "drift") d;
                      ObservationField (str "raw_sig") (Some raw) ]
              /\ ~ is_observation call
              /\ (who = str "app" \/ who = str "os")
              /\ (name = None <-> ms = None))
        \/ (in_ssl f' <> 1
            /\ Forall (fun e => ~ is_observation e) evs
            /\ (length evs <= 1)%nat)).
Proof.
  destruct (@process_ssl p0f_consts table_example (fun _ => str "Firefox") 1
              (mk_packet_flow 0 56 tls_record 0x50000000))
    as [[[ret f'] evs] | e] eqn:E.
  - exists ret, f', evs. split; [reflexivity |].
    apply (@observation_on_confirmation p0f_consts _ _ _ _ _ _ _ E).
    reflexivity.
  - vm_compute in E. discriminate E.
Defined.

(** X18, witness. *)
Lemma plain_text_flow_rejected_witness :
  @process_ssl p0f_consts table_example (fun _ => str "Firefox") 1
    (mk_packet_flow 0 6 http_request 0)
  = Done (0, set_in_ssl (mk_packet_flow 0 6 http_request 0) (-1), []).
Proof.
  apply (@plain_text_flow_rejected p0f_consts table_example
           (fun _ => str "Firefox") 1 (mk_packet_flow 0 6 http_request 0) 0x47).
  - reflexivity.
  - discriminate.
  - simpl; lia.
  - simpl; lia.
  - reflexivity.
  - lia.
  - discriminate.
Defined.

(** ** The compression flag *)

Section CompressionFlag.
Context {K : ssl_consts}.

Lemma lor_twice a b : Z.lor (Z.lor a b) b = Z.lor a b.
Proof. rewrite <- Z.lor_assoc, Z.lor_diag. reflexivity. Qed.

(** The compression loop sets the flag when it meets the method 1. *)
Lemma compression_loop_flags fuel buf tmp_end : forall pay sig sig' pay',
  compression_loop fuel buf pay tmp_end sig = Done (sig', pay') ->
  0 <= pay -> tmp_end <= Z.of_nat (length buf) ->
  flags sig'
  = if existsb (fun m => u8_of m =? 1) (window buf pay tmp_end)
    then Z.lor (flags sig) SSL_FLAG_COMPR else flags sig.
Proof.
  induction fuel as [| fuel IH]; intros pay sig sig' pay' H Hpay Hend;
    cbn [compression_loop] in H;
    destruct (Z.ltb_spec pay tmp_end) as [Hlt | Hge];
    try discriminate;
    try (apply Done_inj in H; injection H as <- _;
         rewrite window_empty by lia; reflexivity).
  destruct (window_cons buf pay tmp_end) as (x & Hr & ->); [lia | lia |].
  rewrite Hr in H. cbn [bind] in H. apply IH in H; [| lia | lia].
  rewrite H. cbn [existsb].
  destruct (u8_of x =? 1); cbn [orb flags set_flags].
  - rewrite lor_twice. destruct (existsb _ _); reflexivity.
  - reflexivity.
Qed.

Lemma v3_compression_extensions_flags sig buf pay pay_end r sig' :
  v3_compression_extensions sig buf pay pay_end = Done (r, sig') ->
  0 <= pay <= pay_end -> pay_end <= Z.of_nat (length buf) ->
  flags sig'
  = if deflate_offered (window buf pay pay_end)
    then Z.lor (flags sig) SSL_FLAG_COMPR else flags sig.
Proof.
  intros H Hpay Hend.
  assert (Htr : forall s r' s', v3_truncated s = Done (r', s') ->
                                flags s' = flags s).
  { unfold v3_truncated. intros s r' s' E. apply Done_inj in E.
    injection E as _ <-. destruct (extensions s); reflexivity. }
  unfold v3_compression_extensions in H.
  destruct (Z.gtb_spec (pay + 1) pay_end) as [| Hone].
  { rewrite window_empty by lia. apply (Htr _ _ _ H). }
  destruct (window_cons buf pay pay_end) as (n & Hn & ->); [lia | lia |].
  rewrite Hn in H. cbn [bind] in H. cbn [deflate_offered].
  pose proof (u8_of_range n) as Hrange.
  pose proof (window_length buf (pay + 1) pay_end ltac:(lia) Hend) as Hlen.
  destruct (Z.gtb_spec (pay + 1 + u8_of n) pay_end) as [Hover | Hfit].
  { destruct (Z.leb_spec (u8_of n) (Z.of_nat (length (window buf (pay + 1) pay_end))));
      [lia |]. apply (Htr _ _ _ H). }
  destruct (Z.leb_spec (u8_of n) (Z.of_nat (length (window buf (pay + 1) pay_end))));
    [| lia].
  cbn [andb]. rewrite window_firstn by lia.
  apply bind_done in H. destruct H as ([sig1 pay1] & Hloop & H).
  apply compression_loop_flags in Hloop; [| lia | lia].
  rewrite <- Hloop.
  destruct (_ >? _); [apply (Htr _ _ _ H) |].
  apply bind_done in H. destruct H as (el & _ & H).
  destruct (_ >? _); [apply (Htr _ _ _ H) |].
  apply bind_done in H. destruct H as ([es pay2] & _ & H).
  apply Htr in H. rewrite H. reflexivity.
Qed.

(** X19: the flags that an accepted ClientHello leaves in the signature
    are those of the version and of the time, and with them the compression
    flag exactly when a list of compression methods that lies within the
    message offers the method 1. *)
Theorem client_hello_compression_flag sig0 fragment frag_len rv lt
        msg_len sid_len cs_len :
  through_ciphers fragment frag_len msg_len sid_len cs_len ->
  exists sig ver time,
    fingerprint_ssl_v3 sig0 fragment frag_len rv lt = Done (1, sig)
    /\ rd16 fragment 4 = Done ver /\ rd32 fragment 6 = Done time
    /\ flags sig
       = if deflate_offered
              (window fragment (41 + sid_len + cs_len) (4 + msg_len))
         then Z.lor (flags (v3_remote_time (v3_request_version sig0 ver rv)
                                           time lt)) SSL_FLAG_COMPR
         else flags (v3_remote_time (v3_request_version sig0 ver rv) time lt).
Proof.
  intros Htc. pose proof Htc as [Hbuf Hml Hmfit Hhello Hfixed Hsid Hsfit Hcs
                                 Heven Hcfit].
  destruct (fingerprint_ssl_v3_returns sig0 fragment frag_len rv lt)
    as ([r sig] & Hrun); [lia | lia |].
  pose proof (through_ciphers_accepted _ _ _ _ _ _ _ _ _ _ Htc Hrun) as ->.
  destruct (fingerprint_ssl_v3_inv _ _ _ _ _ _ _ Hrun) as [| Hinv];
    [discriminate |].
  destruct Hinv as (msg_len' & ver & time & sid' & csl' & cs & pay' & Hml'
                    & _ & _ & _ & Hver & Htime & Hsid' & _ & Hcs' & _ & _
                    & Hloop & Hrest).
  rewrite Hml in Hml'. apply Done_inj in Hml'. subst msg_len'.
  rewrite Hsid in Hsid'. apply Done_inj in Hsid'. subst sid'.
  rewrite Hcs in Hcs'. apply Done_inj in Hcs'. subst csl'.
  pose proof (rd_done _ _ _ Hsid) as (_ & Hsid_range & _).
  pose proof (rd16_done _ _ _ Hcs) as (_ & _ & Hcs_range).
  destruct (v3_cipher_loop_done (Z.to_nat cs_len) fragment
              (41 + sid_len + cs_len) (41 + sid_len) [])
    as (cs' & Hloop'); try lia.
  { replace (41 + sid_len + cs_len - (41 + sid_len)) with cs_len by lia.
    exact Heven. }
  assert (Epay : pay' = 41 + sid_len + cs_len) by congruence.
  subst pay'.
  exists sig, ver, time. repeat (split; [assumption |]).
  apply v3_compression_extensions_flags in Hrest; [exact Hrest | lia | lia].
Qed.

End CompressionFlag.

(** X19, witness: [hello_whole] offers the one method 0, and the flags stay
    those of the version and of the time. *)
Lemma client_hello_compression_flag_witness :
  exists sig ver time,
    @fingerprint_ssl_v3 p0f_consts zero_sig hello_whole 51 0x0301 0 = Done (1, sig)
    /\ rd16 hello_whole 4 = Done ver /\ rd32 hello_whole 6 = Done time
    /\ flags sig
       = if deflate_offered (window hello_whole (41 + 0 + 2) (4 + 47))
         then Z.lor (flags (@v3_remote_time p0f_consts
                              (@v3_request_version p0f_consts zero_sig ver 0x0301)
                              time 0)) (@SSL_FLAG_COMPR p0f_consts)
         else flags (@v3_remote_time p0f_consts
                       (@v3_request_version p0f_consts zero_sig ver 0x0301)
                       time 0).
Proof.
  apply (@client_hello_compression_flag p0f_consts zero_sig hello_whole 51
           0x0301 0 47 0 2).
  exact hello_whole_through_ciphers.
Defined.

(** ** A registered catch-all signature *)

Section CatchAll.
Context {K : ssl_consts} (HK : consts_ok K).

(** The lone star matches every observed sequence. *)
Lemma match_sigs_lone_star S :
  Forall is_value S ->
  match_sigs [MATCH_ANY; END_MARKER] (S ++ [END_MARKER]) = 0.
Proof.
  intros HS. unfold match_sigs. destruct S as [| s S]; cbn [app].
  - cbn [match_loop deref hd]. rewrite Z.eqb_refl, orb_true_r.
    unfold match_finish. cbn [roll]. rewrite Z.eqb_refl, orb_true_r.
    rewrite (end_plain K HK).
    rewrite (eqb_false END_MARKER MATCH_ANY)
      by (intros E; apply (any_not_end K HK); congruence).
    cbn [Z.eqb negb orb deref hd]. rewrite Z.eqb_refl. reflexivity.
  - inversion HS as [| ? ? Hs _]; subst.
    rewrite (match_loop_star HK) by assumption.
    rewrite (match_loop_reference_end HK). rewrite orb_true_r. reflexivity.
Qed.

(** The lookup stops at a candidate or before it. *)
Lemma find_loop_finds todo : forall i ts n r,
  Forall (fun r => arrays_set (rec_sig r)) todo -> arrays_set ts ->
  nth_error todo n = Some r -> candidate (rec_sig r) ts = true ->
  exists k, (k <= n)%nat
            /\ find_loop todo i ts = Done (set_matched ts (Some (i + k)%nat)).
Proof.
  induction todo as [| ref todo IH]; intros i ts n r Hall Hts Hn Hc.
  - destruct n; discriminate.
  - inversion Hall as [| ? ? Href Hall']; subst.
    destruct (candidate (rec_sig ref) ts) eqn:Ec.
    + exists 0%nat. split; [lia |].
      rewrite (find_loop_hit ref todo i ts Href Hts Ec).
      rewrite Nat.add_0_r. reflexivity.
    + rewrite (find_loop_skip ref todo i ts Href Hts Ec).
      destruct n as [| n]; [cbn in Hn; congruence |].
      destruct (IH (S i) ts n r Hall' Hts Hn Hc) as (k & Hk & E).
      exists (S k). split; [lia |]. rewrite E. do 3 f_equal. lia.
Qed.

(** X20: after the registration of the rendered signature whose cipher
    suites and extensions are both the lone star, every observed signature
    of the same version and without flags finds a match, whatever its cipher
    suites and extensions: the new record, or one registered before it. *)
Theorem catch_all_signature db ts v cs es generic sig_class sig_name
    sig_flavor label_id sys sys_cnt line_no :
  registered db -> 0 <= v < 2 ^ 16 ->
  request_version ts = v -> flags ts = 0 ->
  cipher_suites ts = Some (cs ++ [END_MARKER]) ->
  extensions ts = Some (es ++ [END_MARKER]) ->
  Forall is_value cs -> Forall is_value es ->
  exists line db' i,
    dump_sig (mk_ssl_sig v 0 0 (Some [MATCH_ANY; END_MARKER])
                         (Some [MATCH_ANY; END_MARKER]) 0 None) = Done line
    /\ ssl_register_sig db 1 generic sig_class sig_name sig_flavor label_id
                        sys sys_cnt line line_no = Done db'
    /\ ssl_find_match db' ts = Done (set_matched ts (Some i))
    /\ (i <= length db)%nat.
Proof.
  intros Hreg Hv Hver Hfl Hc He Hcs Hes.
  destruct (register_rendered HK
              (mk_ssl_sig v 0 0 (Some [MATCH_ANY; END_MARKER])
                          (Some [MATCH_ANY; END_MARKER]) 0 None)
              [Wildcard] [Wildcard] db generic sig_class sig_name sig_flavor
              label_id sys sys_cnt line_no)
    as (line & Hdump & Hrun);
    try reflexivity; try exact Hv; try discriminate;
    try (repeat constructor); try (cbn [length]; lia).
  match type of Hrun with
  | _ = Done (db ++ [?r]) => set (srec := r) in *
  end.
  assert (Hreg' : registered (db ++ [srec])).
  { eapply registered_sig; [exact Hreg | exact Hrun]. }
  assert (Hts : arrays_set ts).
  { split; [rewrite Hc | rewrite He]; discriminate. }
  destruct (find_loop_finds (db ++ [srec]) 0%nat ts (length db) srec
              (registered_arrays _ Hreg') Hts) as (k & Hk & Hfind).
  - rewrite nth_error_app2 by lia. rewrite Nat.sub_diag. reflexivity.
  - unfold candidate, srec.
    cbn [rec_sig request_version flags extensions cipher_suites map
         encode_token reread_extension app].
    rewrite Hver, Hfl, Hc, He. unfold pattern_match.
    rewrite !match_sigs_lone_star by assumption.
    rewrite !Z.eqb_refl. reflexivity.
  - exists line, (db ++ [srec]), k. split; [exact Hdump |].
    split; [exact Hrun |]. split; [exact Hfind | exact Hk].
Qed.

End CatchAll.

(** X20, witness: the catch-all for version 3.1 registered after
    [table_example], and the observed signature [observed_example]. *)
Lemma catch_all_signature_witness :
  exists line db' i,
    @dump_sig p0f_consts
      (mk_ssl_sig 0x0301 0 0 (Some [0x20000000; 0x40000000])
                  (Some [0x20000000; 0x40000000]) 0 None) = Done line
    /\ @ssl_register_sig p0f_consts table_example 1 1 1 9 None 0 [] 0 line 20
       = Done db'
    /\ @ssl_find_match p0f_consts db' observed_example
       = Done (set_matched observed_example (Some i))
    /\ (i <= length table_example)%nat.
Proof.
  apply (@catch_all_signature p0f_consts p0f_consts_ok table_example
           observed_example 0x0301 [0x2f] [10] 1 1 9 None 0 [] 0 20).
  - exact table_example_registered.
  - lia.
  - reflexivity.
  - reflexivity.
  - reflexivity.
  - reflexivity.
  - repeat constructor; unfold is_value; lia.
  - repeat constructor; unfold is_value; lia.
Defined.

(** ** Flows that are confirmed *)

Section Confirmed.
Context {K : ssl_consts}.

(** X21: a client flow that is undecided and whose buffer starts with a
    whole TLS handshake record (versions 3.0 to 3.3, fragment below 2^14
    bytes) carrying a ClientHello that is well-formed through the cipher
    suites becomes SSL: the SSLv3 dissector is called once, on the fragment
    with the record version and the time of the flow, and the observation
    of its signature is written. *)
Theorem tls_client_hello_confirmed signatures fp_os_names to_srv f
        b0 b1 b2 l1 l0 fragment msg_len sid_len cs_len :
  registered signatures ->
  in_ssl f = 0 -> to_srv <> 0 ->
  request f = b0 :: b1 :: b2 :: l1 :: l0 :: fragment ->
  u8_of b0 = SSL3_REC_HANDSHAKE -> SSL3_REC_HANDSHAKE < 0x80 ->
  u8_of b1 = 3 -> u8_of b2 < 4 ->
  be16 l1 l0 < 2 ^ 14 ->
  5 + be16 l1 l0 <= req_len f ->
  through_ciphers fragment (be16 l1 l0) msg_len sid_len cs_len ->
  exists sig obs,
    fingerprint_ssl_v3 zero_sig fragment (be16 l1 l0) (be16 b1 b2) (last_seen f)
    = Done (1, sig)
    /\ fingerprint_ssl signatures fp_os_names to_srv sig = Done obs
    /\ process_ssl signatures fp_os_names to_srv f
       = Done (0, set_in_ssl f 1,
               CallV3 fragment (be16 l1 l0) (be16 b1 b2) (last_seen f) :: obs).
Proof.
  intros Hreg Hin Hsrv Hreq Hb0 Hlow Hb1 Hb2 Hlen Hbuffered Htc.
  pose proof Htc as [Hbuf Hml Hmfit Hhello Hfixed _ _ _ _ _].
  pose proof (rd24_done _ _ _ Hml) as (_ & _ & Hml_range).
  destruct (fingerprint_ssl_v3_returns zero_sig fragment (be16 l1 l0)
              (be16 b1 b2) (last_seen f)) as ([r sig] & Hrun); [lia | lia |].
  pose proof (through_ciphers_accepted _ _ _ _ _ _ _ _ _ _ Htc Hrun) as ->.
  destruct (fingerprint_ssl_v3_success _ _ _ _ _ _ Hrun eq_refl)
    as (cs & es & Hc & He & _).
  pose proof (fingerprint_ssl_v3_matched _ _ _ _ _ _ Hrun) as Hm.
  destruct (fingerprint_ssl_returns signatures fp_os_names to_srv sig Hreg)
    as (obs & Hobs).
  { split; [rewrite Hc | rewrite He]; discriminate. }
  { exact Hm. }
  exists sig, obs. split; [exact Hrun |]. split; [exact Hobs |].
  assert (R0 : rd (request f) 0 = Done (u8_of b0)) by (rewrite Hreq; reflexivity).
  assert (R1 : rd (request f) 1 = Done (u8_of b1)) by (rewrite Hreq; reflexivity).
  assert (R2 : rd (request f) 2 = Done (u8_of b2)) by (rewrite Hreq; reflexivity).
  assert (R3 : rd (request f) 3 = Done (u8_of l1)) by (rewrite Hreq; reflexivity).
  assert (R4 : rd (request f) 4 = Done (u8_of l0)) by (rewrite Hreq; reflexivity).
  assert (R5 : rd (request f) 5 = Done SSL3_MSG_CLIENT_HELLO)
    by (rewrite Hreq; exact Hhello).
  assert (Hfrag : skipn (Z.to_nat sizeof_ssl3_record_hdr) (request f) = fragment)
    by (rewrite Hreq; reflexivity).
  pose proof (u8_of_range b0) as Hr0. pose proof (u8_of_range b1) as Hr1.
  unfold process_ssl. cbv zeta. rewrite Hin. cbn [Z.eqb negb].
  destruct (Z.eqb_spec to_srv 0) as [| _]; [contradiction |].
  destruct (Z.ltb_spec (req_len f) 6) as [| _]; [lia |].
  change ssl2_msg_length with 0. change ssl3_rec_length with 3.
  change ssl3_content_type with 0. change ssl3_ver_maj with 1.
  change ssl3_ver_min with 2. change ssl2_msg_type with 2.
  unfold rd16. change (0 + 1) with 1. change (3 + 1) with 4.
  rewrite R0, R1, R2, R3, R4, R5, Hfrag. cbn [bind].
  rewrite (top_bit_clear (u8_of b0) (u8_of b1)) by lia.
  cbn [Z.eqb negb mand bind]. unfold mand, test. cbn [bind].
  rewrite Hb0, Hb1, !Z.eqb_refl.
  destruct (Z.ltb_spec (u8_of b2) 4) as [_ |]; [| lia].
  fold (be16 l1 l0).
  destruct (Z.gtb_spec (be16 l1 l0) 3) as [_ |]; [| lia].
  change (Z.shiftl 1 14) with (2 ^ 14).
  destruct (Z.ltb_spec (be16 l1 l0) (2 ^ 14)) as [_ |]; [| lia].
  cbn [bind].
  destruct (Z.ltb_spec (req_len f) (sizeof_ssl3_record_hdr + be16 l1 l0)) as [Hshort | _].
  { change sizeof_ssl3_record_hdr with 5 in Hshort. lia. }
  rewrite <- Hb1. fold (be16 b1 b2). rewrite Hrun. cbn [bind].
  unfold process_result. change (negb (1 =? 1)) with false. cbv iota.
  rewrite Hobs. reflexivity.
Qed.

Lemma top_bit_set ml :
  0x8000 <= ml < 0x10000 ->
  Z.land ml 0x8000 = 0x8000 /\ Z.land ml (Z.lnot 0x8000) = ml - 0x8000.
Proof.
  intros Hml. change 0x8000 with (2 ^ 15) in *.
  assert (Hbit : Z.testbit ml 15 = true).
  { apply Z.testbit_true; [lia |].
    replace (ml / 2 ^ 15) with 1; [reflexivity |].
    apply Z.div_unique with (r := ml - 2 ^ 15); lia. }
  split.
  - apply Z.bits_inj'. intros n Hn.
    rewrite Z.land_spec, Z.pow2_bits_eqb by lia.
    destruct (Z.eqb_spec 15 n) as [<- |];
      [rewrite Hbit; reflexivity | apply andb_false_r].
  - rewrite <- Z.ldiff_land. symmetry. apply Z.sub_nocarry_ldiff.
    apply Z.bits_inj'. intros n Hn.
    rewrite Z.ldiff_spec, Z.bits_0, Z.pow2_bits_eqb by lia.
    destruct (Z.eqb_spec 15 n) as [<- |]; [rewrite Hbit |]; reflexivity.
Qed.

(** X22: a client flow that is undecided and whose buffer holds a whole
    SSLv2 record (top bit of the length set, at least 9 bytes declared,
    message type 1, version 3.0 to 3.3 or the bytes 0, 2) whose cipher specs
    are a multiple of 3 bytes within the record becomes SSL: the SSLv2
    dissector is called once on the record, the signature carries the flag
    v2 and no other, and its observation is written. *)
Theorem sslv2_client_hello_confirmed signatures fp_os_names to_srv f
        m1 m0 t va vi c1 c0 rest :
  registered signatures ->
  in_ssl f = 0 -> to_srv <> 0 ->
  request f = m1 :: m0 :: t :: va :: vi :: c1 :: c0 :: rest ->
  0x80 <= u8_of m1 -> 9 <= be16 m1 m0 - 0x8000 ->
  u8_of t = 1 ->
  (u8_of va = 3 /\ u8_of vi < 4) \/ (u8_of vi = 2 /\ u8_of va = 0) ->
  2 + (be16 m1 m0 - 0x8000) <= req_len f ->
  req_len f <= Z.of_nat (length (request f)) ->
  be16 c1 c0 mod 3 = 0 -> 11 + be16 c1 c0 <= be16 m1 m0 - 0x8000 + 2 ->
  exists sig obs,
    fingerprint_ssl_v2 (set_flags zero_sig SSL_FLAG_V2) (request f)
                       (be16 m1 m0 - 0x8000 + 2) = Done (1, sig)
    /\ flags sig = SSL_FLAG_V2
    /\ fingerprint_ssl signatures fp_os_names to_srv sig = Done obs
    /\ process_ssl signatures fp_os_names to_srv f
       = Done (0, set_in_ssl f 1,
               CallV2 (request f) (be16 m1 m0 - 0x8000 + 2) :: obs).
Proof.
  intros Hreg Hin Hsrv Hreq Htop Hnine Ht Hver Hbuffered Hbuf Hmod Hfit.
  assert (R0 : rd (request f) 0 = Done (u8_of m1)) by (rewrite Hreq; reflexivity).
  assert (R1 : rd (request f) 1 = Done (u8_of m0)) by (rewrite Hreq; reflexivity).
  assert (R2 : rd (request f) 2 = Done (u8_of t)) by (rewrite Hreq; reflexivity).
  assert (R3 : rd (request f) 3 = Done (u8_of va)) by (rewrite Hreq; reflexivity).
  assert (R4 : rd (request f) 4 = Done (u8_of vi)) by (rewrite Hreq; reflexivity).
  assert (R16 : rd16 (request f) 5 = Done (be16 c1 c0))
    by (rewrite Hreq; reflexivity).
  pose proof (be16_range m1 m0) as Hml.
  destruct (top_bit_set (be16 m1 m0)) as [Hbit Hclear]; [lia |].
  destruct (fingerprint_ssl_v2_verdict (set_flags zero_sig SSL_FLAG_V2)
              (request f) (be16 m1 m0 - 0x8000 + 2)) as (r & sig & Hrun & _ & Hr);
    [lia |].
  assert (r = 1) as ->.
  { apply Hr. split; [lia |]. exists (be16 c1 c0). auto. }
  pose proof (fingerprint_ssl_v2_matched _ _ _ _ Hrun) as [Hm Harr].
  destruct (fingerprint_ssl_returns signatures fp_os_names to_srv sig Hreg Harr Hm)
    as (obs & Hobs).
  exists sig, obs. split; [exact Hrun |]. split.
  { apply fingerprint_ssl_v2_success in Hrun.
    destruct Hrun as (? & ? & ? & ? & ? & _ & _ & _ & _ & _ & _ & ->).
    destruct (_ && _); reflexivity. }
  split; [exact Hobs |].
  unfold process_ssl. cbv zeta. rewrite Hin. cbn [Z.eqb negb].
  destruct (Z.eqb_spec to_srv 0) as [| _]; [contradiction |].
  destruct (Z.ltb_spec (req_len f) 6) as [| _]; [lia |].
  assert (R16' : rd16 (request f) 3
                 = Done (Z.lor (Z.shiftl (u8_of va) 8) (u8_of vi))).
  { unfold rd16. change (3 + 1) with 4. rewrite R3, R4. reflexivity. }
  assert (R16'' : rd16 (request f) 0 = Done (be16 m1 m0)).
  { unfold rd16. change (0 + 1) with 1. rewrite R0, R1. reflexivity. }
  change ssl2_msg_length with 0. change ssl3_rec_length with 3.
  change ssl2_msg_type with 2. change ssl2_ver_maj with 3.
  change ssl2_ver_min with 4.
  rewrite R16'', R16'. cbn [bind]. rewrite Hbit, Hclear.
  change (negb (0x8000 =? 0)) with true.
  change (sizeof_ssl2_hdr - 2) with 9.
  destruct (Z.geb_spec (be16 m1 m0 - 0x8000) 9) as [_ |]; [| lia].
  rewrite R2, R3, R4. unfold mand, mor, test. cbn [bind].
  rewrite Ht. change (1 =? 1) with true. cbv iota.
  match goal with
  | |- bind ?m _ = _ => assert (Hv2 : m = Done true)
  end.
  { destruct Hver as [[Hva Hvi] | [Hvi Hva]].
    - rewrite Hva. change (3 =? 3) with true. cbv iota. cbn [bind].
      destruct (Z.ltb_spec (u8_of vi) 4); [reflexivity | lia].
    - rewrite Hva, Hvi. reflexivity. }
  rewrite Hv2. cbn [bind].
  destruct (Z.ltb_spec (req_len f) (2 + (be16 m1 m0 - 0x8000))) as [| _]; [lia |].
  change (Z.lor (flags zero_sig) SSL_FLAG_V2) with SSL_FLAG_V2.
  rewrite Hrun. cbn [bind]. unfold process_result.
  change (negb (1 =? 1)) with false. cbv iota. rewrite Hobs. reflexivity.
Qed.

End Confirmed.

(** X21, witness: the record [tls_record] of 56 bytes. *)
Lemma tls_client_hello_confirmed_witness :
  exists sig obs,
    @fingerprint_ssl_v3 p0f_consts zero_sig hello_whole (be16 x00 x33)
      (be16 x03 x01) 0x50000000 = Done (1, sig)
    /\ @fingerprint_ssl p0f_consts table_example (fun _ => str "Firefox") 1 sig
       = Done obs
    /\ @process_ssl p0f_consts table_example (fun _ => str "Firefox") 1
         (mk_packet_flow 0 56 tls_record 0x50000000)
       = Done (0, set_in_ssl (mk_packet_flow 0 56 tls_record 0x50000000) 1,
               CallV3 hello_whole (be16 x00 x33) (be16 x03 x01) 0x50000000 :: obs).
Proof.
  apply (@tls_client_hello_confirmed p0f_consts table_example
           (fun _ => str "Firefox") 1 (mk_packet_flow 0 56 tls_record 0x50000000)
           x16 x03 x01 x00 x33 hello_whole 47 0 2).
  - exact table_example_registered.
  - reflexivity.
  - discriminate.
  - reflexivity.
  - reflexivity.
  - simpl; lia.
  - reflexivity.
  - vm_compute; reflexivity.
  - vm_compute; reflexivity.
  - vm_compute; discriminate.
  - exact hello_whole_through_ciphers.
Defined.

(** X22, witness: the SSLv2 hello [sslv2_hello] of 33 bytes. *)
Lemma sslv2_client_hello_confirmed_witness :
  exists sig obs,
    @fingerprint_ssl_v2 p0f_consts (set_flags zero_sig 1) sslv2_hello
      (be16 x80 x1f - 0x8000 + 2) = Done (1, sig)
    /\ flags sig = 1
    /\ @fingerprint_ssl p0f_consts [] (fun _ => []) 1 sig = Done obs
    /\ @process_ssl p0f_consts [] (fun _ => []) 1
         (mk_packet_flow 0 33 sslv2_hello 0)
       = Done (0, set_in_ssl (mk_packet_flow 0 33 sslv2_hello 0) 1,
               CallV2 sslv2_hello (be16 x80 x1f - 0x8000 + 2) :: obs).
Proof.
  apply (@sslv2_client_hello_confirmed p0f_consts [] (fun _ => []) 1
           (mk_packet_flow 0 33 sslv2_hello 0)
           x80 x1f x01 x03 x01 x00 x06
           ([x00; x00; x00; x10; x01; x00; x80; x07; x00; xc0] ++ repeat x2a 16)).
  - constructor.
  - reflexivity.
  - discriminate.
  - reflexivity.
  - vm_compute; discriminate.
  - vm_compute; discriminate.
  - reflexivity.
  - left. split; [reflexivity | vm_compute; reflexivity].
  - vm_compute; discriminate.
  - vm_compute; discriminate.
  - reflexivity.
  - vm_compute; discriminate.
Defined.

(** ** The records of the table *)

Section TableInvariant.
Context {K : ssl_consts}.

(** A call of [ssl_register_sig] that returns leaves the table as it is or
    appends one record, with the metadata it was given and a reference
    signature. *)
Lemma ssl_register_sig_record db db' to_srv generic sig_class sig_name
      sig_flavor label_id sys sys_cnt val line_no :
  ssl_register_sig db to_srv generic sig_class sig_name sig_flavor label_id
                   sys sys_cnt val line_no = Done db' ->
  (to_srv <> 1 /\ db' = db)
  \/ (to_srv = 1
      /\ exists ssig,
           db' = db ++ [mk_ssl_sig_record sig_class sig_name sig_flavor
                          label_id sys sys_cnt line_no generic ssig]
           /\ reference_signature ssig).
Proof.
  unfold ssl_register_sig. intros H.
  destruct (Z.eqb_spec to_srv 1) as [-> | Hsrv]; cbn [negb] in H.
  2: { left. split; [exact Hsrv | congruence]. }
  right. split; [reflexivity |].
  destruct (strtol val 10) as [maj val1].
  destruct (negb (Ascii.eqb (peek val1) ".")); [discriminate |].
  destruct (strtol (tl val1) 10) as [min val2].
  destruct (negb (Ascii.eqb (peek val2) ":")); [discriminate |].
  apply bind_done in H. destruct H as (r1 & Hd1 & H).
  destruct r1 as [[cs val3] |]; [| discriminate].
  destruct (negb (Ascii.eqb (peek val3) ":")); [discriminate |].
  apply bind_done in H. destruct H as (r2 & Hd2 & H).
  destruct r2 as [[es val4] |]; [| discriminate].
  destruct (negb (Ascii.eqb (peek val4) ":")); [discriminate |].
  apply bind_done in H. destruct H as (fl & _ & H).
  apply Done_inj in H. subst db'.
  apply (decode_loop_result 128 _ []) in Hd1.
  destruct Hd1 as (ts1 & _ & -> & Hts1 & Hne1 & Hlen1 & _).
  apply (decode_loop_result 128 _ []) in Hd2.
  destruct Hd2 as (ts2 & _ & -> & Hts2 & Hne2 & Hlen2 & _).
  eexists. split; [reflexivity |].
  unfold reference_signature.
  cbn [request_version cipher_suites extensions remote_time drift matched
       set_flags set_extensions set_cipher_suites set_request_version zero_sig].
  split; [apply Z.mod_pos_bound; lia |].
  split; [exists ts1; cbn [app]; auto |].
  split; [exists ts2; cbn [app]; auto |].
  auto.
Qed.

(** X24: a call of [ssl_register_sig] that returns has left the table as
    it was when the direction is not the client's, and has otherwise
    appended exactly one record, after the records registered before, with
    the class, name, flavor, label, systems, line number and generic mark it
    was given. *)
Theorem registration_appends_one_record db db' to_srv generic sig_class
        sig_name sig_flavor label_id sys sys_cnt val line_no :
  ssl_register_sig db to_srv generic sig_class sig_name sig_flavor label_id
                   sys sys_cnt val line_no = Done db' ->
  (to_srv <> 1 /\ db' = db)
  \/ (to_srv = 1
      /\ exists ssig,
           db' = db ++ [mk_ssl_sig_record sig_class sig_name sig_flavor
                          label_id sys sys_cnt line_no generic ssig]
           /\ reference_signature ssig).
Proof. apply ssl_register_sig_record. Qed.

(** X23: every record of a table built by registrations holds a reference
    signature: a 16-bit version, in each array 1 to 128 words that are the
    star or a 24-bit value with or without the optional marking, then the
    terminator, and no time, drift or match. *)
Theorem registered_records_wellformed db :
  registered db -> Forall (fun r => reference_signature (rec_sig r)) db.
Proof.
  induction 1 as [| db db' ? ? ? ? ? ? ? ? ? ? _ IH Hreg]; [constructor |].
  apply ssl_register_sig_record in Hreg.
  destruct Hreg as [[_ ->] | (_ & ssig & -> & Hs)]; [exact IH |].
  apply Forall_app. split; [exact IH | constructor; [exact Hs | constructor]].
Qed.

End TableInvariant.

(** X23, witness: the two records of [table_example]. *)
Lemma registered_records_wellformed_witness :
  Forall (fun r => @reference_signature p0f_consts (rec_sig r)) table_example.
Proof.
  apply (@registered_records_wellformed p0f_consts table_example).
  exact table_example_registered.
Defined.

(** X24, witness: the line 3.1:2f,*:?0,ff01:ver,v2 on the empty table. *)
Lemma registration_appends_one_record_witness :
  (1 <> 1 /\ [mk_ssl_sig_record 1 7 None 0 [] 0 12 0
                (mk_ssl_sig 0x0301 0 0 (Some [0x2f; 0x20000000; 0x40000000])
                   (Some [0x10000000; 0xff01; 0x40000000]) 3 None)] = [])
  \/ (1 = 1
      /\ exists ssig,
           [mk_ssl_sig_record 1 7 None 0 [] 0 12 0
              (mk_ssl_sig 0x0301 0 0 (Some [0x2f; 0x20000000; 0x40000000])
                 (Some [0x10000000; 0xff01; 0x40000000]) 3 None)]
           = [] ++ [mk_ssl_sig_record 1 7 None 0 [] 0 12 0 ssig]
           /\ @reference_signature p0f_consts ssig).
Proof.
  apply (@registration_appends_one_record p0f_consts [] _ 1 0 1 7 None 0 [] 0
           (str "3.1:2f,*:?0,ff01:ver,v2") 12).
  vm_compute. reflexivity.
Defined.

(** ** The matcher stops at the terminators *)

Section Terminators.
Context {K : ssl_consts} (HK : consts_ok K).

Lemma deref_terminated S j :
  deref (S ++ END_MARKER :: j) = deref (S ++ [END_MARKER]).
Proof. destruct S; reflexivity. Qed.

Lemma roll_terminated R : forall j,
  ~ In END_MARKER R ->
  deref (roll (R ++ END_MARKER :: j)) = deref (roll (R ++ [END_MARKER])).
Proof.
  induction R as [| r R IH]; intros j Hno.
  - cbn [app roll]. rewrite (end_plain K HK).
    rewrite (eqb_false END_MARKER MATCH_ANY)
      by (intros E; apply (any_not_end K HK); congruence).
    reflexivity.
  - cbn [app roll]. destruct (negb _ || _).
    + apply IH. intros Hin. apply Hno. right. exact Hin.
    + reflexivity.
Qed.

Lemma match_finish_terminated R S j1 j2 match_any :
  ~ In END_MARKER R ->
  match_finish (R ++ END_MARKER :: j1) (S ++ END_MARKER :: j2) match_any
  = match_finish (R ++ [END_MARKER]) (S ++ [END_MARKER]) match_any.
Proof.
  intros Hno. unfold match_finish. cbv zeta.
  rewrite (roll_terminated R j1 Hno), (deref_terminated S j2). reflexivity.
Qed.

(** The scan of rule 3 ends before the terminator or gives up on it. *)
Lemma look_forward_terminated v S :
  ~ In END_MARKER S ->
  (forall j, look_forward v (S ++ END_MARKER :: j) = None)
  \/ exists S', ~ In END_MARKER S'
                /\ forall j, look_forward v (S ++ END_MARKER :: j)
                             = Some (S' ++ END_MARKER :: j).
Proof.
  induction S as [| s S IH]; intros Hno.
  - left. intros j. cbn [app look_forward]. rewrite Z.eqb_refl. reflexivity.
  - assert (Hs : s <> END_MARKER) by (intros E; apply Hno; left; exact E).
    assert (HS : ~ In END_MARKER S) by (intros Hin; apply Hno; right; exact Hin).
    cbn [app look_forward]. rewrite (eqb_false _ _ Hs).
    destruct (v =? s).
    + right. exists S. split; [exact HS | reflexivity].
    + apply IH, HS.
Qed.

(** The scan of rule 4 ends before the terminator or on it. *)
Lemma seek_exact_terminated v S :
  ~ In END_MARKER S ->
  exists S', ~ In END_MARKER S'
             /\ forall j, seek_exact v (S ++ END_MARKER :: j)
                          = S' ++ END_MARKER :: j.
Proof.
  induction S as [| s S IH]; intros Hno.
  - exists []. split; [exact Hno |]. intros j. cbn [app seek_exact].
    rewrite Z.eqb_refl. reflexivity.
  - assert (Hs : s <> END_MARKER) by (intros E; apply Hno; left; exact E).
    assert (HS : ~ In END_MARKER S) by (intros Hin; apply Hno; right; exact Hin).
    cbn [app seek_exact]. rewrite (eqb_false _ _ Hs).
    destruct (v =? s).
    + exists S. split; [exact HS | reflexivity].
    + apply IH, HS.
Qed.

Lemma match_loop_terminated R : forall S match_any j1 j2,
  ~ In END_MARKER R -> ~ In END_MARKER S ->
  match_loop (R ++ END_MARKER :: j1) (S ++ END_MARKER :: j2) match_any
  = match_loop (R ++ [END_MARKER]) (S ++ [END_MARKER]) match_any.
Proof.
  induction R as [| r R IH]; intros S match_any j1 j2 HR HS.
  - cbn [app match_loop]. rewrite Z.eqb_refl. cbn [orb].
    apply (match_finish_terminated [] S j1 j2 match_any HR).
  - assert (Hr : r <> END_MARKER) by (intros E; apply HR; left; exact E).
    assert (HR' : ~ In END_MARKER R) by (intros Hin; apply HR; right; exact Hin).
    cbn [app match_loop]. rewrite (eqb_false _ _ Hr). cbn [orb].
    rewrite (deref_terminated S j2).
    destruct (deref (S ++ [END_MARKER]) =? END_MARKER) eqn:Eend.
    { apply (match_finish_terminated (r :: R) S j1 j2 match_any HR). }
    destruct S as [| s S]; [cbn in Eend; rewrite Z.eqb_refl in Eend; discriminate |].
    assert (HS' : ~ In END_MARKER S) by (intros Hin; apply HS; right; exact Hin).
    cbn [app tl].
    destruct (_ =? deref _); [apply IH; assumption |].
    destruct (r =? MATCH_ANY); [apply (IH (s :: S)); assumption |].
    destruct (negb (Z.land r MATCH_MAYBE =? 0)).
    + destruct match_any; [| apply (IH (s :: S)); assumption].
      destruct (look_forward_terminated (Z.land r (Z.lnot MATCH_MAYBE)) (s :: S) HS)
        as [Hnone | (S' & HS'' & Hsome)].
      * pose proof (Hnone j2) as E1. pose proof (Hnone []) as E2.
        cbn [app] in E1, E2. rewrite E1, E2.
        apply (IH (s :: S)); assumption.
      * pose proof (Hsome j2) as E1. pose proof (Hsome []) as E2.
        cbn [app] in E1, E2. rewrite E1, E2. apply IH; assumption.
    + destruct match_any; [| reflexivity].
      destruct (seek_exact_terminated r (s :: S) HS) as (S' & HS'' & Hseek).
      pose proof (Hseek j2) as E1. pose proof (Hseek []) as E2.
      cbn [app] in E1, E2. rewrite E1, E2. apply IH; assumption.
Qed.

(** X25: [match_sigs] reads neither array past its terminator: whatever
    follows the two terminators, the result is the same. *)
Theorem match_sigs_stops_at_terminators R S j1 j2 :
  ~ In END_MARKER R -> ~ In END_MARKER S ->
  match_sigs (R ++ END_MARKER :: j1) (S ++ END_MARKER :: j2)
  = match_sigs (R ++ [END_MARKER]) (S ++ [END_MARKER]).
Proof. intros HR HS. apply match_loop_terminated; assumption. Qed.

End Terminators.

(** X25, witness: the reference [*,?5] and the observed [1,5,2], each with
    words after its terminator. *)
Lemma match_sigs_stops_at_terminators_witness :
  @match_sigs p0f_consts ([0x20000000; 0x10000005] ++ 0x40000000 :: [7; 0x20000000])
                         ([1; 5; 2] ++ 0x40000000 :: [2; 2])
  = @match_sigs p0f_consts ([0x20000000; 0x10000005] ++ [0x40000000])
                           ([1; 5; 2] ++ [0x40000000]).
Proof.
  apply (@match_sigs_stops_at_terminators p0f_consts p0f_consts_ok
           [0x20000000; 0x10000005] [1; 5; 2] [7; 0x20000000] [2; 2]).
  - cbn. intros [E | [E | []]]; discriminate.
  - cbn. intros [E | [E | [E | []]]]; discriminate.
Defined.
